(** * SANRAL tender normalisation: a shallow embedding of [models.py] and of the
      per-item loop of [lambda_function.py]

    Layout: the Python text primitives the code calls ([Text]), the
    backtracking regular-expression matcher behind [re] ([Re]), Python
    values and exceptions ([Py]), [datetime] with [strptime] and
    [isoformat] ([Datetime]), the model classes ([Models]), the handler
    loop ([LambdaFunction]) and the predicates the properties are stated
    with ([Spec]); then the lemmas, and last the claims C1 to C10.

    Conventions.  A computation that may raise returns a [res]; one that
    also talks to the world returns an [M]: the requests and warnings it
    emitted, in order, and its result.  The world is a record [externals]:
    what [requests.get] answers for a URL (the answer carries what the four
    [BeautifulSoup] queries of the scraper find in the page) and the table
    of character references behind [html.unescape].

    Text is a list of characters with code points 0 to 255.  White space,
    digits, letters and [lower] are Python's on the whole of this range;
    [upper] and [title] are Python's on every text without the two small
    letters whose capitals lie outside of it (see [Text.to_upper]). *)

From Stdlib Require Import String Ascii List ZArith Bool Arith Lia.
Import ListNotations.
Set Warnings "-register-all".

Open Scope string_scope.
Open Scope nat_scope.
Open Scope list_scope.

(** Python [str]: literals are written as Rocq strings and read as lists. *)
Definition str := list ascii.
Coercion list_ascii_of_string : string >-> list.

(* ------------------------------------------------------------------ *)
(** ** Text primitives: [str.isspace], [upper], [lower], [title], [split],
       [join], [strip], [replace] *)

Module Text.

Definition code (c : ascii) : nat := nat_of_ascii c.

Definition between (lo hi : nat) (c : ascii) : bool :=
  (lo <=? code c) && (code c <=? hi).

(** Whitespace as [str.isspace], [str.split], [str.strip] and the regex
    class [\s] see it: TAB..CR, FS..US and the space, and above 127 the
    next-line control U+0085 and the no-break space U+00A0. *)
Definition isspace (c : ascii) : bool :=
  between 9 13 c || between 28 32 c || (code c =? 133) || (code c =? 160).

(** Letters and their case, as [str.isupper], [str.islower], [str.lower],
    [str.upper] and [str.title] see them on code points 0 to 255: the
    letters A-Z and a-z; above 127 the capitals 192-222 without the
    multiplication sign 215, the small letters 223-255 without the
    division sign 247, and three small letters without a capital: the
    ordinal indicators 170 and 186 and the micro sign 181.  A capital is
    32 below its small letter, but for three letters: the capital of the
    sharp s (223) is written SS, or Ss at the head of a word, and the
    capitals of the micro sign and of the y with diaeresis (255) are not
    characters of this range: [to_upper] leaves these two alone, where
    Python writes U+039C and U+0178. *)
Definition isupper (c : ascii) : bool :=
  between 65 90 c || between 192 214 c || between 216 222 c.
Definition islower (c : ascii) : bool :=
  between 97 122 c || (code c =? 170) || (code c =? 181) || (code c =? 186)
  || between 223 246 c || between 248 255 c.
Definition iscased (c : ascii) : bool := isupper c || islower c.
(** The decimal digits, which is the class [\d], and the class [a-zA-Z]
    of the patterns. *)
Definition isdigit (c : ascii) : bool := between 48 57 c.
Definition isalpha (c : ascii) : bool := between 65 90 c || between 97 122 c.

Definition to_lower (c : ascii) : ascii :=
  if isupper c then ascii_of_nat (code c + 32) else c.
Definition to_upper (c : ascii) : ascii :=
  if between 97 122 c || between 224 246 c || between 248 254 c
  then ascii_of_nat (code c - 32) else c.

Definition sharp_s (c : ascii) : bool := code c =? 223.
Definition upper_of (c : ascii) : str :=
  if sharp_s c then "SS" else [to_upper c].
Definition title_of (c : ascii) : str :=
  if sharp_s c then "Ss" else [to_upper c].

Definition lower (s : str) : str := map to_lower s.
Definition upper (s : str) : str := flat_map upper_of s.

(** [str.title]: a character that follows a cased character is lowered,
    any other one is raised. *)
Fixpoint title_from (previous_is_cased : bool) (s : str) : str :=
  match s with
  | [] => []
  | c :: s' =>
      (if previous_is_cased then [to_lower c] else title_of c)
        ++ title_from (iscased c) s'
  end.
Definition title (s : str) : str := title_from false s.

Definition char_eqb (a b : ascii) : bool := Ascii.eqb a b.

Fixpoint str_eqb (a b : str) : bool :=
  match a, b with
  | [], [] => true
  | x :: a', y :: b' => char_eqb x y && str_eqb a' b'
  | _, _ => false
  end.

(** [s.startswith(p)] *)
Fixpoint startswith (p s : str) : bool :=
  match p, s with
  | [], _ => true
  | x :: p', y :: s' => char_eqb x y && startswith p' s'
  | _ :: _, [] => false
  end.

(** [p in s] for two strings *)
Fixpoint contains (p s : str) : bool :=
  startswith p s || match s with [] => false | _ :: s' => contains p s' end.

(** [s.split()]: the maximal runs of non-whitespace, in order. *)
Fixpoint split (s : str) : list str :=
  match s with
  | [] => []
  | c :: s' =>
      let ws := split s' in
      if isspace c then ws
      else match s' with
           | [] => [[c]]
           | c' :: _ =>
               if isspace c' then [c] :: ws
               else match ws with
                    | w :: ws' => (c :: w) :: ws'
                    | [] => [[c]]
                    end
           end
  end.

(** [sep.join(ws)] *)
Fixpoint join (sep : str) (ws : list str) : str :=
  match ws with
  | [] => []
  | [w] => w
  | w :: ws' => w ++ sep ++ join sep ws'
  end.

Fixpoint lstrip (s : str) : str :=
  match s with
  | c :: s' => if isspace c then lstrip s' else s
  | [] => []
  end.
Definition rstrip (s : str) : str := rev (lstrip (rev s)).
(** [s.strip()] *)
Definition strip (s : str) : str := rstrip (lstrip s).

(** [s.replace(old, new)] for a non-empty [old]: the occurrences of [old]
    are replaced from left to right, the scan resuming after each one.
    [skip] counts the characters of the last occurrence still to pass. *)
Fixpoint replace_from (old new : str) (skip : nat) (s : str) : str :=
  match s with
  | [] => []
  | c :: s' =>
      match skip with
      | S k => replace_from old new k s'
      | O => if startswith old s
             then new ++ replace_from old new (length old - 1) s'
             else c :: replace_from old new 0 s'
      end
  end.
Definition replace (old new s : str) : str := replace_from old new 0 s.

(** [int(s)] on the digit strings the date patterns capture (a leading
    blank is skipped, as [int] does). *)
Definition digit_value (c : ascii) : Z := Z.of_nat (code c - 48).
Definition int_of_digits (s : str) : Z :=
  fold_left (fun acc c => if isdigit c then 10 * acc + digit_value c else acc)%Z s 0%Z.

End Text.

(* ------------------------------------------------------------------ *)
(** ** The regular expressions of [re]: a backtracking matcher

    The patterns of the program and of [_strptime] use character classes,
    sequence, ordered alternation, capture groups, and the greedy and lazy
    quantifiers over one-character atoms.
    The matcher explores alternatives in the order [re] does and stops at
    the first success. *)

Module Re.
Import Text.

Inductive regex : Type :=
| Eps
| Cls (p : ascii -> bool)
| Seq (r1 r2 : regex)
| Alt (r1 r2 : regex)
| Star (greedy : bool) (p : ascii -> bool)
| Group (name : string) (r : regex).

Definition Chr (c : ascii) : regex := Cls (char_eqb c).
(** A literal under [re.IGNORECASE]. *)
Definition ChrI (c : ascii) : regex :=
  Cls (fun x => char_eqb (to_lower x) (to_lower c)).
Definition Plus (p : ascii -> bool) : regex := Seq (Cls p) (Star true p).
Fixpoint Lit (ci : bool) (s : str) : regex :=
  match s with
  | [] => Eps
  | c :: s' => Seq (if ci then ChrI c else Chr c) (Lit ci s')
  end.
Fixpoint Alts (rs : list regex) : regex :=
  match rs with
  | [] => Cls (fun _ => false)
  | [r] => r
  | r :: rs' => Alt r (Alts rs')
  end.

Definition groups := list (string * str).

Fixpoint star_greedy {A} (p : ascii -> bool) (s : str)
  (k : str -> option A) : option A :=
  match s with
  | c :: s' =>
      if p c then
        match star_greedy p s' k with
        | Some x => Some x
        | None => k s
        end
      else k s
  | [] => k s
  end.

Fixpoint star_lazy {A} (p : ascii -> bool) (s : str)
  (k : str -> option A) : option A :=
  match k s with
  | Some x => Some x
  | None =>
      match s with
      | c :: s' => if p c then star_lazy p s' k else None
      | [] => None
      end
  end.

(** [rmatch r s g k]: match [r] at the head of [s], then hand the rest of
    the text and the groups captured so far to [k]; when [k] fails, try the
    next way of matching [r]. *)
Fixpoint rmatch {A} (r : regex) (s : str) (g : groups)
  (k : str -> groups -> option A) : option A :=
  match r with
  | Eps => k s g
  | Cls p =>
      match s with
      | c :: s' => if p c then k s' g else None
      | [] => None
      end
  | Seq r1 r2 => rmatch r1 s g (fun s' g' => rmatch r2 s' g' k)
  | Alt r1 r2 =>
      match rmatch r1 s g k with
      | Some x => Some x
      | None => rmatch r2 s g k
      end
  | Star greedy p =>
      (if greedy then star_greedy else star_lazy) p s (fun s' => k s' g)
  | Group name r1 =>
      rmatch r1 s g
        (fun s' g' => k s' ((name, firstn (length s - length s') s) :: g'))
  end.

(** A match object: the matched text, what follows it, and the groups. *)
Record match_object : Type := MatchObject {
  matched : str;
  rest : str;
  captured : groups
}.

(** [re.match(r, s)] *)
Definition re_match (r : regex) (s : str) : option match_object :=
  rmatch r s []
    (fun s' g => Some (MatchObject (firstn (length s - length s') s) s' g)).

(** [m.group(name)] of a group that took part in the match *)
Fixpoint group_of (g : groups) (name : string) : str :=
  match g with
  | [] => []
  | (n, v) :: g' => if String.eqb n name then v else group_of g' name
  end.
Definition group (m : match_object) (name : string) : str :=
  group_of (captured m) name.

(** [re.search(r, s)]: the first position where [r] matches. *)
Fixpoint re_search (r : regex) (s : str) : option match_object :=
  match re_match r s with
  | Some m => Some m
  | None =>
      match s with
      | [] => None
      | _ :: s' => re_search r s'
      end
  end.

(** [re.findall(r, s)] for a pattern without groups: the matched texts,
    left to right, the scan resuming where the previous match ended. *)
Fixpoint findall_from (r : regex) (skip : nat) (s : str) : list str :=
  match s with
  | [] =>
      match skip, re_match r [] with
      | O, Some m => [matched m]
      | _, _ => []
      end
  | _ :: s' =>
      match skip with
      | S k => findall_from r k s'
      | O =>
          match re_match r s with
          | Some m => matched m :: findall_from r (length (matched m) - 1) s'
          | None => findall_from r 0 s'
          end
      end
  end.
Definition findall (r : regex) (s : str) : list str := findall_from r 0 s.

(** The hyperlink pattern of [from_api_response], compiled with
    [re.IGNORECASE]: the literal href= and a double quote, group 1 (one or
    more characters other than a double quote), a double quote and >,
    optional whitespace, group 2 (lazily, any characters but newlines),
    optional whitespace, and the closing tag of the anchor. *)
Definition quote : ascii := ascii_of_nat 34.
Definition newline : ascii := ascii_of_nat 10.
Definition not_quote (c : ascii) : bool := negb (char_eqb c quote).
Definition dot (c : ascii) : bool := negb (char_eqb c newline).

Definition href_re : regex :=
  Seq (Lit true "href=")
 (Seq (Chr quote)
 (Seq (Group "1" (Plus not_quote))
 (Seq (Chr quote)
 (Seq (Chr ">")
 (Seq (Star true isspace)
 (Seq (Group "2" (Star false dot))
 (Seq (Star true isspace)
      (Lit true "</a>")))))))).

(** The e-mail pattern: one or more of letters, digits and . _ % + -,
    then @, one or more of letters, digits, . and -, then a dot and two or
    more letters. *)
Definition one_of (cs : str) (c : ascii) : bool := existsb (char_eqb c) cs.
Definition local_char (c : ascii) : bool :=
  isalpha c || isdigit c || one_of "._%+-" c.
Definition domain_char (c : ascii) : bool :=
  isalpha c || isdigit c || one_of ".-" c.

Definition email_re : regex :=
  Seq (Plus local_char)
 (Seq (Chr "@")
 (Seq (Plus domain_char)
 (Seq (Chr ".")
 (Seq (Cls isalpha) (Seq (Cls isalpha) (Star true isalpha)))))).

End Re.

(* ------------------------------------------------------------------ *)
(** ** Python values and exceptions *)

Module Py.
Import Text.

(** What [json] decodes to, which is what a row and its fields can be.
    A float is kept as mantissa and exponent; only its being zero matters
    here. *)
Inductive pyval : Type :=
| PNone
| PBool (b : bool)
| PInt (z : Z)
| PFloat (mantissa exponent : Z)
| PStr (s : str)
| PList (items : list pyval)
| PDict (entries : list (str * pyval)).

(** The exception classes the code can meet; all derive from [Exception]. *)
Inductive exn : Type :=
| ValueError
| TypeError
| AttributeError
| RequestException
| HTTPError.

Inductive res (A : Type) : Type :=
| Ret (a : A)
| Raise (e : exn).
Arguments Ret {A} a.
Arguments Raise {A} e.

Definition res_bind {A B} (r : res A) (f : A -> res B) : res B :=
  match r with
  | Ret a => f a
  | Raise e => Raise e
  end.

(** [bool(v)] *)
Definition truthy (v : pyval) : bool :=
  match v with
  | PNone => false
  | PBool b => b
  | PInt z => negb (z =? 0)%Z
  | PFloat m _ => negb (m =? 0)%Z
  | PStr s => negb (length s =? 0)
  | PList l => negb (length l =? 0)
  | PDict d => negb (length d =? 0)
  end.

Definition isinstance_str (v : pyval) : bool :=
  match v with PStr _ => true | _ => false end.
Definition isinstance_list (v : pyval) : bool :=
  match v with PList _ => true | _ => false end.

(** [v.split()], [v.strip()]: only [str] has these attributes. *)
Definition py_split (v : pyval) : res (list str) :=
  match v with
  | PStr s => Ret (split s)
  | _ => Raise AttributeError
  end.
Definition py_strip (v : pyval) : res str :=
  match v with
  | PStr s => Ret (strip s)
  | _ => Raise AttributeError
  end.

End Py.

(* ------------------------------------------------------------------ *)
(** ** [datetime]: construction, [strptime], [isoformat] *)

Module Datetime.
Import Text Re Py.
Local Open Scope Z_scope.

(** A naive [datetime]. *)
Record datetime : Type := mkDatetime {
  year : Z; month : Z; day : Z;
  hour : Z; minute : Z; second : Z; microsecond : Z
}.

Definition is_leap (y : Z) : bool :=
  (y mod 4 =? 0) && (negb (y mod 100 =? 0) || (y mod 400 =? 0)).

Definition days_in_month (y m : Z) : Z :=
  if m =? 2 then (if is_leap y then 29 else 28)
  else if (m =? 4) || (m =? 6) || (m =? 9) || (m =? 11) then 30
  else 31.

Definition within (lo hi x : Z) : bool := (lo <=? x) && (x <=? hi).

Definition valid_datetime (d : datetime) : bool :=
  within 1 9999 (year d) && within 1 12 (month d)
  && within 1 (days_in_month (year d) (month d)) (day d)
  && within 0 23 (hour d) && within 0 59 (minute d)
  && within 0 59 (second d) && within 0 999999 (microsecond d).

(** The constructor [datetime(y, m, d, H, M, S, us)]: out-of-range fields
    are a [ValueError]. *)
Definition new_datetime (y m d H M S us : Z) : res datetime :=
  let dt := mkDatetime y m d H M S us in
  if valid_datetime dt then Ret dt else Raise ValueError.

(** *** [_strptime.TimeRE]: the directives the program's formats use *)

Definition range (lo hi : ascii) : regex := Cls (between (code lo) (code hi)).
Definition D : regex := Cls isdigit.

Definition re_d : regex :=
  Group "d" (Alts [Seq (Chr "3") (range "0" "1"); Seq (range "1" "2") D;
                   Seq (Chr "0") (range "1" "9"); range "1" "9";
                   Seq (Chr " ") (range "1" "9")]).
Definition re_H : regex :=
  Group "H" (Alts [Seq (Chr "2") (range "0" "3"); Seq (range "0" "1") D; D]).
Definition re_M : regex :=
  Group "M" (Alts [Seq (range "0" "5") D; D]).
Definition re_m : regex :=
  Group "m" (Alts [Seq (Chr "1") (range "0" "2");
                   Seq (Chr "0") (range "1" "9"); range "1" "9"]).
Definition re_Y : regex := Group "Y" (Seq D (Seq D (Seq D D))).

(** [LocaleTime.f_month] without its empty first entry (C locale). *)
Definition f_month : list str :=
  map list_ascii_of_string
    ["january"; "february"; "march"; "april"; "may"; "june"; "july";
     "august"; "september"; "october"; "november"; "december"].

(** [seqToRE] sorts the names by decreasing length, stably, so that a name
    is tried before its prefixes. *)
Fixpoint insert_by_length (x : str) (l : list str) : list str :=
  match l with
  | [] => [x]
  | y :: l' =>
      if (length x <? length y)%nat then y :: insert_by_length x l'
      else x :: l
  end.
Definition sorted_by_length (l : list str) : list str :=
  fold_right insert_by_length [] l.

Definition re_B : regex :=
  Group "B" (Alts (map (Lit true) (sorted_by_length f_month))).

Definition directive (d : ascii) : option regex :=
  if char_eqb d "d" then Some re_d
  else if char_eqb d "H" then Some re_H
  else if char_eqb d "M" then Some re_M
  else if char_eqb d "m" then Some re_m
  else if char_eqb d "Y" then Some re_Y
  else if char_eqb d "B" then Some re_B
  else if char_eqb d "%" then Some (Chr "%")
  else None.

(** [TimeRE.pattern]: a run of whitespace in the format stands for one or
    more whitespace characters, a directive for its expression, any other
    character for itself; the whole is compiled with [re.IGNORECASE].
    [None] is a bad or stray directive. *)
Fixpoint pattern (format : str) : option regex :=
  match format with
  | [] => Some Eps
  | c :: format' =>
      if char_eqb c "%" then
        match format' with
        | [] => None
        | d :: format'' =>
            match directive d, pattern format'' with
            | Some r, Some r' => Some (Seq r r')
            | _, _ => None
            end
        end
      else if isspace c then
        match format' with
        | c' :: _ =>
            if isspace c' then pattern format'
            else option_map (Seq (Plus isspace)) (pattern format')
        | [] => Some (Seq (Plus isspace) Eps)
        end
      else option_map (Seq (ChrI c)) (pattern format')
  end.

(** The month number of a name captured by [%B]. *)
Fixpoint index_of (x : str) (l : list str) : option nat :=
  match l with
  | [] => None
  | y :: l' => if str_eqb x y then Some O else option_map S (index_of x l')
  end.
Definition month_of_name (name : str) : Z :=
  match index_of (lower name) f_month with
  | Some i => Z.of_nat i + 1
  | None => 0
  end.

(** The loop of [_strptime] over the groups found, starting from the
    defaults 1900-01-01 00:00. *)
Record found_fields : Type := mkFields {
  f_year : Z; f_mon : Z; f_day : Z; f_hour : Z; f_min : Z
}.
Definition default_fields : found_fields := mkFields 1900 1 1 0 0.

Definition set_field (acc : found_fields) (kv : string * str) : found_fields :=
  let (key, text) := kv in
  let (y, m, d, H, M) := acc in
  if String.eqb key "Y" then mkFields (int_of_digits text) m d H M
  else if String.eqb key "m" then mkFields y (int_of_digits text) d H M
  else if String.eqb key "B" then mkFields y (month_of_name text) d H M
  else if String.eqb key "d" then mkFields y m (int_of_digits text) H M
  else if String.eqb key "H" then mkFields y m d (int_of_digits text) M
  else if String.eqb key "M" then mkFields y m d H (int_of_digits text)
  else acc.

(** [datetime.strptime(data_string, format)]: the whole of [data_string]
    must match; every failure is a [ValueError]. *)
Definition strptime (data_string format : str) : res datetime :=
  match pattern format with
  | None => Raise ValueError
  | Some format_regex =>
      match re_match format_regex data_string with
      | None => Raise ValueError
      | Some found =>
          match rest found with
          | _ :: _ => Raise ValueError
          | [] =>
              let (y, m, d, H, M) :=
                fold_left set_field (rev (captured found)) default_fields in
              new_datetime y m d H M 0 0
          end
      end
  end.

(** *** [datetime.isoformat] *)

Definition digit_char (n : Z) : ascii :=
  ascii_of_nat (48 + Z.to_nat (n mod 10)).
Definition pad2 (n : Z) : str := [digit_char (n / 10); digit_char n].
Definition pad4 (n : Z) : str :=
  [digit_char (n / 1000); digit_char (n / 100)] ++ pad2 n.
Definition pad6 (n : Z) : str :=
  [digit_char (n / 100000); digit_char (n / 10000)] ++ pad4 n.

Definition isoformat (d : datetime) : str :=
  pad4 (year d) ++ "-" ++ pad2 (month d) ++ "-" ++ pad2 (day d) ++ "T"
  ++ pad2 (hour d) ++ ":" ++ pad2 (minute d) ++ ":" ++ pad2 (second d)
  ++ (if microsecond d =? 0 then [] else "." ++ pad6 (microsecond d)).

End Datetime.

(* ------------------------------------------------------------------ *)
(** ** [models.py] *)

Module Models.
Import Text Re Py Datetime.

(** *** What the code does to the world, and what the world answers *)

Inductive warning : Type :=
| CouldNotScrape (tender_number : str) (e : exn)
| CouldNotParsePublishedDate (tender_number pub_date_str : str)
| SkippingTender (e : exn) (item : pyval).

Inductive event : Type :=
| HttpGet (url : str)
| LogWarning (w : warning).

(** A computation: the events it emitted, in order, and how it ended. *)
Definition M (A : Type) : Type := (list event * res A)%type.

Definition ret {A} (a : A) : M A := ([], Ret a).
Definition raise {A} (e : exn) : M A := ([], Raise e).
Definition emit (ev : event) : M unit := ([ev], Ret tt).
Definition lift {A} (r : res A) : M A := ([], r).
Definition bind {A B} (m : M A) (f : A -> M B) : M B :=
  match m with
  | (evs, Ret a) => let (evs', r) := f a in (evs ++ evs', r)
  | (evs, Raise e) => (evs, Raise e)
  end.
(** [try: m  except Exception as e: handler e] *)
Definition try_except {A} (m : M A) (handler : exn -> M A) : M A :=
  match m with
  | (evs, Ret a) => (evs, Ret a)
  | (evs, Raise e) => let (evs', r) := handler e in (evs ++ evs', r)
  end.

Notation "x <- m ;; k" := (bind m (fun x => k))
  (at level 61, m at next level, right associativity).
Notation "m ;;; k" := (bind m (fun _ => k))
  (at level 61, right associativity).

(** What the four [BeautifulSoup] queries of the scraper find in a detail
    page: the text of the [h2] under the page-header [div], of the first
    [h3], of the cell next to the notice label, and of the cell next to the
    create-date header ([None]: not found). *)
Record detail_page : Type := mkPage {
  page_header_h2 : option str;
  first_h3 : option str;
  notice_cell : option str;
  create_date_cell : option str
}.

Record response : Type := mkResponse {
  status_code : Z;
  soup : detail_page
}.

(** The collaborators: [requests.get] (which raises on a network failure)
    and the character-reference table of [html.unescape]. *)
Record externals : Type := mkExternals {
  requests_get : str -> res response;
  replace_charrefs : str -> str
}.

(** [response.raise_for_status()] *)
Definition raise_for_status (r : response) : res unit :=
  if ((400 <=? status_code r) && (status_code r <? 600))%Z
  then Raise HTTPError else Ret tt.

(** [html.unescape]: text without an ampersand is returned as it is. *)
Definition html_unescape (E : externals) (s : str) : str :=
  if negb (contains "&" s) then s else replace_charrefs E s.

Definition is_amp (v : pyval) : bool :=
  match v with PStr s => str_eqb s "&" | _ => false end.

(** [html.unescape] on any value: the membership test fails on values that
    are not containers, the substitution on values that are not text. *)
Definition py_html_unescape (E : externals) (v : pyval) : res pyval :=
  match v with
  | PStr s => Ret (PStr (html_unescape E s))
  | PList l => if existsb is_amp l then Raise TypeError else Ret v
  | PDict d =>
      if existsb (fun kv => str_eqb (fst kv) "&") d then Raise TypeError
      else Ret v
  | _ => Raise TypeError
  end.

Definition py_re_search (r : regex) (v : pyval) : res (option match_object) :=
  match v with
  | PStr s => Ret (re_search r s)
  | _ => Raise TypeError
  end.

(** *** The classes *)

Record SupportingDoc : Type := mkSupportingDoc {
  name : str;
  url : str
}.

Definition pydict : Type := list (str * pyval).

Definition key (k : string) : str := k.

Definition SupportingDoc_to_dict (doc : SupportingDoc) : pydict :=
  [(key "name", PStr (name doc)); (key "url", PStr (url doc))].

Record SanralTender : Type := mkSanralTender {
  title : str;
  description : str;
  source : str;
  published_date : option datetime;
  closing_date : option datetime;
  supporting_docs : list SupportingDoc;
  tags : list str;
  tender_number : str;
  category : str;
  region : str;
  email : str;
  full_notice_text : str
}.

(** [SanralTender.__init__] through [TenderBase.__init__]: a missing list
    becomes the empty list. *)
Definition SanralTender_init (title description source : str)
  (published_date closing_date : option datetime)
  (supporting_docs : option (list SupportingDoc)) (tags : option (list str))
  (tender_number category region email full_notice_text : str)
  : SanralTender :=
  mkSanralTender title description source published_date closing_date
    (match supporting_docs with Some l => l | None => [] end)
    (match tags with Some l => l | None => [] end)
    tender_number category region email full_notice_text.

Definition isoformat_or_none (d : option datetime) : pyval :=
  match d with
  | Some dt => PStr (isoformat dt)
  | None => PNone
  end.

Definition TenderBase_to_dict (t : SanralTender) : pydict :=
  [(key "title", PStr (title t));
   (key "description", PStr (description t));
   (key "source", PStr (source t));
   (key "publishedDate", isoformat_or_none (published_date t));
   (key "closingDate", isoformat_or_none (closing_date t));
   (key "supporting_docs",
     PList (map (fun doc => PDict (SupportingDoc_to_dict doc))
                (supporting_docs t)));
   (key "tags", PList (map PStr (tags t)))].

(** [d[k] = v] and [d.update(other)] on an insertion-ordered dict *)
Fixpoint dict_set (d : pydict) (k : str) (v : pyval) : pydict :=
  match d with
  | [] => [(k, v)]
  | (k', v') :: d' =>
      if str_eqb k' k then (k', v) :: d' else (k', v') :: dict_set d' k v
  end.
Definition dict_update (d other : pydict) : pydict :=
  fold_left (fun acc kv => dict_set acc (fst kv) (snd kv)) other d.

Fixpoint dict_get (d : pydict) (k : str) : option pyval :=
  match d with
  | [] => None
  | (k', v) :: d' => if str_eqb k' k then Some v else dict_get d' k
  end.

Definition to_dict (t : SanralTender) : pydict :=
  dict_update (TenderBase_to_dict t)
    [(key "tenderNumber", PStr (tender_number t));
     (key "category", PStr (category t));
     (key "region", PStr (region t));
     (key "email", PStr (email t));
     (key "fullNoticeText", PStr (full_notice_text t))].

(** *** [parse_sanral_date] *)

Definition formats_to_try : list str :=
  map list_ascii_of_string ["%Y/%m/%d %H:%M"; "%d/%m/%Y"; "%d %B %Y. %HH%M"].

(** The body of the [try] for one format. *)
Definition try_format (cleaned_str fmt : str) : res datetime :=
  if contains "H" fmt
  then strptime (replace "H" "" (replace "." "" cleaned_str)) fmt
  else strptime cleaned_str fmt.

Fixpoint try_formats (cleaned_str : str) (fmts : list str)
  : res (option datetime) :=
  match fmts with
  | [] => Ret None
  | fmt :: fmts' =>
      match try_format cleaned_str fmt with
      | Ret d => Ret (Some d)
      | Raise ValueError | Raise TypeError => try_formats cleaned_str fmts'
      | Raise e => Raise e
      end
  end.

Definition parse_sanral_date (date_str : pyval) : res (option datetime) :=
  if negb (truthy date_str) || negb (isinstance_str date_str) then Ret None
  else match date_str with
       | PStr s => try_formats (strip s) formats_to_try
       | _ => Ret None
       end.

(** *** [SanralTender.from_api_response] *)

Definition portal_origin : str := "https://www.nra.co.za".
Definition not_available : str := "N/A".
Definition space : str := " ".
Definition nonempty (s : str) : bool := negb (length s =? 0).

(** Step 1: the link in the title markup gives the URL and the number. *)
Definition parse_title_link (m : option match_object) : option str * str :=
  match m with
  | Some mt =>
      let url_path := group mt "1" in
      ((if nonempty url_path then Some (portal_origin ++ url_path) else None),
       join space (split (group mt "2")))
  | None => (None, not_available)
  end.

(** The expression that decodes a field and collapses its whitespace:
    the words of the unescaped field joined by single spaces. *)
Definition collapsed (E : externals) (v : pyval) : res str :=
  res_bind (py_html_unescape E v) (fun unescaped =>
  res_bind (py_split unescaped) (fun words =>
  Ret (join space words))).

(** The summary description, cleaned up. *)
Definition initial_description_of (E : externals) (v : pyval) : res str :=
  res_bind (collapsed E v) (fun text =>
  Ret (strip (replace "Tender Notice:" "" text))).

(** The variables the scraper may overwrite. *)
Record scraped : Type := mkScraped {
  s_title : str;
  s_description : str;
  s_full_notice_text : str;
  s_pub_date : option datetime
}.

Definition or_keep (found : option str) (current : str) : str :=
  match found with Some text => text | None => current end.

(** The published date, parsed with its own format; a parse failure is
    logged and leaves the date as it was. *)
Definition scrape_pub_date (tender_number : str) (page : detail_page)
  (pub_date : option datetime) : M (option datetime) :=
  match create_date_cell page with
  | None => ret pub_date
  | Some pub_date_str =>
      match strptime pub_date_str "%B %d, %Y" with
      | Ret d => ret (Some d)
      | Raise ValueError | Raise TypeError =>
          emit (LogWarning
                  (CouldNotParsePublishedDate tender_number pub_date_str)) ;;;
          ret pub_date
      | Raise e => raise e
      end
  end.

(** Step 2, the body of the [try]. *)
Definition scrape_detail_page (E : externals) (url tender_number : str)
  (v : scraped) : M scraped :=
  emit (HttpGet url) ;;;
  detail_page_response <- lift (requests_get E url) ;;
  lift (raise_for_status detail_page_response) ;;;
  let page := soup detail_page_response in
  let title := or_keep (page_header_h2 page) (s_title v) in
  let description := or_keep (first_h3 page) (s_description v) in
  let full_notice_text := or_keep (notice_cell page) (s_full_notice_text v) in
  pub_date <- scrape_pub_date tender_number page (s_pub_date v) ;;
  ret (mkScraped title description full_notice_text pub_date).

(** Step 2 with its handler: a failure is logged, the summary data stay. *)
Definition enrich (E : externals) (url : option str) (tender_number : str)
  (v : scraped) : M scraped :=
  match url with
  | Some u =>
      if nonempty u then
        try_except (scrape_detail_page E u tender_number v)
          (fun e =>
             emit (LogWarning (CouldNotScrape tender_number e)) ;;; ret v)
      else ret v
  | None => ret v
  end.

(** Step 3: the last e-mail address of the notice text, lowered. *)
Definition extract_email (full_notice_text : str) : str :=
  match findall email_re full_notice_text with
  | [] => []
  | e :: es => lower (last es e)
  end.

Definition doc_list_of (url : option str) : list SupportingDoc :=
  match url with
  | Some u => if nonempty u then [mkSupportingDoc "Tender Details" u] else []
  | None => []
  end.

Definition from_api_response (E : externals) (response_item : pyval)
  : M (option SanralTender) :=
  match response_item with
  | PList items =>
      if length items <? 6 then ret None
      else
        let field i := nth i items PNone in
        title_html <- lift (py_html_unescape E (field 0)) ;;
        match_ <- lift (py_re_search href_re title_html) ;;
        let (url, tender_number) := parse_title_link match_ in
        initial_description <- lift (initial_description_of E (field 3)) ;;
        full_notice_text <- lift (collapsed E (field 4)) ;;
        close_date <- lift (parse_sanral_date (field 5)) ;;
        v <- enrich E url tender_number
               (mkScraped tender_number initial_description
                          full_notice_text None) ;;
        let email := extract_email (s_full_notice_text v) in
        let doc_list := doc_list_of url in
        category <- lift (py_strip (field 1)) ;;
        region <- lift (py_strip (field 2)) ;;
        ret (Some (SanralTender_init
                     (Text.title (s_title v))
                     (Text.title (s_description v))
                     "SANRAL"
                     (s_pub_date v)
                     close_date
                     (Some doc_list)
                     (Some [])
                     (upper tender_number)
                     (Text.title category)
                     (Text.title region)
                     email
                     (Text.title (s_full_notice_text v))))
  | _ => ret None
  end.

End Models.

(* ------------------------------------------------------------------ *)
(** ** [lambda_function.py]: the loop over the fetched rows *)

Module LambdaFunction.
Import Py Models.

(** One turn of the loop: a tender is appended, a rejected row or a row
    that raised is counted as skipped, and the loop goes on. *)
Definition process_item (E : externals)
  (state : list event * (list SanralTender * nat)) (item : pyval)
  : list event * (list SanralTender * nat) :=
  let '(log, (processed_tenders, skipped_count)) := state in
  match from_api_response E item with
  | (evs, Ret (Some tender_object)) =>
      (log ++ evs, (processed_tenders ++ [tender_object], skipped_count))
  | (evs, Ret None) =>
      (log ++ evs, (processed_tenders, S skipped_count))
  | (evs, Raise e) =>
      (log ++ evs ++ [LogWarning (SkippingTender e item)],
       (processed_tenders, S skipped_count))
  end.

Definition process_items (E : externals) (all_tenders : list pyval)
  : list event * (list SanralTender * nat) :=
  fold_left (process_item E) all_tenders ([], ([], 0)).

End LambdaFunction.

(* ------------------------------------------------------------------ *)
(** ** Predicates the properties are stated with *)

Module Spec.
Import Text Re Py Datetime Models LambdaFunction.

Definition lower_cased (s : str) : bool := forallb (fun c => negb (isupper c)) s.


(** Where the whitespace of a text is decides whether it is trimmed: no
    whitespace at either end. *)
Definition clean_head (bs : list bool) : Prop :=
  match bs with
  | true :: _ => False
  | _ => True
  end.

Definition trimmed_mask (bs : list bool) : Prop :=
  clean_head bs /\ clean_head (rev bs).

(** A word: non-empty and free of whitespace. *)
Definition word (w : str) : Prop :=
  w <> [] /\ forallb (fun c => negb (isspace c)) w = true.

(** What a pattern denotes: the texts it matches and, on top of the groups
    [g] captured before, the groups captured on the way (latest first). *)
Inductive matches : regex -> str -> groups -> groups -> Prop :=
| MEps g : matches Eps [] g g
| MCls p c g : p c = true -> matches (Cls p) [c] g g
| MSeq r1 r2 s1 s2 g g1 g2 :
    matches r1 s1 g g1 -> matches r2 s2 g1 g2 ->
    matches (Seq r1 r2) (s1 ++ s2) g g2
| MAltL r1 r2 s g g' : matches r1 s g g' -> matches (Alt r1 r2) s g g'
| MAltR r1 r2 s g g' : matches r2 s g g' -> matches (Alt r1 r2) s g g'
| MStar greedy p s g : forallb p s = true -> matches (Star greedy p) s g g
| MGroup name r s g g' :
    matches r s g g' -> matches (Group name r) s g ((name, s) :: g').

(** [m] occurs in [s] as a text the pattern matches. *)
Definition occurs (r : regex) (m s : str) : Prop :=
  exists before after g, s = before ++ m ++ after /\ matches r m [] g.

(** The pattern takes at least one character. *)
Definition never_empty (r : regex) : Prop :=
  forall s mo, re_match r s = Some mo -> matched mo <> [].

(** The shape the e-mail pattern describes: one or more characters of the
    local class, an at sign, one or more characters of the domain class, a
    dot and two or more letters. *)
Definition email_shaped (e : str) : Prop :=
  exists local domain tld,
    e = local ++ "@" ++ domain ++ "." ++ tld
    /\ local <> [] /\ forallb local_char local = true
    /\ domain <> [] /\ forallb domain_char domain = true
    /\ 2 <= length tld /\ forallb isalpha tld = true.


(** Text of code points below 128. *)
Definition ascii_text (s : str) : bool := forallb (fun c => code c <? 128) s.

(** [old] occurs in [s]; and [s] without the occurrences of [old], found
    from left to right, each search starting where the occurrence before
    it ended. *)
Definition occurs_in (old s : str) : Prop := exists a b, s = a ++ old ++ b.
Inductive cut_out (old : str) : str -> str -> Prop :=
| cut_none s : ~ occurs_in old s -> cut_out old s s
| cut_first a b r :
    (forall a' b', a ++ old ++ b = a' ++ old ++ b' -> length a <= length a') ->
    cut_out old b r ->
    cut_out old (a ++ old ++ b) (a ++ r).

(** What follows a text does not begin with a letter. *)
Definition no_letter_next (after : str) : Prop :=
  match after with
  | c :: _ => isalpha c = false
  | [] => True
  end.

(** A well-shaped row: six text fields, and whatever follows them. *)
Definition row (f0 f1 f2 f3 f4 f5 : str) (more : list pyval) : pyval :=
  PList (PStr f0 :: PStr f1 :: PStr f2 :: PStr f3 :: PStr f4 :: PStr f5
         :: more).

(** The hyperlink the code finds in the title field, if any. *)
Definition link_of (E : externals) (f0 : str) : option match_object :=
  re_search href_re (html_unescape E f0).

(** A field decoded and with its whitespace collapsed. *)
Definition collapsed_text (E : externals) (f : str) : str :=
  join space (split (html_unescape E f)).

(** Where the final notice text of a row comes from: the fifth field,
    decoded and collapsed, or the notice cell of the detail page when the
    page was served and has one. *)
Definition notice_text_source (E : externals) (response_item : pyval)
  (text : str) : Prop :=
  (exists items f4, response_item = PList items
                    /\ nth 4 items PNone = PStr f4
                    /\ text = collapsed_text E f4)
  \/ (exists items f0 m resp,
         response_item = PList items
         /\ nth 0 items PNone = PStr f0
         /\ link_of E f0 = Some m
         /\ requests_get E (portal_origin ++ group m "1") = Ret resp
         /\ raise_for_status resp = Ret tt
         /\ notice_cell (soup resp) = Some text).

(** The detail page cannot be had: [requests.get] raises, or the status
    makes [raise_for_status] raise. *)
Definition fetch_fails (E : externals) (u : str) : Prop :=
  (exists e, requests_get E u = Raise e)
  \/ (exists resp e, requests_get E u = Ret resp
                     /\ raise_for_status resp = Raise e).

(** A date and time written in the first format of [formats_to_try], and a
    date written in the second, both with zero-padded fields. *)
Definition numeric_date_time (d : datetime) : str :=
  pad4 (year d) ++ "/" ++ pad2 (month d) ++ "/" ++ pad2 (day d) ++ " "
  ++ pad2 (hour d) ++ ":" ++ pad2 (minute d).
Definition numeric_date (d : datetime) : str :=
  pad2 (day d) ++ "/" ++ pad2 (month d) ++ "/" ++ pad4 (year d).

(** What [TimeRE.pattern] makes of these two formats. *)
Definition numeric_date_time_re : regex :=
  Seq re_Y (Seq (ChrI "/") (Seq re_m (Seq (ChrI "/") (Seq re_d
  (Seq (Plus isspace) (Seq re_H (Seq (ChrI ":") (Seq re_M Eps)))))))).
Definition numeric_date_re : regex :=
  Seq re_d (Seq (ChrI "/") (Seq re_m (Seq (ChrI "/") (Seq re_Y Eps)))).

(** The third of [formats_to_try]. *)
Definition verbose_format : str := "%d %B %Y. %HH%M".

(** The summary description as a reading of it by prefix would have it:
    the collapsed text without a leading literal, trimmed. *)
Definition strip_prefix (p s : str) : str :=
  if startswith p s then skipn (length p) s else s.
Definition description_by_prefix (E : externals) (f3 : str) : str :=
  strip (strip_prefix "Tender Notice:" (collapsed_text E f3)).

(** The shape of an ISO-8601 date and time: four digits, two and two
    separated by dashes, a T, three pairs of digits separated by colons,
    and possibly a dot and six digits. *)
Definition iso_8601 (s : str) : bool :=
  match s with
  | y1 :: y2 :: y3 :: y4 :: a :: m1 :: m2 :: b :: d1 :: d2 :: t
    :: h1 :: h2 :: c :: n1 :: n2 :: e :: s1 :: s2 :: fraction =>
      forallb isdigit [y1; y2; y3; y4; m1; m2; d1; d2; h1; h2; n1; n2; s1; s2]
      && str_eqb [a; b; t; c; e] "--T::"
      && match fraction with
         | [] => true
         | p :: us =>
             char_eqb p "." && (length us =? 6) && forallb isdigit us
         end
  | _ => false
  end.

(** Collaborators for the examples, in the manner of the unit tests'
    mocks: the network is down, or the portal answers 404.  They leave
    character references as they are; the example rows have none. *)
Definition offline : externals :=
  mkExternals (fun _ => Raise RequestException) (fun s => s).
Definition page_missing : externals :=
  mkExternals (fun _ => Ret (mkResponse 404 (mkPage None None None None)))
              (fun s => s).

(** The detail page of the unit tests, and a portal that serves it. *)
Definition sample_page : detail_page :=
  mkPage (Some (list_ascii_of_string "Road Upgrade Tender"))
         (Some (list_ascii_of_string "Upgrade of N2 Section"))
         (Some (list_ascii_of_string
            "Full tender details including contact info: info@sanral.co.za"))
         (Some (list_ascii_of_string "October 10, 2025")).
Definition serving (p : detail_page) : externals :=
  mkExternals (fun _ => Ret (mkResponse 200 p)) (fun s => s).

(** The row of the unit tests. *)
Definition sample_title : str :=
  "<a href=" ++ [quote] ++ "/tender/123" ++ [quote] ++ ">RFP123/2025</a>".
Definition sample_row : pyval :=
  row sample_title "Construction" "KwaZulu-Natal"
      "Tender Notice: Upgrade of N2" "Full text info@sanral.co.za"
      "2025/12/31 14:00" [].

(** A row whose category is [None]. *)
Definition row_without_category : pyval :=
  PList [PStr "RFP9/2025"; PNone; PStr "Western Cape"; PStr "Resurfacing";
         PStr "Full text"; PStr "2025/12/31 14:00"].

End Spec.

(* ------------------------------------------------------------------ *)
(** ** [lambda_function.py]: the handler around the loop *)

From Stdlib Require Import DecimalString DecimalNat.

Module Handler.
Import Text Re Py Datetime Models LambdaFunction.

Definition SANRAL_API_URL : str :=
  "https://www.nra.co.za/sanral-tenders/list/open-tenders?pageSize=100&pageIndex=1&order_by=0&order=asc&init=0".
Definition SQS_QUEUE_URL : str :=
  "https://sqs.us-east-1.amazonaws.com/211635102441/AIQueue.fifo".
Definition batch_size : nat := 10.

(** An entry of [send_message_batch]. *)
Record entry : Type := mkEntry {
  Id : str;
  MessageBody : str;
  MessageGroupId : str
}.

(** What [response.json()] gives: the decoded value, or a decoding error,
    which is or is not a [RequestException] depending on who raises it
    ([requests] itself, or the [json] module). *)
Inductive json_outcome : Type :=
| Decoded (v : pyval)
| NotJson (is_request_exception : bool).

Record feed_response : Type := mkFeedResponse {
  feed_status : Z;
  feed_json : json_outcome
}.

(** The collaborators of the handler: the request to the listing API,
    [json.dumps], and the queue client. *)
Record services : Type := mkServices {
  api_get : res feed_response;
  json_dumps : pyval -> str;
  send_message_batch : list entry -> res pydict
}.

Inductive info : Type :=
| Starting
| Fetching (url : str)
| Fetched (count : nat) (total_filtered : pyval)
| Processed (count : nat)
| BatchSent (count : nat)
| Complete (sent_count : nat).

Inductive trouble : Type :=
| FewerThanTotal
| Skipped (skipped_count : nat)
| FetchFailed
| InvalidJson
| SomeFailed (failed : pyval)
| SendFailed (e : exn).

(** What the handler does to the world: what the model class and the loop
    did for the rows, the request to the listing API, the sends to the
    queue, and the log. *)
Inductive hevent : Type :=
| Item (ev : event)
| FeedGet (url : str)
| SqsSend (queue_url : str) (entries : list entry)
| LogInfo (m : info)
| LogTrouble (m : trouble).

Record reply : Type := mkReply {
  statusCode : Z;
  body : str
}.

(** [except requests.exceptions.RequestException] *)
Definition is_request_exception (e : exn) : bool :=
  match e with
  | RequestException | HTTPError => true
  | _ => false
  end.

Definition feed_status_error (r : feed_response) : bool :=
  ((400 <=? feed_status r) && (feed_status r <? 600))%Z.

(** [v.get(k, default)]: only a dict has the method. *)
Definition py_get (v : pyval) (k : str) (default : pyval) : res pyval :=
  match v with
  | PDict d =>
      Ret (match dict_get d k with Some x => x | None => default end)
  | _ => Raise AttributeError
  end.

(** [len(v)] *)
Definition py_len (v : pyval) : res nat :=
  match v with
  | PStr s => Ret (length s)
  | PList l => Ret (length l)
  | PDict d => Ret (length d)
  | _ => Raise TypeError
  end.

(** [n < v] for an int [n]: numbers compare (a float is its mantissa times
    two to its exponent), anything else is a [TypeError]. *)
Definition py_int_lt (n : nat) (v : pyval) : res bool :=
  match v with
  | PInt z => Ret (Z.of_nat n <? z)%Z
  | PBool b => Ret (Z.of_nat n <? (if b then 1 else 0))%Z
  | PFloat m e =>
      Ret (if (0 <=? e)%Z then (Z.of_nat n <? m * 2 ^ e)%Z
           else (Z.of_nat n * 2 ^ (- e) <? m)%Z)
  | _ => Raise TypeError
  end.

(** [for item in v]: the elements of a list, the characters of a string,
    the keys of a dict. *)
Definition py_iter (v : pyval) : res (list pyval) :=
  match v with
  | PList l => Ret l
  | PStr s => Ret (map (fun c => PStr [c]) s)
  | PDict d => Ret (map (fun kv => PStr (fst kv)) d)
  | _ => Raise TypeError
  end.

(** [str(n)] in an f-string *)
Definition str_of_nat (n : nat) : str :=
  list_ascii_of_string (NilEmpty.string_of_uint (Nat.to_uint n)).

(** [range(start, stop, step)] for a positive step, [l[i:j]], and
    [enumerate(l)] *)
Definition py_range (start stop step : nat) : list nat :=
  map (fun k => start + k * step)
      (seq 0 ((stop - start + step - 1) / step)).
Definition slice {X} (l : list X) (i j : nat) : list X :=
  firstn (j - i) (skipn i l).
Definition enumerate {X} (l : list X) : list (nat * X) :=
  combine (seq 0 (length l)) l.

(** Step 4: the batches, and the entries of one batch. *)
Definition message_batches {X} (processed_tender_dicts : list X)
  : list (list X) :=
  map (fun i => slice processed_tender_dicts i (i + batch_size))
      (py_range 0 (length processed_tender_dicts) batch_size).

Definition message_id (batch_index i : nat) : str :=
  "tender_message_" ++ str_of_nat batch_index ++ "_" ++ str_of_nat i.

Definition entries_of (S : services) (batch_index : nat)
  (batch : list pydict) : list entry :=
  map (fun it =>
         mkEntry (message_id batch_index (fst it))
                 (json_dumps S (PDict (snd it)))
                 "SanralTenderScrape")
      (enumerate batch).

(** One turn of the sending loop: an empty batch is passed over; a send
    that raises, or an answer whose successes cannot be counted, is logged
    and leaves the count as it is. *)
Definition send_batch (S : services) (state : list hevent * nat)
  (indexed : nat * list pydict) : list hevent * nat :=
  let (log, sent_count) := state in
  let entries := entries_of S (fst indexed) (snd indexed) in
  match entries with
  | [] => (log, sent_count)
  | _ :: _ =>
      match send_message_batch S entries with
      | Raise e =>
          (log ++ [SqsSend SQS_QUEUE_URL entries; LogTrouble (SendFailed e)],
           sent_count)
      | Ret response =>
          let successful :=
            match dict_get response "Successful" with
            | Some x => x
            | None => PList []
            end in
          match py_len successful with
          | Raise e =>
              (log ++ [SqsSend SQS_QUEUE_URL entries;
                       LogTrouble (SendFailed e)],
               sent_count)
          | Ret n =>
              (log ++ [SqsSend SQS_QUEUE_URL entries;
                       LogInfo (BatchSent (length entries))]
                   ++ match dict_get response "Failed" with
                      | Some failed =>
                          if truthy failed
                          then [LogTrouble (SomeFailed failed)] else []
                      | None => []
                      end,
               sent_count + n)
          end
      end
  end.

Definition send_all (S : services) (processed_tender_dicts : list pydict)
  : list hevent * nat :=
  fold_left (send_batch S) (enumerate (message_batches processed_tender_dicts))
            ([], 0).

(** Step 1, the body of the [try] and its two handlers: the rows to go on
    with, or the reply to return at once. *)
Inductive fetched : Type :=
| Rows (all_tenders : pyval)
| Return (r : reply).

Definition bad_gateway (S : services) (message : str) : reply :=
  mkReply 502 (json_dumps S (PDict [(key "error", PStr message)])).

Definition fetch_failed (S : services) (log : list hevent)
  : list hevent * res fetched :=
  (log ++ [LogTrouble FetchFailed],
   Ret (Return (bad_gateway S "Failed to fetch data from source API"))).

Definition fetch_rows (S : services) : list hevent * res fetched :=
  let log := [LogInfo Starting; LogInfo (Fetching SANRAL_API_URL);
              FeedGet SANRAL_API_URL] in
  match api_get S with
  | Raise e =>
      if is_request_exception e then fetch_failed S log else (log, Raise e)
  | Ret response =>
      if feed_status_error response then fetch_failed S log
      else
        match feed_json response with
        | NotJson true => fetch_failed S log
        | NotJson false =>
            (log ++ [LogTrouble InvalidJson],
             Ret (Return (bad_gateway S
                            "Invalid JSON response from source API")))
        | Decoded api_response_dict =>
            match py_get api_response_dict "tenders" (PList []) with
            | Raise e => (log, Raise e)
            | Ret all_tenders =>
                match py_get api_response_dict "total_filtered" (PInt 0) with
                | Raise e => (log, Raise e)
                | Ret total_filtered =>
                    match py_len all_tenders with
                    | Raise e => (log, Raise e)
                    | Ret count =>
                        let log' :=
                          log ++ [LogInfo (Fetched count total_filtered)] in
                        match py_int_lt count total_filtered with
                        | Raise e => (log', Raise e)
                        | Ret true =>
                            (log' ++ [LogTrouble FewerThanTotal],
                             Ret (Rows all_tenders))
                        | Ret false => (log', Ret (Rows all_tenders))
                        end
                    end
                end
            end
        end
  end.

(** [lambda_handler(event, context)] *)
Definition lambda_handler (E : externals) (S : services)
  : list hevent * res reply :=
  match fetch_rows S with
  | (log, Raise e) => (log, Raise e)
  | (log, Ret (Return r)) => (log, Ret r)
  | (log, Ret (Rows all_tenders)) =>
      match py_iter all_tenders with
      | Raise e => (log, Raise e)
      | Ret items =>
          let '(item_events, (processed_tenders, skipped_count)) :=
            process_items E items in
          let processed_tender_dicts := map to_dict processed_tenders in
          let (send_events, sent_count) := send_all S processed_tender_dicts in
          (log ++ map Item item_events
               ++ [LogInfo (Processed (length processed_tenders))]
               ++ (if 0 <? skipped_count
                   then [LogTrouble (Skipped skipped_count)] else [])
               ++ send_events
               ++ [LogInfo (Complete sent_count)],
           Ret (mkReply 200
                  (json_dumps S
                     (PDict [(key "message",
                              PStr "Tender data processed and sent to SQS queue.")]))))
      end
  end.

End Handler.

(* ------------------------------------------------------------------ *)
(** ** Predicates for the properties of the handler and of the scraper *)

Module Spec2.
Import Text Re Py Datetime Models LambdaFunction Spec Handler.

(** All the entries a run builds for the queue, batch after batch. *)
Definition all_entries (S : services) (processed_tender_dicts : list pydict)
  : list entry :=
  flat_map (fun ib => entries_of S (fst ib) (snd ib))
           (enumerate (message_batches processed_tender_dicts)).

(** The batches of entries a log shows as sent to the queue, in order. *)
Fixpoint sends (log : list hevent) : list (list entry) :=
  match log with
  | [] => []
  | SqsSend _ entries :: log' => entries :: sends log'
  | _ :: log' => sends log'
  end.

(** What the model class did for the rows, as a log of the handler shows
    it. *)
Fixpoint item_events (log : list hevent) : list event :=
  match log with
  | [] => []
  | Item ev :: log' => ev :: item_events log'
  | _ :: log' => item_events log'
  end.

(** The queue accepts whatever it is offered. *)
Definition accepts_all (S : services) : Prop :=
  forall entries,
  exists response successful,
    send_message_batch S entries = Ret response
    /\ dict_get response "Successful" = Some (PList successful)
    /\ length successful = length entries.

(** The tender a row gives, if it gives one. *)
Definition tender_of (E : externals) (item : pyval) : list SanralTender :=
  match snd (from_api_response E item) with
  | Ret (Some t) => [t]
  | _ => []
  end.

(** The listing cannot be had: the request raises a [RequestException],
    the status is an error, or the body is not JSON. *)
Definition feed_unavailable (S : services) : Prop :=
  (exists e, api_get S = Raise e /\ is_request_exception e = true)
  \/ (exists r, api_get S = Ret r
                /\ (feed_status_error r = true
                    \/ exists b, feed_json r = NotJson b)).

(** A number, as far as [<] with an int is concerned. *)
Definition is_number (v : pyval) : bool :=
  match v with
  | PInt _ | PBool _ | PFloat _ _ => true
  | _ => false
  end.

(** The listing decodes to an object [d] whose tenders, if any, are the
    list [rows] and whose total, if any, is a number. *)
Definition feed_gives (S : services) (d : pydict) (rows : list pyval) : Prop :=
  exists r,
    api_get S = Ret r /\ feed_status_error r = false
    /\ feed_json r = Decoded (PDict d)
    /\ match dict_get d "tenders" with
       | Some v => v = PList rows
       | None => rows = []
       end
    /\ match dict_get d "total_filtered" with
       | Some v => is_number v = true
       | None => True
       end.

(** The names of the groups of a pattern. *)
Fixpoint group_names (r : regex) : list string :=
  match r with
  | Seq r1 r2 | Alt r1 r2 => group_names r1 ++ group_names r2
  | Group name r => name :: group_names r
  | _ => []
  end.

(** The dates of a tender are calendar dates, as every [datetime] object
    is. *)
Definition valid_or_absent (d : option datetime) : Prop :=
  match d with
  | Some dt => valid_datetime dt = true
  | None => True
  end.
Definition dates_valid (t : SanralTender) : Prop :=
  valid_or_absent (published_date t) /\ valid_or_absent (closing_date t).

(** A date written the way the detail page writes its create date, as in
    October 10, 2025. *)
Definition month_names : list str :=
  map list_ascii_of_string
    ["January"; "February"; "March"; "April"; "May"; "June"; "July";
     "August"; "September"; "October"; "November"; "December"].
Definition long_date (d : datetime) : str :=
  nth (Z.to_nat (month d) - 1) month_names [] ++ " " ++ pad2 (day d)
  ++ ", " ++ pad4 (year d).
Definition long_date_re : regex :=
  Seq re_B (Seq (Plus isspace) (Seq re_d (Seq (ChrI ",")
  (Seq (Plus isspace) (Seq re_Y Eps))))).

(** Two texts that differ in case only, and a pattern that cannot tell
    them apart. *)
Definition same_letter (a b : ascii) : Prop := to_lower a = to_lower b.
Definition case_variant (s s' : str) : Prop := Forall2 same_letter s s'.
Definition case_blind_class (p : ascii -> bool) : Prop :=
  forall a b, same_letter a b -> p a = p b.
Fixpoint case_blind (r : regex) : Prop :=
  match r with
  | Eps => True
  | Cls p => case_blind_class p
  | Seq r1 r2 | Alt r1 r2 => case_blind r1 /\ case_blind r2
  | Star _ p => case_blind_class p
  | Group _ r1 => case_blind r1
  end.

(** Two outcomes of a matcher that agree up to a relation on results. *)
Definition agree {X Y} (Q : X -> Y -> Prop) (o : option X) (o' : option Y)
  : Prop :=
  match o, o' with
  | Some x, Some y => Q x y
  | None, None => True
  | _, _ => False
  end.

(** The queue is down: every send raises. *)
Definition queue_down (S : services) : Prop :=
  forall entries, exists e, send_message_batch S entries = Raise e.

(** Collaborators for the examples: a serialiser that only says what kind
    of value it was given, a queue that accepts everything and one that
    refuses every connection, and three listings. *)
Definition dumps_kind (v : pyval) : str :=
  match v with
  | PDict _ => "{...}"
  | PList _ => "[...]"
  | _ => "..."
  end.
Definition accept (entries : list entry) : res pydict :=
  Ret [(key "Successful", PList (map (fun e => PStr (Id e)) entries))].
Definition refuse (entries : list entry) : res pydict :=
  Raise RequestException.
Definition sample_feed : pydict :=
  [(key "tenders", PList [sample_row; row_without_category; sample_row]);
   (key "total_filtered", PInt 3)].
Definition listing (status : Z) (body : json_outcome)
  (send : list entry -> res pydict) : services :=
  mkServices (Ret (mkFeedResponse status body)) dumps_kind send.

End Spec2.
(* ================================================================== *)
(** * Properties *)

Import Text Re Py Datetime Models LambdaFunction Spec.

Ltac by_char_cases c :=
  destruct c as [[] [] [] [] [] [] [] []]; vm_compute; reflexivity.

(* ------------------------------------------------------------------ *)
(** ** Characters *)

Lemma iscased_to_upper (c : ascii) : iscased (to_upper c) = iscased c.
Proof. by_char_cases c. Qed.

Lemma iscased_to_lower (c : ascii) : iscased (to_lower c) = iscased c.
Proof. by_char_cases c. Qed.

(** A capital made by [to_upper] is no small letter; the letters that
    [to_upper] leaves small are above 127. *)
Lemma islower_to_upper (c : ascii) :
  (code (to_upper c) <? 128) = true -> islower (to_upper c) = false.
Proof.
  destruct c as [[] [] [] [] [] [] [] []]; vm_compute;
    intros H; (reflexivity || discriminate H).
Qed.

Lemma isupper_to_lower (c : ascii) : isupper (to_lower c) = false.
Proof. by_char_cases c. Qed.

Lemma isspace_to_upper (c : ascii) : isspace (to_upper c) = isspace c.
Proof. by_char_cases c. Qed.

Lemma isspace_to_lower (c : ascii) : isspace (to_lower c) = isspace c.
Proof. by_char_cases c. Qed.

Lemma to_lower_idem (c : ascii) : to_lower (to_lower c) = to_lower c.
Proof. by_char_cases c. Qed.

Lemma local_char_to_lower (c : ascii) : local_char (to_lower c) = local_char c.
Proof. by_char_cases c. Qed.

Lemma domain_char_to_lower (c : ascii) :
  domain_char (to_lower c) = domain_char c.
Proof. by_char_cases c. Qed.

Lemma isalpha_to_lower (c : ascii) : isalpha (to_lower c) = isalpha c.
Proof. by_char_cases c. Qed.

Lemma char_eqb_eq (a b : ascii) : char_eqb a b = true <-> a = b.
Proof. apply Ascii.eqb_eq. Qed.

Lemma char_eqb_refl (a : ascii) : char_eqb a a = true.
Proof. apply Ascii.eqb_refl. Qed.

Lemma str_eqb_eq (a b : str) : str_eqb a b = true <-> a = b.
Proof.
  revert b; induction a as [|x a IH]; intros [|y b]; simpl;
    try (split; [discriminate | discriminate]); try tauto.
  rewrite andb_true_iff, char_eqb_eq, IH.
  split; [intros [-> ->]; reflexivity | intros H; inversion H; auto].
Qed.

(* ------------------------------------------------------------------ *)
(** ** Casing *)




Lemma lower_is_lower_cased (s : str) : lower_cased (lower s) = true.
Proof.
  induction s as [|c s IH]; simpl; [reflexivity|].
  now rewrite isupper_to_lower, IH.
Qed.




(* ------------------------------------------------------------------ *)
(** ** Trimming *)

Lemma lstrip_fixed_iff (s : str) :
  lstrip s = s <-> clean_head (map isspace s).
Proof.
  destruct s as [|c s]; simpl; [tauto|].
  destruct (isspace c) eqn:Hc; [|tauto].
  split; [|tauto]. intros H.
  assert (Hlen : forall t, length (lstrip t) <= length t).
  { induction t as [|x t IHt]; simpl; [lia|]. destruct (isspace x); simpl; lia. }
  specialize (Hlen s). rewrite H in Hlen. simpl in Hlen. lia.
Qed.

Lemma lstrip_clean (s : str) : clean_head (map isspace (lstrip s)).
Proof.
  induction s as [|c s IH]; simpl; [exact I|].
  destruct (isspace c) eqn:Hc; [exact IH|]. simpl. now rewrite Hc.
Qed.

Lemma lstrip_suffix (s : str) :
  exists sp, s = sp ++ lstrip s /\ forallb isspace sp = true.
Proof.
  induction s as [|c s [sp [IH1 IH2]]]; simpl.
  - exists []. split; reflexivity.
  - destruct (isspace c) eqn:Hc.
    + exists (c :: sp). simpl. rewrite Hc, IH2. split; [congruence | reflexivity].
    + exists []. split; reflexivity.
Qed.

Lemma strip_fixed_of_mask (s : str) :
  trimmed_mask (map isspace s) -> strip s = s.
Proof.
  intros [H1 H2]. unfold strip, rstrip.
  apply lstrip_fixed_iff in H1. rewrite H1.
  rewrite <- map_rev in H2. apply lstrip_fixed_iff in H2. rewrite H2.
  apply rev_involutive.
Qed.

Lemma clean_head_app_nonempty (bs cs : list bool) :
  bs <> [] -> clean_head (bs ++ cs) -> clean_head bs.
Proof. destruct bs as [|[] bs]; simpl; tauto. Qed.

Lemma strip_mask (s : str) : trimmed_mask (map isspace (strip s)).
Proof.
  unfold strip, rstrip. split.
  - destruct (lstrip_suffix (rev (lstrip s))) as [sp [Heq Hsp]].
    set (t := lstrip (rev (lstrip s))) in *.
    assert (Hl : lstrip s = rev t ++ rev sp).
    { rewrite <- rev_app_distr, <- Heq, rev_involutive. reflexivity. }
    destruct (rev t) as [|x r] eqn:Hr; [exact I|].
    apply clean_head_app_nonempty with (cs := map isspace (rev sp)).
    + simpl. discriminate.
    + rewrite <- map_app, <- Hl. apply lstrip_clean.
  - rewrite <- map_rev, rev_involutive. apply lstrip_clean.
Qed.

Lemma strip_idempotent (s : str) : strip (strip s) = strip s.
Proof. apply strip_fixed_of_mask, strip_mask. Qed.








(* ------------------------------------------------------------------ *)
(** ** The matcher against what a pattern denotes *)

Lemma firstn_matched (s1 s2 : str) :
  firstn (length (s1 ++ s2) - length s2) (s1 ++ s2) = s1.
Proof.
  rewrite length_app, Nat.add_sub.
  induction s1 as [|c s1 IH]; simpl; [reflexivity | now rewrite IH].
Qed.

Section Soundness.
Context {A : Type}.

Lemma star_greedy_sound (p : ascii -> bool) (s : str) (k : str -> option A)
  (x : A) :
  star_greedy p s k = Some x ->
  exists s1 s2, s = s1 ++ s2 /\ forallb p s1 = true /\ k s2 = Some x.
Proof.
  induction s as [|c s IH]; simpl; intros H.
  - exists [], []. auto.
  - destruct (p c) eqn:Hc.
    + destruct (star_greedy p s k) as [y|] eqn:Hs.
      * inversion H; subst y.
        destruct (IH eq_refl) as [s1 [s2 [-> [H1 H2]]]].
        exists (c :: s1), s2. simpl. rewrite Hc, H1. auto.
      * exists [], (c :: s). auto.
    + exists [], (c :: s). auto.
Qed.

Lemma star_lazy_sound (p : ascii -> bool) (s : str) (k : str -> option A)
  (x : A) :
  star_lazy p s k = Some x ->
  exists s1 s2, s = s1 ++ s2 /\ forallb p s1 = true /\ k s2 = Some x.
Proof.
  induction s as [|c s IH]; simpl; intros H.
  - destruct (k []) eqn:Hk; [|discriminate]. exists [], []. rewrite Hk. auto.
  - destruct (k (c :: s)) eqn:Hk.
    + exists [], (c :: s). rewrite Hk. auto.
    + destruct (p c) eqn:Hc; [|discriminate].
      destruct (IH H) as [s1 [s2 [-> [H1 H2]]]].
      exists (c :: s1), s2. simpl. rewrite Hc, H1. auto.
Qed.

Lemma rmatch_sound (r : regex) :
  forall (s : str) (g : groups) (k : str -> groups -> option A) (x : A),
    rmatch r s g k = Some x ->
    exists s1 s2 g', s = s1 ++ s2 /\ matches r s1 g g' /\ k s2 g' = Some x.
Proof.
  induction r as [|p|r1 IH1 r2 IH2|r1 IH1 r2 IH2|greedy p|name r IH];
    intros s g k x H; simpl in H.
  - exists [], s, g. split; [reflexivity|]. split; [constructor | exact H].
  - destruct s as [|c s]; [discriminate|].
    destruct (p c) eqn:Hc; [|discriminate].
    exists [c], s, g. split; [reflexivity|]. split; [now constructor | exact H].
  - apply IH1 in H. destruct H as [s1 [s2 [g1 [-> [M1 H]]]]].
    apply IH2 in H. destruct H as [s3 [s4 [g2 [-> [M2 H]]]]].
    exists (s1 ++ s3), s4, g2. rewrite app_assoc.
    split; [reflexivity|]. split; [econstructor; eassumption | exact H].
  - destruct (rmatch r1 s g k) as [y|] eqn:H1.
    + inversion H; subst y. apply IH1 in H1.
      destruct H1 as [s1 [s2 [g1 [-> [M1 H1]]]]].
      exists s1, s2, g1. split; [reflexivity|]. split; [now apply MAltL | exact H1].
    + apply IH2 in H. destruct H as [s1 [s2 [g1 [-> [M1 H]]]]].
      exists s1, s2, g1. split; [reflexivity|]. split; [now apply MAltR | exact H].
  - assert (Hs : exists s1 s2,
               s = s1 ++ s2 /\ forallb p s1 = true /\ k s2 g = Some x).
    { destruct greedy;
        [apply star_greedy_sound in H | apply star_lazy_sound in H]; exact H. }
    destruct Hs as [s1 [s2 [-> [H1 H2]]]].
    exists s1, s2, g. split; [reflexivity|]. split; [now constructor | exact H2].
  - apply IH in H. destruct H as [s1 [s2 [g1 [-> [M1 H]]]]].
    rewrite firstn_matched in H.
    exists s1, s2, ((name, s1) :: g1).
    split; [reflexivity|]. split; [now constructor | exact H].
Qed.

Lemma star_greedy_next (p : ascii -> bool) (s : str) (k : str -> option A) :
  k s <> None -> star_greedy p s k <> None.
Proof.
  intros Hk. destruct s as [|c s]; simpl; [exact Hk|].
  destruct (p c); [|exact Hk].
  destruct (star_greedy p s k); [discriminate | exact Hk].
Qed.

Lemma star_lazy_next (p : ascii -> bool) (s : str) (k : str -> option A) :
  k s <> None -> star_lazy p s k <> None.
Proof.
  intros Hk. destruct s as [|c s]; simpl;
    destruct (k _); try discriminate; now elim Hk.
Qed.

Lemma star_complete (greedy : bool) (p : ascii -> bool) (s1 s2 : str)
  (k : str -> option A) :
  forallb p s1 = true -> k s2 <> None ->
  (if greedy then star_greedy else star_lazy) p (s1 ++ s2) k <> None.
Proof.
  intros H1 Hk. induction s1 as [|c s1 IH]; simpl in *.
  - destruct greedy; [now apply star_greedy_next | now apply star_lazy_next].
  - apply andb_true_iff in H1. destruct H1 as [Hc H1]. specialize (IH H1).
    destruct greedy; simpl.
    + rewrite Hc. destruct (star_greedy p (s1 ++ s2) k); [discriminate|].
      now elim IH.
    + destruct (k (c :: s1 ++ s2)); [discriminate|]. now rewrite Hc.
Qed.

(** Whatever the pattern denotes, the matcher finds a match when asked to
    go on with a continuation that accepts what follows. *)
Lemma rmatch_complete (r : regex) (s1 : str) (g g1 : groups) :
  matches r s1 g g1 ->
  forall (h : groups) (s2 : str) (k : str -> groups -> option A),
    (forall g', k s2 g' <> None) -> rmatch r (s1 ++ s2) h k <> None.
Proof.
  induction 1 as [g|p c g Hc|r1 r2 s1 s3 g g1 g2 _ IH1 _ IH2
                 |r1 r2 s g g' _ IH|r1 r2 s g g' _ IH|greedy p s g Hp
                 |name r s g g' _ IH]; intros h s2 k Hk; simpl.
  - apply Hk.
  - rewrite Hc. apply Hk.
  - rewrite <- app_assoc. apply IH1. intros g'. now apply IH2.
  - specialize (IH h s2 k Hk).
    destruct (rmatch r1 (s ++ s2) h k); [discriminate | now elim IH].
  - destruct (rmatch r1 (s ++ s2) h k); [discriminate | now apply IH].
  - now apply star_complete.
  - apply IH. intros g0. apply Hk.
Qed.

End Soundness.

Lemma re_match_sound (r : regex) (s : str) (m : match_object) :
  re_match r s = Some m ->
  s = matched m ++ rest m /\ matches r (matched m) [] (captured m).
Proof.
  unfold re_match. intros H. apply rmatch_sound in H.
  destruct H as [s1 [s2 [g' [-> [M H]]]]].
  rewrite firstn_matched in H. inversion H; subst m; simpl. auto.
Qed.

Lemma re_match_complete (r : regex) (s1 s2 : str) (g g1 : groups) :
  matches r s1 g g1 -> re_match r (s1 ++ s2) <> None.
Proof.
  intros M. unfold re_match.
  apply (rmatch_complete r s1 g g1 M). discriminate.
Qed.

Lemma re_search_sound (r : regex) (s : str) (m : match_object) :
  re_search r s = Some m ->
  exists before, s = before ++ matched m ++ rest m
                 /\ matches r (matched m) [] (captured m).
Proof.
  induction s as [|c s IH]; simpl; intros H.
  - destruct (re_match r []) as [m'|] eqn:Hm; [|discriminate].
    inversion H; subst m'. exists []. now apply re_match_sound.
  - destruct (re_match r (c :: s)) as [m'|] eqn:Hm.
    + inversion H; subst m'. exists []. now apply re_match_sound.
    + destruct (IH H) as [before [-> M]]. exists (c :: before). auto.
Qed.

Lemma re_search_none (r : regex) (s : str) :
  re_search r s = None -> forall m, ~ occurs r m s.
Proof.
  intros H m [before [after [g [-> M]]]].
  induction before as [|c before IH]; simpl in H.
  - destruct m as [|x m]; simpl in *.
    + destruct after as [|y after]; simpl in *.
      * apply (re_match_complete r [] [] [] g M). simpl.
        destruct (re_match r []); [discriminate | reflexivity].
      * apply (re_match_complete r [] (y :: after) [] g M). simpl.
        destruct (re_match r (y :: after)); [discriminate | reflexivity].
    + apply (re_match_complete r (x :: m) after [] g M). simpl.
      destruct (re_match r (x :: m ++ after)); [discriminate | reflexivity].
  - destruct (re_match r (c :: before ++ m ++ after)); [discriminate|].
    now apply IH.
Qed.

Lemma re_search_complete (r : regex) (s m : str) :
  occurs r m s -> re_search r s <> None.
Proof.
  intros Ho Hn. exact (re_search_none r s Hn m Ho).
Qed.

Lemma findall_from_sound (r : regex) (s : str) :
  forall skip m, In m (findall_from r skip s) -> occurs r m s.
Proof.
  induction s as [|c s IH]; intros skip m Hin; simpl in Hin.
  - destruct skip; [|contradiction].
    destruct (re_match r []) as [mo|] eqn:Hm; [|contradiction].
    destruct Hin as [<-|[]]. apply re_match_sound in Hm. destruct Hm as [Hs M].
    exists [], (rest mo), (captured mo). auto.
  - assert (Htail : forall k, In m (findall_from r k s) -> occurs r m (c :: s)).
    { intros k Hk. destruct (IH k m Hk) as [b [a [g [-> M]]]].
      exists (c :: b), a, g. auto. }
    destruct skip; [|now apply (Htail skip)].
    destruct (re_match r (c :: s)) as [mo|] eqn:Hm; [|now apply (Htail 0)].
    destruct Hin as [<-|Hin]; [|now apply Htail in Hin].
    apply re_match_sound in Hm. destruct Hm as [Hs M].
    exists [], (rest mo), (captured mo). auto.
Qed.

Lemma findall_sound (r : regex) (s m : str) :
  In m (findall r s) -> occurs r m s.
Proof. apply findall_from_sound. Qed.

Lemma findall_nil (r : regex) (s : str) :
  findall r s = [] -> forall m, ~ occurs r m s.
Proof.
  unfold findall. intros H m [before [after [g [-> M]]]].
  induction before as [|c before IH].
  - pose proof (re_match_complete r m after [] g M) as Hc. simpl in *.
    destruct (m ++ after) as [|x t]; simpl in H.
    + destruct (re_match r []); [discriminate | now elim Hc].
    + destruct (re_match r (x :: t)); [discriminate | now elim Hc].
  - simpl in H. apply IH.
    destruct (re_match r (c :: before ++ m ++ after)); [discriminate | exact H].
Qed.

Lemma findall_complete (r : regex) (s m : str) :
  occurs r m s -> findall r s <> [].
Proof. intros Ho Hn. exact (findall_nil r s Hn m Ho). Qed.

(* ------------------------------------------------------------------ *)
(** ** E-mail addresses *)

Ltac inv H := inversion H; subst; clear H.

Lemma email_re_shaped (m : str) (g g' : groups) :
  matches email_re m g g' -> email_shaped m.
Proof.
  unfold email_re, Plus, Chr. intros H.
  inv H.
  match goal with H : matches (Seq (Cls local_char) _) _ _ _ |- _ => inv H end.
  repeat match goal with
         | H : matches (Seq _ _) _ _ _ |- _ => inv H
         end.
  repeat match goal with
         | H : matches (Cls _) _ _ _ |- _ => inv H
         | H : matches (Star _ _) _ _ _ |- _ => inv H
         end.
  repeat match goal with
         | H : char_eqb _ _ = true |- _ => apply char_eqb_eq in H; subst
         end.
  match goal with
  | |- email_shaped (([?a] ++ ?l) ++ [_] ++ ([?b] ++ ?d) ++ [_] ++ [?x] ++ [?y] ++ ?t) =>
      exists (a :: l), (b :: d), (x :: y :: t)
  end.
  simpl.
  repeat match goal with H : _ = true |- _ => rewrite H; clear H end.
  repeat split; try discriminate; try lia.
Qed.



Lemma last_cons_default {X} (l : list X) (x d : X) :
  last (x :: l) d = last l x.
Proof.
  revert x d; induction l as [|y l IH]; intros x d; [reflexivity|].
  change (last (x :: y :: l) d) with (last (y :: l) d).
  now rewrite !IH.
Qed.



(* ------------------------------------------------------------------ *)
(** ** The date parser never raises *)

Lemma strptime_raises_ValueError (data_string format : str) (e : exn) :
  strptime data_string format = Raise e -> e = ValueError.
Proof.
  unfold strptime, new_datetime.
  destruct (pattern format); [|now inversion 1].
  destruct (re_match _ _) as [found|]; [|now inversion 1].
  destruct (rest found); [|now inversion 1].
  destruct (fold_left _ _ _).
  destruct (valid_datetime _); [discriminate | now inversion 1].
Qed.

Lemma try_format_raises_ValueError (cleaned_str fmt : str) (e : exn) :
  try_format cleaned_str fmt = Raise e -> e = ValueError.
Proof.
  unfold try_format. destruct (contains _ _); apply strptime_raises_ValueError.
Qed.

Lemma try_formats_total (cleaned_str : str) (fmts : list str) :
  exists r, try_formats cleaned_str fmts = Ret r.
Proof.
  induction fmts as [|fmt fmts IH]; simpl; [eauto|].
  destruct (try_format cleaned_str fmt) as [d|e] eqn:Ht; [eauto|].
  apply try_format_raises_ValueError in Ht. subst e. exact IH.
Qed.

Lemma try_formats_all_fail (cleaned_str : str) (fmts : list str) :
  (forall fmt, In fmt fmts -> exists e, try_format cleaned_str fmt = Raise e) ->
  try_formats cleaned_str fmts = Ret None.
Proof.
  induction fmts as [|fmt fmts IH]; simpl; intros H; [reflexivity|].
  destruct (H fmt (or_introl eq_refl)) as [e He].
  rewrite He. apply try_format_raises_ValueError in He. subst e.
  apply IH. intros f Hf. apply H. now right.
Qed.

Lemma parse_sanral_date_total (v : pyval) :
  exists r, parse_sanral_date v = Ret r.
Proof.
  unfold parse_sanral_date.
  destruct (negb (truthy v) || negb (isinstance_str v)); [eauto|].
  destruct v; eauto. apply try_formats_total.
Qed.

(* ------------------------------------------------------------------ *)
(** ** Enrichment is best effort *)

Lemma enrich_total (E : externals) (url : option str) (tender_number : str)
  (v : scraped) :
  exists evs v', enrich E url tender_number v = (evs, Ret v').
Proof.
  unfold enrich. destruct url as [u|]; [|unfold ret; eauto].
  destruct (nonempty u); [|unfold ret; eauto].
  unfold try_except.
  destruct (scrape_detail_page E u tender_number v) as [evs [a|e]]; [eauto|].
  simpl. eauto.
Qed.

Lemma enrich_no_url (E : externals) (tender_number : str) (v : scraped) :
  enrich E None tender_number v = ([], Ret v).
Proof. reflexivity. Qed.

Lemma nonempty_portal_url (path : str) : nonempty (portal_origin ++ path) = true.
Proof. reflexivity. Qed.

Lemma enrich_fetch_fails (E : externals) (u tender_number : str) (v : scraped) :
  nonempty u = true -> fetch_fails E u ->
  exists e,
    enrich E (Some u) tender_number v
    = ([HttpGet u; LogWarning (CouldNotScrape tender_number e)], Ret v).
Proof.
  intros Hu Hf. unfold enrich. rewrite Hu.
  unfold scrape_detail_page, try_except, bind, emit, lift, ret.
  destruct Hf as [[e He]|[resp [e [Hr He]]]].
  - exists e. rewrite He. reflexivity.
  - exists e. rewrite Hr, He. reflexivity.
Qed.

Lemma bind_emit {X} (ev : event) (f : unit -> M X) :
  bind (emit ev) f = (ev :: fst (f tt), snd (f tt)).
Proof. unfold bind, emit. now destruct (f tt). Qed.

(** With a URL, the first thing that happens is the request. *)
Lemma enrich_requests (E : externals) (u tender_number : str)
  (v v' : scraped) (evs : list event) :
  nonempty u = true ->
  enrich E (Some u) tender_number v = (evs, Ret v') ->
  exists evs', evs = HttpGet u :: evs'.
Proof.
  intros Hu. unfold enrich, scrape_detail_page. rewrite Hu, bind_emit.
  unfold try_except.
  destruct (snd _) as [a|e].
  - inversion 1. eauto.
  - destruct (_ ;;; ret v) as [evs1 r1]. inversion 1. simpl. eauto.
Qed.

(** The text the e-mail is taken from: the summary row's, unless a fetched
    page provided the notice cell. *)
Lemma enrich_notice_text (E : externals) (url : option str)
  (tender_number : str) (v v' : scraped) (evs : list event) :
  enrich E url tender_number v = (evs, Ret v') ->
  s_full_notice_text v' = s_full_notice_text v
  \/ (exists u resp,
        url = Some u /\ requests_get E u = Ret resp
        /\ raise_for_status resp = Ret tt
        /\ notice_cell (soup resp) = Some (s_full_notice_text v')).
Proof.
  unfold enrich. destruct url as [u|]; [|inversion 1; now left].
  destruct (nonempty u); [|inversion 1; now left].
  unfold scrape_detail_page, try_except, bind, emit, lift, ret.
  destruct (requests_get E u) as [resp|e] eqn:Hr; [|inversion 1; now left].
  destruct (raise_for_status resp) as [[]|e] eqn:Hs; [|inversion 1; now left].
  destruct (scrape_pub_date tender_number (soup resp) (s_pub_date v))
    as [evs' [d|e]]; simpl; inversion 1; subst; simpl; [|now left].
  destruct (notice_cell (soup resp)) as [c|] eqn:Hc; simpl; [|now left].
  right. exists u, resp. auto.
Qed.

(* ------------------------------------------------------------------ *)
(** ** What [from_api_response] makes of a well-shaped row *)

Lemma collapsed_str (E : externals) (f : str) :
  collapsed E (PStr f) = Ret (collapsed_text E f).
Proof. reflexivity. Qed.

Lemma initial_description_str (E : externals) (f : str) :
  initial_description_of E (PStr f)
  = Ret (strip (replace "Tender Notice:" "" (collapsed_text E f))).
Proof. reflexivity. Qed.

Lemma row_outcome (E : externals) (f0 f1 f2 f3 f4 : str) (x5 : pyval)
  (more : list pyval) :
  exists evs v close_date t,
    from_api_response E
      (PList (PStr f0 :: PStr f1 :: PStr f2 :: PStr f3 :: PStr f4 :: x5
              :: more))
    = (evs, Ret (Some t))
    /\ parse_sanral_date x5 = Ret close_date
    /\ enrich E (fst (parse_title_link (link_of E f0)))
         (snd (parse_title_link (link_of E f0)))
         (mkScraped (snd (parse_title_link (link_of E f0)))
            (strip (replace "Tender Notice:" "" (collapsed_text E f3)))
            (collapsed_text E f4) None)
       = (evs, Ret v)
    /\ title t = Text.title (s_title v)
    /\ description t = Text.title (s_description v)
    /\ source t = "SANRAL"
    /\ published_date t = s_pub_date v
    /\ closing_date t = close_date
    /\ supporting_docs t = doc_list_of (fst (parse_title_link (link_of E f0)))
    /\ tags t = []
    /\ tender_number t = upper (snd (parse_title_link (link_of E f0)))
    /\ category t = Text.title (strip f1)
    /\ region t = Text.title (strip f2)
    /\ email t = extract_email (s_full_notice_text v)
    /\ full_notice_text t = Text.title (s_full_notice_text v).
Proof.
  destruct (parse_sanral_date_total x5) as [close_date Hd].
  destruct (enrich_total E (fst (parse_title_link (link_of E f0)))
         (snd (parse_title_link (link_of E f0)))
         (mkScraped (snd (parse_title_link (link_of E f0)))
            (strip (replace "Tender Notice:" "" (collapsed_text E f3)))
            (collapsed_text E f4) None)) as [evs [v Hv]].
  exists evs, v, close_date.
  unfold from_api_response.
  change (length _ <? 6) with false. cbv iota.
  cbv [nth].
  rewrite initial_description_str, collapsed_str, Hd.
  change (py_html_unescape E (PStr f0)) with (Ret (PStr (html_unescape E f0))).
  cbv beta iota delta [bind lift ret].
  change (py_re_search href_re (PStr (html_unescape E f0)))
    with (Ret (link_of E f0)).
  change (py_strip (PStr f1)) with (Ret (strip f1)).
  change (py_strip (PStr f2)) with (Ret (strip f2)).
  cbv beta iota.
  destruct (parse_title_link (link_of E f0)) as [url tender_number] eqn:Hl.
  simpl fst in *. simpl snd in *.
  rewrite Hv. cbv beta iota. rewrite !app_nil_r.
  eexists. split; [reflexivity|].
  repeat split; reflexivity.
Qed.

(** A tender only comes out of a list whose first five fields are text. *)
Lemma bind_ret_inv {X Y} (m : M X) (f : X -> M Y) (evs : list event) (y : Y) :
  bind m f = (evs, Ret y) ->
  exists evs1 x evs2,
    m = (evs1, Ret x) /\ f x = (evs2, Ret y) /\ evs = evs1 ++ evs2.
Proof.
  unfold bind. destruct m as [evs1 [x|e]]; [|discriminate].
  destruct (f x) as [evs2 r] eqn:Hf. inversion 1; subst.
  exists evs1, x, evs2. auto.
Qed.

Lemma lift_ret_inv {X} (r : res X) (evs : list event) (x : X) :
  lift r = (evs, Ret x) -> r = Ret x.
Proof. unfold lift. now inversion 1. Qed.

Lemma py_split_inv (v : pyval) (ws : list str) :
  py_split v = Ret ws -> exists f, v = PStr f.
Proof. destruct v; try discriminate. eauto. Qed.

Lemma py_strip_inv (v : pyval) (s : str) :
  py_strip v = Ret s -> exists f, v = PStr f.
Proof. destruct v; try discriminate. eauto. Qed.

Lemma py_html_unescape_text_inv (E : externals) (v : pyval) (s : str) :
  py_html_unescape E v = Ret (PStr s) -> exists f, v = PStr f.
Proof.
  destruct v; simpl; try discriminate; eauto.
  - destruct (existsb _ _); discriminate.
  - destruct (existsb _ _); discriminate.
Qed.

Lemma collapsed_inv (E : externals) (v : pyval) (s : str) :
  collapsed E v = Ret s -> exists f, v = PStr f.
Proof.
  unfold collapsed, res_bind.
  destruct (py_html_unescape E v) as [u|] eqn:Hu; [|discriminate].
  destruct (py_split u) as [ws|] eqn:Hs; [|discriminate]. intros _.
  apply py_split_inv in Hs. destruct Hs as [f ->].
  now apply py_html_unescape_text_inv in Hu.
Qed.

Lemma initial_description_inv (E : externals) (v : pyval) (s : str) :
  initial_description_of E v = Ret s -> exists f, v = PStr f.
Proof.
  unfold initial_description_of, res_bind.
  destruct (collapsed E v) as [t|] eqn:Hc; [|discriminate]. intros _.
  now apply collapsed_inv in Hc.
Qed.

Lemma py_re_search_inv (r : regex) (v : pyval) (m : option match_object) :
  py_re_search r v = Ret m -> exists s, v = PStr s.
Proof. destruct v; try discriminate. eauto. Qed.

Lemma returns_tender_inv (E : externals) (response_item : pyval)
  (evs : list event) (t : SanralTender) :
  from_api_response E response_item = (evs, Ret (Some t)) ->
  exists f0 f1 f2 f3 f4 x5 more,
    response_item
    = PList (PStr f0 :: PStr f1 :: PStr f2 :: PStr f3 :: PStr f4 :: x5 :: more).
Proof.
  unfold from_api_response.
  destruct response_item as [| | | | |items|]; try discriminate.
  destruct items as [|x0 [|x1 [|x2 [|x3 [|x4 [|x5 more]]]]]]; try discriminate.
  change (length _ <? 6) with false. cbv iota. cbv [nth].
  intros H.
  apply bind_ret_inv in H. destruct H as [? [title_html [? [H0 [H _]]]]].
  apply lift_ret_inv in H0.
  apply bind_ret_inv in H. destruct H as [? [m [? [Hm [H _]]]]].
  apply lift_ret_inv, py_re_search_inv in Hm. destruct Hm as [s ->].
  apply py_html_unescape_text_inv in H0. destruct H0 as [f0 ->].
  destruct (parse_title_link m) as [url tender_number].
  apply bind_ret_inv in H. destruct H as [? [d [? [H3 [H _]]]]].
  apply lift_ret_inv, initial_description_inv in H3. destruct H3 as [f3 ->].
  apply bind_ret_inv in H. destruct H as [? [n [? [H4 [H _]]]]].
  apply lift_ret_inv, collapsed_inv in H4. destruct H4 as [f4 ->].
  apply bind_ret_inv in H. destruct H as [? [cd [? [_ [H _]]]]].
  apply bind_ret_inv in H. destruct H as [? [v [? [_ [H _]]]]].
  apply bind_ret_inv in H. destruct H as [? [c [? [H1 [H _]]]]].
  apply lift_ret_inv, py_strip_inv in H1. destruct H1 as [f1 ->].
  apply bind_ret_inv in H. destruct H as [? [r [? [H2 _]]]].
  apply lift_ret_inv, py_strip_inv in H2. destruct H2 as [f2 ->].
  now exists f0, f1, f2, f3, f4, x5, more.
Qed.

(* ------------------------------------------------------------------ *)
(** ** The shape of a hyperlink *)

Lemma matches_Seq_inv (r1 r2 : regex) (s : str) (g g2 : groups) :
  matches (Seq r1 r2) s g g2 ->
  exists s1 s2 g1,
    s = s1 ++ s2 /\ matches r1 s1 g g1 /\ matches r2 s2 g1 g2.
Proof. intros H. inv H. eauto 7. Qed.

Lemma matches_Cls_inv (p : ascii -> bool) (s : str) (g g' : groups) :
  matches (Cls p) s g g' -> exists c, s = [c] /\ p c = true /\ g' = g.
Proof. intros H. inv H. eauto. Qed.

Lemma matches_Star_inv (greedy : bool) (p : ascii -> bool) (s : str)
  (g g' : groups) :
  matches (Star greedy p) s g g' -> forallb p s = true /\ g' = g.
Proof. intros H. inv H. auto. Qed.

Lemma matches_Group_inv (name : string) (r : regex) (s : str) (g g' : groups) :
  matches (Group name r) s g g' ->
  exists g1, matches r s g g1 /\ g' = (name, s) :: g1.
Proof. intros H. inv H. eauto. Qed.

Lemma matches_Lit_ci (l s : str) (g g' : groups) :
  matches (Lit true l) s g g' -> lower s = lower l /\ g' = g.
Proof.
  revert s g g'; induction l as [|c l IH]; intros s g g' H; simpl in H.
  - inv H. auto.
  - apply matches_Seq_inv in H. destruct H as [s1 [s2 [g1 [-> [H1 H2]]]]].
    apply matches_Cls_inv in H1. destruct H1 as [x [-> [Hx ->]]].
    apply IH in H2. destruct H2 as [H2 ->].
    apply char_eqb_eq in Hx. simpl. now rewrite Hx, H2.
Qed.

Lemma href_re_shape (body : str) (g : groups) :
  matches href_re body [] g ->
  exists h path ws1 text ws2 a,
    body = h ++ [quote] ++ path ++ [quote] ++ ">" ++ ws1 ++ text ++ ws2 ++ a
    /\ lower h = "href=" /\ lower a = "</a>"
    /\ path <> [] /\ forallb not_quote path = true
    /\ forallb isspace ws1 = true /\ forallb dot text = true
    /\ forallb isspace ws2 = true
    /\ g = [("2", text); ("1", path)].
Proof.
  unfold href_re, Plus, Chr. intros H.
  apply matches_Seq_inv in H. destruct H as [h [s [g1 [-> [Hh H]]]]].
  apply matches_Lit_ci in Hh. destruct Hh as [Hh ->].
  apply matches_Seq_inv in H. destruct H as [q1 [s1 [g1 [-> [Hq1 H]]]]].
  apply matches_Cls_inv in Hq1. destruct Hq1 as [c1 [-> [Hc1 ->]]].
  apply char_eqb_eq in Hc1. subst c1.
  apply matches_Seq_inv in H. destruct H as [path [s2 [g1 [-> [Hp H]]]]].
  apply matches_Group_inv in Hp. destruct Hp as [g2 [Hp ->]].
  apply matches_Seq_inv in Hp. destruct Hp as [p1 [p2 [g3 [-> [Hp1 Hp2]]]]].
  apply matches_Cls_inv in Hp1. destruct Hp1 as [c [-> [Hc ->]]].
  apply matches_Star_inv in Hp2. destruct Hp2 as [Hp2 ->].
  apply matches_Seq_inv in H. destruct H as [q2 [s3 [g1 [-> [Hq2 H]]]]].
  apply matches_Cls_inv in Hq2. destruct Hq2 as [c2 [-> [Hc2 ->]]].
  apply char_eqb_eq in Hc2. subst c2.
  apply matches_Seq_inv in H. destruct H as [gt [s4 [g1 [-> [Hgt H]]]]].
  apply matches_Cls_inv in Hgt. destruct Hgt as [c3 [-> [Hc3 ->]]].
  apply char_eqb_eq in Hc3. subst c3.
  apply matches_Seq_inv in H. destruct H as [ws1 [s5 [g1 [-> [Hw1 H]]]]].
  apply matches_Star_inv in Hw1. destruct Hw1 as [Hw1 ->].
  apply matches_Seq_inv in H. destruct H as [text [s6 [g1 [-> [Ht H]]]]].
  apply matches_Group_inv in Ht. destruct Ht as [g2 [Ht ->]].
  apply matches_Star_inv in Ht. destruct Ht as [Ht ->].
  apply matches_Seq_inv in H. destruct H as [ws2 [a [g1 [-> [Hw2 H]]]]].
  apply matches_Star_inv in Hw2. destruct Hw2 as [Hw2 ->].
  apply matches_Lit_ci in H. destruct H as [Ha ->].
  exists h, ([c] ++ p2), ws1, text, ws2, a.
  repeat split; try assumption; try discriminate.
  simpl. now rewrite Hc, Hp2.
Qed.

(** A link that was found has a non-empty path, so a URL is built. *)
Lemma link_found (E : externals) (f0 : str) (m : match_object) :
  link_of E f0 = Some m ->
  parse_title_link (link_of E f0)
  = (Some (portal_origin ++ group m "1"), join space (split (group m "2")))
  /\ group m "1" <> [] /\ forallb not_quote (group m "1") = true
  /\ occurs href_re (matched m) (html_unescape E f0).
Proof.
  intros Hm. rewrite Hm. unfold link_of in Hm.
  apply re_search_sound in Hm. destruct Hm as [before [Hs M]].
  assert (Ho : occurs href_re (matched m) (html_unescape E f0)).
  { exists before, (rest m), (captured m). auto. }
  apply href_re_shape in M.
  destruct M as [h [path [ws1 [text [ws2 [a [_ [_ [_ [Hp [Hq [_ [_ [_ Hg]]]]]]]]]]]]]].
  unfold parse_title_link, group. rewrite Hg. simpl.
  destruct path as [|c path]; [congruence|]. simpl. repeat split; auto.
Qed.

Lemma link_absent_iff (E : externals) (f0 : str) :
  link_of E f0 = None <-> forall m, ~ occurs href_re m (html_unescape E f0).
Proof.
  unfold link_of. split.
  - apply re_search_none.
  - intros H. destruct (re_search href_re (html_unescape E f0)) as [m|] eqn:Hs;
      [|reflexivity].
    apply re_search_sound in Hs. destruct Hs as [before [Hs M]].
    exfalso. apply (H (matched m)). exists before, (rest m), (captured m). auto.
Qed.

(* ------------------------------------------------------------------ *)
(** ** Whitespace collapsing and [replace] *)

Lemma split_words (s : str) : Forall word (split s).
Proof.
  induction s as [|c s IH]; simpl; [constructor|].
  destruct (isspace c) eqn:Hc; [exact IH|].
  assert (Hw : word [c]).
  { split; [discriminate|]. simpl. now rewrite Hc. }
  destruct s as [|c' s']; [repeat constructor; apply Hw|].
  destruct (isspace c'); [constructor; assumption|].
  destruct (split (c' :: s')) as [|w ws]; [repeat constructor; apply Hw|].
  inversion IH as [|? ? [_ Hcw] Hws]; subst.
  constructor; [|exact Hws].
  split; [discriminate|]. simpl. now rewrite Hc, Hcw.
Qed.

Lemma word_mask_head (w : str) (bs : list bool) :
  word w -> clean_head (map isspace w ++ bs).
Proof.
  intros [Hne Hw]. destruct w as [|c w]; [congruence|]. simpl in *.
  apply andb_true_iff in Hw. destruct Hw as [Hc _].
  destruct (isspace c); [discriminate | exact I].
Qed.

Lemma word_mask_last (w : str) (bs : list bool) :
  word w -> clean_head (rev (map isspace w) ++ bs).
Proof.
  intros [Hne Hw].
  assert (Hall : forall b, In b (rev (map isspace w)) -> b = false).
  { intros b Hb. apply in_rev in Hb. apply in_map_iff in Hb.
    destruct Hb as [c [<- Hc]].
    rewrite forallb_forall in Hw. specialize (Hw c Hc).
    now destruct (isspace c). }
  destruct (rev (map isspace w)) as [|b r] eqn:Hr.
  - exfalso. apply Hne. apply (f_equal (@rev bool)) in Hr.
    rewrite rev_involutive in Hr. simpl in Hr.
    now apply map_eq_nil in Hr.
  - simpl. rewrite (Hall b (or_introl eq_refl)). exact I.
Qed.

Lemma join_last_word (ws : list str) :
  Forall word ws -> ws <> [] ->
  exists before w, join space ws = before ++ w /\ word w.
Proof.
  induction 1 as [|w ws Hw Hws IH]; intros Hne; [congruence|].
  destruct ws as [|w' ws'].
  - exists [], w. auto.
  - destruct IH as [before [wl [Hj Hwl]]]; [discriminate|].
    exists (w ++ space ++ before), wl. split; [|exact Hwl].
    change (join space (w :: w' :: ws'))
      with (w ++ space ++ join space (w' :: ws')).
    now rewrite Hj, <- !app_assoc.
Qed.

Lemma join_words_trimmed (ws : list str) :
  Forall word ws -> trimmed_mask (map isspace (join space ws)).
Proof.
  intros Hws. destruct ws as [|w ws]; [split; exact I|]. split.
  - inversion Hws as [|? ? Hw _]; subst.
    destruct ws as [|w' ws'].
    + simpl. rewrite <- (app_nil_r (map isspace w)). now apply word_mask_head.
    + change (join space (w :: w' :: ws'))
        with (w ++ space ++ join space (w' :: ws')).
      rewrite map_app. now apply word_mask_head.
  - destruct (join_last_word (w :: ws) Hws) as [before [wl [-> Hwl]]];
      [discriminate|].
    rewrite map_app, rev_app_distr. now apply word_mask_last.
Qed.

Lemma collapsed_text_trimmed (E : externals) (f : str) :
  strip (collapsed_text E f) = collapsed_text E f.
Proof. apply strip_fixed_of_mask, join_words_trimmed, split_words. Qed.

Lemma replace_absent (old new s : str) :
  contains old s = false -> replace old new s = s.
Proof.
  unfold replace. induction s as [|c s IH]; [reflexivity|].
  simpl contains. intros H. apply orb_false_iff in H. destruct H as [H1 H2].
  simpl replace_from. rewrite H1. now rewrite IH.
Qed.

Lemma startswith_app (p s : str) : startswith p (p ++ s) = true.
Proof.
  induction p as [|c p IH]; [reflexivity|]. simpl.
  now rewrite char_eqb_refl, IH.
Qed.

Lemma replace_from_skip (old new p s : str) :
  replace_from old new (length p) (p ++ s) = replace_from old new 0 s.
Proof. induction p as [|c p IH]; [reflexivity | exact IH]. Qed.

Lemma replace_prefix (old new s : str) :
  old <> [] -> replace old new (old ++ s) = new ++ replace old new s.
Proof.
  intros Hne. unfold replace. destruct old as [|c old]; [congruence|].
  change ((c :: old) ++ s) with (c :: (old ++ s)).
  cbn [replace_from].
  change (c :: old ++ s) with ((c :: old) ++ s). rewrite startswith_app.
  change (length (c :: old) - 1) with (length old - 0).
  now rewrite Nat.sub_0_r, replace_from_skip.
Qed.

(* ------------------------------------------------------------------ *)
(** ** [isoformat] *)

Lemma isdigit_digit_char (n : Z) : isdigit (digit_char n) = true.
Proof.
  unfold digit_char.
  assert (H : Z.to_nat (n mod 10) < 10).
  { pose proof (Z.mod_pos_bound n 10 eq_refl). lia. }
  set (k := Z.to_nat (n mod 10)) in *. clearbody k.
  do 10 (destruct k as [|k]; [reflexivity|]). lia.
Qed.

Lemma isoformat_iso_8601 (d : datetime) : iso_8601 (isoformat d) = true.
Proof.
  unfold isoformat, pad6, pad4, pad2.
  destruct (microsecond d =? 0)%Z; cbn -[Z.div digit_char];
    rewrite ?isdigit_digit_char; reflexivity.
Qed.

(* ------------------------------------------------------------------ *)
(** ** The verbose date format *)

Lemma replace_from_keeps (old : str) (x : ascii) (s : str) :
  forall skip, In x (replace_from old [] skip s) -> In x s.
Proof.
  induction s as [|c s IH]; intros skip H; simpl in H; [contradiction|].
  destruct skip; [|right; now apply (IH skip)].
  destruct (startswith old (c :: s)).
  - right. now apply (IH _ H).
  - destruct H as [->|H]; [now left | right; now apply (IH 0)].
Qed.

Lemma replace_char_gone (x : ascii) (s : str) : ~ In x (replace [x] [] s).
Proof.
  unfold replace. induction s as [|c s IH]; simpl; [tauto|].
  destruct (char_eqb x c) eqn:Hc; simpl.
  - exact IH.
  - intros [->|H]; [|now apply IH]. now rewrite char_eqb_refl in Hc.
Qed.

Lemma dot_ignores_case (c : ascii) :
  char_eqb (to_lower c) (to_lower ".") = true -> c = "."%char.
Proof.
  destruct c as [[] [] [] [] [] [] [] []]; vm_compute;
    solve [discriminate | reflexivity].
Qed.

Lemma verbose_pattern :
  pattern verbose_format
  = Some (Seq re_d (Seq (Plus isspace) (Seq re_B (Seq (Plus isspace)
         (Seq re_Y (Seq (ChrI ".") (Seq (Plus isspace) (Seq re_H
         (Seq (ChrI "H") (Seq re_M Eps)))))))))).
Proof. reflexivity. Qed.

(** The third format asks for a dot and an H that the code has just
    removed from the text: it matches nothing. *)
Lemma verbose_format_never_matches (cleaned_str : str) :
  try_format cleaned_str verbose_format = Raise ValueError.
Proof.
  unfold try_format. change (contains "H" verbose_format) with true. cbv iota.
  unfold strptime. rewrite verbose_pattern.
  destruct (re_match _ _) as [found|] eqn:Hm; [|reflexivity].
  exfalso. apply re_match_sound in Hm. destruct Hm as [Hs M].
  apply matches_Seq_inv in M. destruct M as [s1 [t1 [g1 [E1 [_ M]]]]].
  apply matches_Seq_inv in M. destruct M as [s2 [t2 [g2 [E2 [_ M]]]]].
  apply matches_Seq_inv in M. destruct M as [s3 [t3 [g3 [E3 [_ M]]]]].
  apply matches_Seq_inv in M. destruct M as [s4 [t4 [g4 [E4 [_ M]]]]].
  apply matches_Seq_inv in M. destruct M as [s5 [t5 [g5 [E5 [_ M]]]]].
  apply matches_Seq_inv in M. destruct M as [s6 [t6 [g6 [E6 [M _]]]]].
  apply matches_Cls_inv in M. destruct M as [c [-> [Hc _]]].
  apply dot_ignores_case in Hc. subst c.
  assert (Hin : In "."%char (replace "H" "" (replace "." "" cleaned_str))).
  { rewrite Hs, E1, E2, E3, E4, E5, E6, !in_app_iff. simpl. tauto. }
  apply (replace_char_gone "." cleaned_str).
  apply (replace_from_keeps "H" "." _ 0). exact Hin.
Qed.

(* ------------------------------------------------------------------ *)
(** ** The numeric date formats *)

Lemma digit_char_cases (n : Z) :
  exists k, k < 10 /\ digit_char n = ascii_of_nat (48 + k)
            /\ (n mod 10)%Z = Z.of_nat k.
Proof.
  unfold digit_char. exists (Z.to_nat (n mod 10)).
  pose proof (Z.mod_pos_bound n 10 eq_refl). repeat split; lia.
Qed.

Ltac digit_cases n :=
  let k := fresh "k" in
  let Hk := fresh "Hk" in
  let Hc := fresh "Hc" in
  destruct (digit_char_cases n) as [k [Hk [Hc _]]]; rewrite Hc;
  do 10 (destruct k as [|k]; [reflexivity|]); lia.

Lemma isspace_digit_char (n : Z) : isspace (digit_char n) = false.
Proof. digit_cases n. Qed.

Lemma digit_char_not_dot (n : Z) : char_eqb "." (digit_char n) = false.
Proof. digit_cases n. Qed.

Lemma digit_char_not_H (n : Z) : char_eqb "H" (digit_char n) = false.
Proof. digit_cases n. Qed.

Lemma digit_value_digit_char (n : Z) :
  digit_value (digit_char n) = (n mod 10)%Z.
Proof.
  destruct (digit_char_cases n) as [k [Hk [Hc Hm]]]. rewrite Hc, Hm.
  unfold digit_value, code. rewrite nat_ascii_embedding by lia.
  f_equal. lia.
Qed.

Lemma int_of_digits_pad2 (n : Z) :
  (0 <= n < 100)%Z -> int_of_digits (pad2 n) = n.
Proof.
  intros H. unfold int_of_digits, pad2. cbn [fold_left].
  rewrite !isdigit_digit_char, !digit_value_digit_char.
  Z.div_mod_to_equations. lia.
Qed.

Lemma int_of_digits_pad4 (n : Z) :
  (0 <= n < 10000)%Z -> int_of_digits (pad4 n) = n.
Proof.
  intros H. unfold int_of_digits, pad4, pad2. cbn [fold_left app].
  rewrite !isdigit_digit_char, !digit_value_digit_char.
  Z.div_mod_to_equations. lia.
Qed.

Section Directives.
Context {A : Type}.
Implicit Types (s : str) (g : groups) (k : str -> groups -> option A) (x : A).

(** A directive followed by the rest of a pattern: when the body of the
    group takes exactly [s1], the group records [s1] and the rest of the
    pattern goes on from there. *)
Lemma rmatch_directive (name : string) (body r : regex) s1 s2 g k x :
  (forall k', k' s2 g = Some x -> rmatch body (s1 ++ s2) g k' = Some x) ->
  rmatch r s2 ((name, s1) :: g) k = Some x ->
  rmatch (Seq (Group name body) r) (s1 ++ s2) g k = Some x.
Proof.
  intros Hbody Hr. cbn [rmatch]. apply Hbody.
  now rewrite firstn_matched.
Qed.

Lemma rmatch_literal (c : ascii) (r : regex) s g k :
  rmatch (Seq (ChrI c) r) (c :: s) g k = rmatch r s g k.
Proof. cbn [rmatch ChrI]. now rewrite char_eqb_refl. Qed.

Lemma rmatch_one_blank (r : regex) (n : Z) s g k :
  rmatch (Seq (Plus isspace) r) (" "%char :: digit_char n :: s) g k
  = rmatch r (digit_char n :: s) g k.
Proof.
  unfold Plus. cbn [rmatch star_greedy].
  change (isspace " ") with true. cbv iota.
  now rewrite isspace_digit_char.
Qed.

Ltac two_digit_case :=
  let s := fresh "s" in
  let g := fresh "g" in
  let k := fresh "k" in
  let x := fresh "x" in
  let Hk := fresh "Hk" in
  intros s g k x Hk; vm_compute (pad2 _); cbn; rewrite ?Hk; reflexivity.

Ltac cases_below j :=
  first [ lia
        | destruct j as [|j]; [ first [ lia | two_digit_case ] | cases_below j ] ].

Ltac by_value n bound :=
  let j := fresh "j" in
  let Hj := fresh "Hj" in
  let Hb := fresh "Hb" in
  assert (Hj : n = Z.of_nat (Z.to_nat n)) by lia;
  set (j := Z.to_nat n) in Hj; assert (Hb : j < bound) by lia;
  clearbody j; subst n; cases_below j.

Lemma body_m (n : Z) :
  (1 <= n <= 12)%Z ->
  forall s g k x, k s g = Some x ->
    rmatch (Alts [Seq (Chr "1") (range "0" "2");
                  Seq (Chr "0") (range "1" "9"); range "1" "9"])
      (pad2 n ++ s) g k = Some x.
Proof. intros H. by_value n 13. Qed.

Lemma body_d (n : Z) :
  (1 <= n <= 31)%Z ->
  forall s g k x, k s g = Some x ->
    rmatch (Alts [Seq (Chr "3") (range "0" "1"); Seq (range "1" "2") D;
                  Seq (Chr "0") (range "1" "9"); range "1" "9";
                  Seq (Chr " ") (range "1" "9")])
      (pad2 n ++ s) g k = Some x.
Proof. intros H. by_value n 32. Qed.

Lemma body_H (n : Z) :
  (0 <= n <= 23)%Z ->
  forall s g k x, k s g = Some x ->
    rmatch (Alts [Seq (Chr "2") (range "0" "3"); Seq (range "0" "1") D; D])
      (pad2 n ++ s) g k = Some x.
Proof. intros H. by_value n 24. Qed.

Lemma body_M (n : Z) :
  (0 <= n <= 59)%Z ->
  forall s g k x, k s g = Some x ->
    rmatch (Alts [Seq (range "0" "5") D; D]) (pad2 n ++ s) g k = Some x.
Proof. intros H. by_value n 60. Qed.

Lemma body_Y (n : Z) s g k x :
  k s g = Some x ->
  rmatch (Seq D (Seq D (Seq D D))) (pad4 n ++ s) g k = Some x.
Proof.
  intros Hk. unfold pad4, pad2, D. cbn [rmatch app].
  now rewrite !isdigit_digit_char.
Qed.

End Directives.

Lemma rmatch_blank_digits {A} (r : regex) (n : Z) (s : str) (g : groups)
  (k : str -> groups -> option A) :
  rmatch (Seq (Plus isspace) r) (" "%char :: pad2 n ++ s) g k
  = rmatch r (pad2 n ++ s) g k.
Proof. apply rmatch_one_blank. Qed.

Lemma valid_datetime_ranges (d : datetime) :
  valid_datetime d = true ->
  (1 <= year d <= 9999 /\ 1 <= month d <= 12 /\ 1 <= day d <= 31
   /\ 0 <= hour d <= 23 /\ 0 <= minute d <= 59)%Z.
Proof.
  unfold valid_datetime, within. rewrite !andb_true_iff, !Z.leb_le.
  intros [[[[[[[? ?] [? ?]] [? Hd]] [? ?]] [? ?]] _] _].
  assert (days_in_month (year d) (month d) <= 31)%Z.
  { unfold days_in_month.
    destruct (month d =? 2)%Z; [destruct (is_leap _); lia|].
    destruct (_ || _); lia. }
  lia.
Qed.

Lemma numeric_date_time_pattern :
  pattern "%Y/%m/%d %H:%M" = Some numeric_date_time_re.
Proof. reflexivity. Qed.

Lemma numeric_date_time_matched (d : datetime) :
  valid_datetime d = true ->
  exists found,
    re_match numeric_date_time_re (numeric_date_time d) = Some found
    /\ rest found = []
    /\ captured found
       = [("M"%string, pad2 (minute d)); ("H"%string, pad2 (hour d));
          ("d"%string, pad2 (day d)); ("m"%string, pad2 (month d));
          ("Y"%string, pad4 (year d))].
Proof.
  intros Hv. apply valid_datetime_ranges in Hv.
  destruct Hv as [Hy [Hm [Hd [HH HM]]]].
  eexists. split.
  - unfold re_match, numeric_date_time_re, numeric_date_time.
    rewrite <- (app_nil_r (pad2 (minute d))).
    cbn [app list_ascii_of_string].
    unfold re_Y. apply rmatch_directive; [intros; now apply body_Y|].
    rewrite rmatch_literal.
    unfold re_m. apply rmatch_directive; [intros; now apply body_m|].
    rewrite rmatch_literal.
    unfold re_d. apply rmatch_directive; [intros; now apply body_d|].
    rewrite rmatch_blank_digits.
    unfold re_H. apply rmatch_directive; [intros; now apply body_H|].
    rewrite rmatch_literal.
    unfold re_M. apply rmatch_directive; [intros; now apply body_M|].
    cbn [rmatch]. reflexivity.
  - split; reflexivity.
Qed.

Lemma numeric_date_pattern : pattern "%d/%m/%Y" = Some numeric_date_re.
Proof. reflexivity. Qed.

Lemma numeric_date_matched (d : datetime) :
  valid_datetime d = true ->
  exists found,
    re_match numeric_date_re (numeric_date d) = Some found
    /\ rest found = []
    /\ captured found
       = [("Y"%string, pad4 (year d)); ("m"%string, pad2 (month d));
          ("d"%string, pad2 (day d))].
Proof.
  intros Hv. apply valid_datetime_ranges in Hv.
  destruct Hv as [Hy [Hm [Hd [HH HM]]]].
  eexists. split.
  - unfold re_match, numeric_date_re, numeric_date.
    rewrite <- (app_nil_r (pad4 (year d))).
    cbn [app list_ascii_of_string].
    unfold re_d. apply rmatch_directive; [intros; now apply body_d|].
    rewrite rmatch_literal.
    unfold re_m. apply rmatch_directive; [intros; now apply body_m|].
    rewrite rmatch_literal.
    unfold re_Y. apply rmatch_directive; [intros; now apply body_Y|].
    cbn [rmatch]. reflexivity.
  - split; reflexivity.
Qed.

(** A date written by two digits first is not read by the first format,
    which wants four. *)
Lemma numeric_date_not_date_time (d : datetime) :
  re_match numeric_date_time_re (numeric_date d) = None.
Proof.
  unfold re_match, numeric_date_time_re, numeric_date, re_Y, D, pad2.
  cbn [rmatch app list_ascii_of_string].
  now rewrite !isdigit_digit_char.
Qed.

Lemma strptime_numeric_date_time (d : datetime) :
  valid_datetime d = true -> second d = 0%Z -> microsecond d = 0%Z ->
  strptime (numeric_date_time d) "%Y/%m/%d %H:%M" = Ret d.
Proof.
  intros Hv Hs Hu.
  destruct (numeric_date_time_matched d Hv) as [found [Hf [Hr Hc]]].
  pose proof (valid_datetime_ranges d Hv) as [Hy [Hm [Hd [HH HM]]]].
  unfold strptime. rewrite numeric_date_time_pattern, Hf, Hr, Hc.
  cbn [rev app fold_left set_field default_fields String.eqb Ascii.eqb
       Bool.eqb].
  rewrite !int_of_digits_pad2, int_of_digits_pad4 by lia.
  unfold new_datetime. destruct d; simpl in *; subst. now rewrite Hv.
Qed.

Lemma strptime_numeric_date (d : datetime) :
  valid_datetime d = true ->
  hour d = 0%Z -> minute d = 0%Z -> second d = 0%Z -> microsecond d = 0%Z ->
  strptime (numeric_date d) "%d/%m/%Y" = Ret d.
Proof.
  intros Hv HH HM Hs Hu.
  destruct (numeric_date_matched d Hv) as [found [Hf [Hr Hc]]].
  pose proof (valid_datetime_ranges d Hv) as [Hy [Hm [Hd _]]].
  unfold strptime. rewrite numeric_date_pattern, Hf, Hr, Hc.
  cbn [rev app fold_left set_field default_fields String.eqb Ascii.eqb
       Bool.eqb].
  rewrite !int_of_digits_pad2, int_of_digits_pad4 by lia.
  unfold new_datetime. destruct d; simpl in *; subst. now rewrite Hv.
Qed.

Ltac digits_are_plain :=
  cbn [app list_ascii_of_string map rev contains startswith];
  rewrite ?isspace_digit_char, ?digit_char_not_dot, ?digit_char_not_H;
  cbn.

Lemma numeric_date_time_plain (d : datetime) :
  strip (numeric_date_time d) = numeric_date_time d
  /\ replace "H" "" (replace "." "" (numeric_date_time d))
     = numeric_date_time d.
Proof.
  split.
  - apply strip_fixed_of_mask. unfold numeric_date_time, pad4, pad2.
    split; digits_are_plain; exact I.
  - rewrite (replace_absent "." "" (numeric_date_time d)).
    + apply replace_absent. unfold numeric_date_time, pad4, pad2.
      digits_are_plain. reflexivity.
    + unfold numeric_date_time, pad4, pad2. digits_are_plain. reflexivity.
Qed.

Lemma numeric_date_plain (d : datetime) :
  strip (numeric_date d) = numeric_date d
  /\ replace "H" "" (replace "." "" (numeric_date d)) = numeric_date d.
Proof.
  split.
  - apply strip_fixed_of_mask. unfold numeric_date, pad4, pad2.
    split; digits_are_plain; exact I.
  - rewrite (replace_absent "." "" (numeric_date d)).
    + apply replace_absent. unfold numeric_date, pad4, pad2.
      digits_are_plain. reflexivity.
    + unfold numeric_date, pad4, pad2. digits_are_plain. reflexivity.
Qed.

(** The first two formats give back the timestamp that was written. *)
Lemma parse_numeric_date_time (d : datetime) :
  valid_datetime d = true -> second d = 0%Z -> microsecond d = 0%Z ->
  parse_sanral_date (PStr (numeric_date_time d)) = Ret (Some d).
Proof.
  intros Hv Hs Hu. unfold parse_sanral_date.
  change (negb (truthy (PStr (numeric_date_time d)))
          || negb (isinstance_str (PStr (numeric_date_time d))))
    with false. cbv iota.
  destruct (numeric_date_time_plain d) as [-> Hp].
  unfold formats_to_try. cbn [map try_formats]. unfold try_format at 1.
  change (contains "H" "%Y/%m/%d %H:%M") with true. cbv iota.
  now rewrite Hp, strptime_numeric_date_time.
Qed.

Lemma parse_numeric_date (d : datetime) :
  valid_datetime d = true ->
  hour d = 0%Z -> minute d = 0%Z -> second d = 0%Z -> microsecond d = 0%Z ->
  parse_sanral_date (PStr (numeric_date d)) = Ret (Some d).
Proof.
  intros Hv HH HM Hs Hu. unfold parse_sanral_date.
  change (negb (truthy (PStr (numeric_date d)))
          || negb (isinstance_str (PStr (numeric_date d))))
    with false. cbv iota.
  destruct (numeric_date_plain d) as [-> Hp].
  unfold formats_to_try. cbn [map try_formats]. unfold try_format at 1.
  change (contains "H" "%Y/%m/%d %H:%M") with true. cbv iota.
  rewrite Hp. unfold strptime at 1.
  rewrite numeric_date_time_pattern, numeric_date_not_date_time.
  unfold try_format at 1. change (contains "H" "%d/%m/%Y") with false.
  cbv iota. now rewrite strptime_numeric_date.
Qed.

(* ------------------------------------------------------------------ *)
(** ** The unit test of the model class *)

Example from_api_response_success :
  exists evs t,
    from_api_response (serving sample_page) sample_row = (evs, Ret (Some t))
    /\ evs = [HttpGet "https://www.nra.co.za/tender/123"]
    /\ title t = "Road Upgrade Tender"
    /\ description t = "Upgrade Of N2 Section"
    /\ tender_number t = "RFP123/2025"
    /\ category t = "Construction"
    /\ region t = "Kwazulu-Natal"
    /\ email t = "info@sanral.co.za"
    /\ closing_date t = Some (mkDatetime 2025 12 31 14 0 0 0)
    /\ published_date t = Some (mkDatetime 2025 10 10 0 0 0 0)
    /\ length (supporting_docs t) = 1.
Proof.
  eexists _, _. split; [vm_compute; reflexivity|].
  repeat split; vm_compute; reflexivity.
Qed.

(* ------------------------------------------------------------------ *)
(** ** Where [findall] finds its last match *)

Lemma findall_from_skip (r : regex) (p s : str) :
  findall_from r (length p) (p ++ s) = findall_from r 0 s.
Proof.
  induction p as [|c p IH]; [reflexivity|].
  cbn [length app findall_from]. exact IH.
Qed.

Lemma findall_from_last (r : regex) (Hne : never_empty r) (s : str) :
  forall skip ms m,
    findall_from r skip s = ms ++ [m] ->
    exists before after mo,
      s = before ++ m ++ after
      /\ re_match r (m ++ after) = Some mo
      /\ matched mo = m /\ rest mo = after
      /\ findall r after = [].
Proof.
  induction s as [|c s IH]; intros skip ms m H.
  - exfalso. cbn [findall_from] in H. destruct skip.
    + destruct (re_match r []) as [mo|] eqn:Hm.
      * pose proof (Hne _ _ Hm) as Hn. apply re_match_sound in Hm.
        destruct Hm as [Hs _]. destruct (matched mo); [congruence|discriminate].
      * destruct ms; discriminate.
    + destruct ms; discriminate.
  - cbn [findall_from] in H.
    assert (Htail : forall k ms0, findall_from r k s = ms0 ++ [m] ->
              exists before after mo,
                c :: s = before ++ m ++ after
                /\ re_match r (m ++ after) = Some mo
                /\ matched mo = m /\ rest mo = after
                /\ findall r after = []).
    { intros k ms0 Hk. destruct (IH k ms0 m Hk) as (b & a & mo & -> & Hmo).
      exists (c :: b), a, mo. split; [reflexivity | exact Hmo]. }
    destruct skip as [|k]; [|exact (Htail k ms H)].
    destruct (re_match r (c :: s)) as [mo|] eqn:Hm; [|exact (Htail 0 ms H)].
    pose proof (Hne _ _ Hm) as Hn.
    pose proof (re_match_sound _ _ _ Hm) as [Hs _].
    destruct (matched mo) as [|x mt] eqn:Hmt; [congruence|].
    replace (length (x :: mt) - 1) with (length mt) in H
      by (cbn [length]; lia).
    cbn [app] in Hs. injection Hs as Hx Hs. subst x s.
    rewrite findall_from_skip in H.
    destruct (findall_from r 0 (rest mo)) as [|e es] eqn:Hf.
    + destruct ms as [|y ms]; [|destruct ms; discriminate].
      injection H as H. subst m.
      exists [], (rest mo), mo. cbn [app]. repeat split; assumption.
    + assert (Hms : exists ms', ms = (c :: mt) :: ms' /\ e :: es = ms' ++ [m]).
      { destruct ms as [|y ms]; [discriminate|]. injection H as Hy H.
        exists ms. subst y. auto. }
      destruct Hms as (ms' & _ & He).
      assert (Hk : findall_from r (length mt) (mt ++ rest mo) = ms' ++ [m]).
      { rewrite findall_from_skip, Hf. exact He. }
      exact (Htail _ _ Hk).
Qed.

(** A greedy loop before a step that cannot fail takes every character it
    can. *)
Lemma star_greedy_takes_all {A} (p : ascii -> bool) (k : str -> option A) :
  (forall s, k s <> None) ->
  forall s x, star_greedy p s k = Some x ->
              exists s1 s2, s = s1 ++ s2 /\ forallb p s1 = true
                            /\ match s2 with
                               | c :: _ => p c = false
                               | [] => True
                               end
                            /\ k s2 = Some x.
Proof.
  intros Hk. induction s as [|c s IH]; intros x H; cbn [star_greedy] in H.
  - exists [], []. auto.
  - destruct (p c) eqn:Hc.
    + destruct (star_greedy p s k) as [y|] eqn:Hs.
      * inversion H; subst y. destruct (IH x eq_refl) as (s1 & s2 & -> & H1 & H2 & H3).
        exists (c :: s1), s2. cbn [forallb app]. rewrite Hc, H1. auto.
      * exfalso. clear H IH. revert Hs. induction s as [|d s IHs]; cbn [star_greedy].
        -- apply Hk.
        -- destruct (p d); [|apply Hk].
           destruct (star_greedy p s k); [discriminate | intros _; now apply IHs].
    + exists [], (c :: s). cbn [forallb app]. auto.
Qed.

Lemma email_re_never_empty : never_empty email_re.
Proof.
  intros s mo H. apply re_match_sound in H. destruct H as [_ M].
  apply email_re_shaped in M. destruct M as (l & d & t & -> & Hl & _).
  destruct l; [congruence | discriminate].
Qed.

Lemma email_re_greedy_end (s : str) (mo : match_object) :
  re_match email_re s = Some mo -> no_letter_next (rest mo).
Proof.
  unfold re_match, email_re. intros H.
  repeat (cbn [rmatch] in H;
          match type of H with
          | rmatch ?r _ _ _ = Some _ =>
              apply rmatch_sound in H; destruct H as (? & ? & ? & _ & _ & H)
          end).
  repeat match type of H with
         | match ?x with [] => None | _ :: _ => _ end = Some _ =>
             destruct x; [discriminate|]
         | (if ?b then _ else None) = Some _ => destruct b; [|discriminate]
         end.
  apply star_greedy_takes_all in H; [|discriminate].
  destruct H as (s1 & s2 & _ & _ & Hn & Hk). inversion Hk. exact Hn.
Qed.

(** What [extract_email] returns: nothing when the pattern occurs nowhere;
    else the lowered form of a text [m] that the pattern matches and after
    which the pattern matches nothing more, [m] being as long as the
    letters go. *)
Lemma extract_email_last (text : str) :
  ((forall m, ~ occurs email_re m text) /\ extract_email text = [])
  \/ (exists ms before m after,
        findall email_re text = ms ++ [m]
        /\ text = before ++ m ++ after
        /\ (exists g, matches email_re m [] g)
        /\ (forall m', ~ occurs email_re m' after)
        /\ no_letter_next after
        /\ extract_email text = lower m).
Proof.
  unfold extract_email.
  destruct (findall email_re text) as [|e es] eqn:Hf.
  - left. split; [now apply findall_nil | reflexivity].
  - right.
    assert (Hne : e :: es <> []) by discriminate.
    destruct (exists_last Hne) as [ms [m Hms]].
    assert (Hlast : last es e = m).
    { rewrite <- (last_cons_default es e e), Hms. apply last_last. }
    rewrite Hlast, Hms in *.
    destruct (findall_from_last email_re email_re_never_empty text 0 ms m Hf)
      as (before & after & mo & Ht & Hm & Hmm & Hr & Hn).
    exists ms, before, m, after. split; [reflexivity|]. split; [exact Ht|].
    split.
    { apply re_match_sound in Hm. destruct Hm as [_ M]. rewrite Hmm in M.
      eauto. }
    split; [now apply findall_nil|].
    split; [|reflexivity].
    apply email_re_greedy_end in Hm. now rewrite Hr in Hm.
Qed.

Lemma final_notice_text (E : externals) (response_item : pyval)
  (evs : list event) (t : SanralTender) :
  from_api_response E response_item = (evs, Ret (Some t)) ->
  exists text,
    notice_text_source E response_item text
    /\ full_notice_text t = Text.title text
    /\ email t = extract_email text.
Proof.
  intros H.
  destruct (returns_tender_inv E response_item evs t H)
    as [f0 [f1 [f2 [f3 [f4 [x5 [more ->]]]]]]].
  destruct (row_outcome E f0 f1 f2 f3 f4 x5 more)
    as [evs' [v [cd [t' [Hr [_ [Hv [_ [_ [_ [_ [_ [_ [_ [_ [_ [_ [He Hx]]]]]]]]]]]]]]]]]].
  rewrite Hr in H. inversion H; subst evs' t'.
  exists (s_full_notice_text v). split; [|split; assumption].
  apply enrich_notice_text in Hv. destruct Hv as [Hv|[u [resp Hv]]].
  - left. eexists _, f4. split; [reflexivity|]. split; [reflexivity|].
    exact Hv.
  - right. destruct Hv as [Hu [Hg [Hs Hn]]].
    destruct (link_of E f0) as [m|] eqn:Hm; [|discriminate].
    assert (Hl : u = portal_origin ++ group m "1").
    { destruct (link_found E f0 m Hm) as [Hl _].
      rewrite Hm in Hl. rewrite Hl in Hu. now inversion Hu. }
    subst u. eexists _, f0, m, resp.
    split; [reflexivity|]. split; [reflexivity|]. split; [exact Hm|].
    auto.
Qed.

(* ------------------------------------------------------------------ *)
(** ** The characters of an address are ASCII *)






(* ------------------------------------------------------------------ *)
(** ** [replace] removes every occurrence *)

Lemma startswith_prefix (p s : str) :
  startswith p s = true <-> exists b, s = p ++ b.
Proof.
  split.
  - revert s. induction p as [|c p IH]; intros s H; [now exists s|].
    destruct s as [|d s]; [discriminate|]. cbn [startswith] in H.
    apply andb_true_iff in H. destruct H as [Hc Hp].
    apply char_eqb_eq in Hc. subst d.
    destruct (IH s Hp) as [b ->]. now exists b.
  - intros [b ->]. apply startswith_app.
Qed.

Lemma contains_occurs_in (old s : str) :
  contains old s = true <-> occurs_in old s.
Proof.
  split.
  - induction s as [|c s IH]; cbn [contains]; intros H.
    + rewrite orb_false_r in H. apply startswith_prefix in H.
      destruct H as [b Hb]. now exists [], b.
    + apply orb_true_iff in H. destruct H as [H|H].
      * apply startswith_prefix in H. destruct H as [b Hb]. now exists [], b.
      * destruct (IH H) as (a & b & ->). now exists (c :: a), b.
  - intros (a & b & ->). induction a as [|c a IH].
    + cbn [app]. destruct (old ++ b) eqn:Hs; cbn [contains];
        rewrite <- Hs, startswith_app; reflexivity.
    + cbn [app contains]. rewrite IH. apply orb_true_r.
Qed.

Lemma not_occurs_in (old s : str) :
  contains old s = false -> ~ occurs_in old s.
Proof.
  intros H Ho. apply contains_occurs_in in Ho. congruence.
Qed.

(** The first occurrence is cut out and the scan goes on behind it. *)
Lemma replace_first (old new a b : str) :
  old <> [] ->
  (forall a' b', a ++ old ++ b = a' ++ old ++ b' -> length a <= length a') ->
  replace old new (a ++ old ++ b) = a ++ new ++ replace old new b.
Proof.
  intros Hne. induction a as [|c a IH]; intros Hfirst.
  - cbn [app]. now apply replace_prefix.
  - unfold replace in *. cbn [app replace_from].
    destruct (startswith old (c :: a ++ old ++ b)) eqn:Hs.
    + apply startswith_prefix in Hs. destruct Hs as [b' Hb'].
      specialize (Hfirst [] b' Hb'). cbn [length] in Hfirst. lia.
    + f_equal. apply IH. intros a' b' Heq.
      specialize (Hfirst (c :: a') b'). cbn [app length] in Hfirst.
      rewrite Heq in Hfirst. specialize (Hfirst eq_refl). lia.
Qed.

Lemma cut_out_replace (old s r : str) :
  old <> [] -> cut_out old s r -> r = replace old "" s.
Proof.
  intros Hne. induction 1 as [s Hno|a b r Hfirst _ IH].
  - symmetry. apply replace_absent.
    destruct (contains old s) eqn:Hc; [|reflexivity].
    apply contains_occurs_in in Hc. contradiction.
  - rewrite replace_first by assumption. cbn [app]. now rewrite IH.
Qed.

(** Where [old] occurs, it occurs a first time. *)
Lemma first_occurrence (old s : str) :
  occurs_in old s ->
  exists a b, s = a ++ old ++ b
              /\ forall a' b', s = a' ++ old ++ b' -> length a <= length a'.
Proof.
  induction s as [|c s IH]; intros Ho.
  - destruct Ho as (a & b & Hs). exists a, b. split; [exact Hs|].
    destruct a; [|discriminate]. intros. cbn [length]. lia.
  - destruct (startswith old (c :: s)) eqn:Hs.
    + apply startswith_prefix in Hs. destruct Hs as [b Hb].
      exists [], b. split; [exact Hb|]. intros. cbn [length]. lia.
    + assert (Ho' : occurs_in old s).
      { destruct Ho as (a & b & Hab). destruct a as [|d a].
        - cbn [app] in Hab. rewrite Hab, startswith_app in Hs. discriminate.
        - injection Hab as _ ->. now exists a, b. }
      destruct (IH Ho') as (a & b & -> & Hfirst).
      exists (c :: a), b. split; [reflexivity|].
      intros a' b' Heq. destruct a' as [|d a'].
      * cbn [app] in Heq. rewrite Heq, startswith_app in Hs. discriminate.
      * injection Heq as _ Heq. specialize (Hfirst a' b' Heq).
        cbn [length]. lia.
Qed.

Lemma replace_cut_out (old s : str) :
  old <> [] -> cut_out old s (replace old "" s).
Proof.
  intros Hne.
  remember (length s) as n eqn:Hn. revert s Hn.
  induction n as [n IH] using lt_wf_ind. intros s Hn.
  destruct (contains old s) eqn:Hc.
  - apply contains_occurs_in in Hc.
    destruct (first_occurrence old s Hc) as (a & b & -> & Hfirst).
    rewrite replace_first by assumption. cbn [app].
    apply cut_first; [exact Hfirst|].
    apply (IH (length b)); [|reflexivity].
    subst n. rewrite !length_app.
    destruct old; [congruence|]. cbn [length]. lia.
  - rewrite replace_absent by assumption.
    apply cut_none. now apply not_occurs_in.
Qed.

(* ------------------------------------------------------------------ *)
(** ** What [parse_sanral_date] makes of a text no format matches *)

Lemma strptime_ret_or_ValueError (data_string format : str) :
  (exists d, strptime data_string format = Ret d)
  \/ strptime data_string format = Raise ValueError.
Proof.
  destruct (strptime data_string format) as [d|e] eqn:H; [eauto|].
  right. f_equal. now apply strptime_raises_ValueError in H.
Qed.

Lemma parse_unmatched (s : str) :
  (forall fmt, In fmt formats_to_try ->
               strptime (strip s) fmt = Raise ValueError) ->
  parse_sanral_date (PStr s)
  = match strptime (replace "H" "" (replace "." "" (strip s)))
            "%Y/%m/%d %H:%M" with
    | Ret d => Ret (Some d)
    | Raise _ => Ret None
    end.
Proof.
  intros H. unfold parse_sanral_date.
  cbn [truthy isinstance_str negb]. rewrite orb_false_r.
  destruct s as [|c s].
  - vm_compute. reflexivity.
  - cbn [length Nat.eqb negb].
    unfold formats_to_try. cbn [map try_formats].
    unfold try_format at 1.
    change (contains "H" "%Y/%m/%d %H:%M") with true. cbv iota.
    destruct (strptime_ret_or_ValueError
                (replace "H" "" (replace "." "" (strip (c :: s))))
                "%Y/%m/%d %H:%M") as [[d ->]| ->]; [reflexivity|].
    unfold try_format at 1.
    change (contains "H" "%d/%m/%Y") with false. cbv iota.
    rewrite (H "%d/%m/%Y") by (unfold formats_to_try; cbn; auto).
    change (list_ascii_of_string "%d %B %Y. %HH%M") with verbose_format.
    now rewrite verbose_format_never_matches.
Qed.


(* ================================================================== *)
(** * The claims *)

(** C1.  For a row of six text fields whose title carries a hyperlink,
    when the detail page cannot be fetched (the request raises, or the
    status is an error) [from_api_response] still returns a tender: title,
    description and notice text are the provisional ones (title-cased),
    number, category and region come from the row, and there is no
    published date.  The failure ends in one logged warning. *)
Theorem C1_fetch_failure_keeps_summary_data
  (E : externals) (f0 f1 f2 f3 f4 f5 : str) (more : list pyval)
  (m : match_object) :
  link_of E f0 = Some m ->
  fetch_fails E (portal_origin ++ group m "1") ->
  exists t e,
    from_api_response E (row f0 f1 f2 f3 f4 f5 more)
    = ([HttpGet (portal_origin ++ group m "1");
        LogWarning (CouldNotScrape (join space (split (group m "2"))) e)],
       Ret (Some t))
    /\ title t = Text.title (join space (split (group m "2")))
    /\ description t
       = Text.title (strip (replace "Tender Notice:" "" (collapsed_text E f3)))
    /\ full_notice_text t = Text.title (collapsed_text E f4)
    /\ tender_number t = upper (join space (split (group m "2")))
    /\ category t = Text.title (strip f1)
    /\ region t = Text.title (strip f2)
    /\ published_date t = None.
Proof.
  intros Hm Hf.
  destruct (row_outcome E f0 f1 f2 f3 f4 (PStr f5) more)
    as [evs [v [cd [t [Hr [_ [Hv [Ht [Hd [_ [Hp [_ [_ [_ [Hn [Hc [Hg [_ Hx]]]]]]]]]]]]]]]]]].
  destruct (link_found E f0 m Hm) as [Hl _]. rewrite Hl in *.
  cbn [fst snd] in *.
  destruct (enrich_fetch_fails E _ (join space (split (group m "2")))
              (mkScraped (join space (split (group m "2")))
                 (strip (replace "Tender Notice:" "" (collapsed_text E f3)))
                 (collapsed_text E f4) None)
              (nonempty_portal_url _) Hf) as [e He].
  pose proof (eq_trans (eq_sym Hv) He) as Heq.
  inversion Heq; subst evs v. simpl in *.
  exists t, e. unfold row. rewrite Hr. repeat split; assumption.
Qed.

Lemma C1_witness :
  (exists t, snd (from_api_response offline sample_row) = Ret (Some t)
             /\ title t = "Rfp123/2025"
             /\ published_date t = None)
  /\ (exists t, snd (from_api_response page_missing sample_row) = Ret (Some t)
                /\ description t = "Upgrade Of N2"
                /\ published_date t = None).
Proof.
  split.
  - edestruct (C1_fetch_failure_keeps_summary_data offline sample_title
                 "Construction" "KwaZulu-Natal" "Tender Notice: Upgrade of N2"
                 "Full text info@sanral.co.za" "2025/12/31 14:00" [])
      as [t [e [Hr [Ht [_ [_ [_ [_ [_ Hp]]]]]]]]].
    + vm_compute. reflexivity.
    + left. exists RequestException. reflexivity.
    + exists t. unfold sample_row. rewrite Hr. simpl.
      split; [reflexivity|]. split; [|exact Hp].
      rewrite Ht. vm_compute. reflexivity.
  - edestruct (C1_fetch_failure_keeps_summary_data page_missing sample_title
                 "Construction" "KwaZulu-Natal" "Tender Notice: Upgrade of N2"
                 "Full text info@sanral.co.za" "2025/12/31 14:00" [])
      as [t [e [Hr [_ [Hd [_ [_ [_ [_ Hp]]]]]]]]].
    + vm_compute. reflexivity.
    + right. eexists _, HTTPError. split; reflexivity.
    + exists t. unfold sample_row. rewrite Hr. simpl.
      split; [reflexivity|]. split; [|exact Hp].
      rewrite Hd. vm_compute. reflexivity.
Defined.

(** C2.  The two numeric formats give back exactly the timestamp that was
    written, for every valid date (and time).  The verbose form is not
    parsed: on the claim's own example the parser returns [None], although
    [strptime] reads that very text with the third format when it is
    handed over untouched.  After the dot and the H have been removed from
    the text, the third format, which still asks for both, fails on every
    input. *)
Theorem C2_verbose_date_is_not_parsed :
  (forall d, valid_datetime d = true ->
             second d = 0%Z -> microsecond d = 0%Z ->
             parse_sanral_date (PStr (numeric_date_time d)) = Ret (Some d))
  /\ (forall d, valid_datetime d = true ->
                hour d = 0%Z -> minute d = 0%Z ->
                second d = 0%Z -> microsecond d = 0%Z ->
                parse_sanral_date (PStr (numeric_date d)) = Ret (Some d))
  /\ parse_sanral_date (PStr "31 December 2025. 14H00") = Ret None
  /\ strptime "31 December 2025. 14H00" verbose_format
     = Ret (mkDatetime 2025 12 31 14 0 0 0)
  /\ (forall cleaned_str,
         try_format cleaned_str verbose_format = Raise ValueError).
Proof.
  split; [exact parse_numeric_date_time|].
  split; [exact parse_numeric_date|].
  split; [vm_compute; reflexivity|].
  split; [vm_compute; reflexivity|].
  exact verbose_format_never_matches.
Qed.

Lemma C2_witness :
  parse_sanral_date (PStr "2025/12/31 14:00")
  = Ret (Some (mkDatetime 2025 12 31 14 0 0 0))
  /\ parse_sanral_date (PStr "31/12/2025")
     = Ret (Some (mkDatetime 2025 12 31 0 0 0 0)).
Proof.
  split.
  - apply (proj1 C2_verbose_date_is_not_parsed
             (mkDatetime 2025 12 31 14 0 0 0)); reflexivity.
  - apply (proj1 (proj2 C2_verbose_date_is_not_parsed)
             (mkDatetime 2025 12 31 0 0 0 0)); reflexivity.
Defined.

(** C3.  An input that is not a list, or a list of fewer than six
    elements, makes [from_api_response] return [None]: nothing is raised,
    and nothing is fetched or logged either. *)
Theorem C3_malformed_row_rejected (E : externals) (response_item : pyval) :
  isinstance_list response_item = false
  \/ (exists items, response_item = PList items /\ length items < 6) ->
  from_api_response E response_item = ([], Ret None).
Proof.
  intros [H|[items [-> H]]].
  - destruct response_item; try reflexivity. discriminate.
  - unfold from_api_response.
    apply Nat.ltb_lt in H. now rewrite H.
Qed.

Lemma C3_witness :
  from_api_response offline (PList [PStr "Only one item"]) = ([], Ret None).
Proof.
  apply C3_malformed_row_rejected. right.
  exists [PStr "Only one item"]. split; [reflexivity | simpl; lia].
Defined.

(** C4.  The e-mail is read from the final notice text: the fifth field
    of the row, decoded and collapsed, unless a served detail page gave the
    notice cell.  When no part of that text matches the e-mail pattern the
    e-mail is empty.  Else the text is [before ++ m ++ after] where [m]
    matches the pattern, nothing in [after] matches it, and no letter
    follows [m]; [m] is the last entry of what [findall] reports, and the
    e-mail is [m] with its capital letters made small: as long as [m] and
    free of capital letters. *)
Theorem C4_email_is_last_match (E : externals) (response_item : pyval)
  (evs : list event) (t : SanralTender) :
  from_api_response E response_item = (evs, Ret (Some t)) ->
  exists text,
    full_notice_text t = Text.title text
    /\ notice_text_source E response_item text
    /\ ((forall m, ~ occurs email_re m text) -> email t = [])
    /\ ((exists m, occurs email_re m text) ->
        exists ms before m after,
          findall email_re text = ms ++ [m]
          /\ text = before ++ m ++ after
          /\ (exists g, matches email_re m [] g)
          /\ (forall m', ~ occurs email_re m' after)
          /\ no_letter_next after
          /\ email t = lower m
          /\ lower_cased (email t) = true
          /\ length (email t) = length m).
Proof.
  intros H.
  destruct (final_notice_text E response_item evs t H)
    as (text & Hsrc & Hx & He).
  exists text. split; [exact Hx|]. split; [exact Hsrc|].
  rewrite He.
  destruct (extract_email_last text)
    as [[Hno Hem]|(ms & before & m & after & Hf & Ht & Hm & Ha & Hn & Hem)].
  - split; [intros _; exact Hem|].
    intros [m Hm]. elim (Hno m Hm).
  - split.
    + intros Hno. destruct Hm as [g Hg]. elim (Hno m).
      exists before, after, g. auto.
    + intros _. exists ms, before, m, after. rewrite Hem.
      split; [exact Hf|]. split; [exact Ht|]. split; [exact Hm|].
      split; [exact Ha|]. split; [exact Hn|]. split; [reflexivity|].
      split; [apply lower_is_lower_cased | apply length_map].
Qed.

Lemma C4_witness :
  exists evs t,
    from_api_response offline
      (row sample_title "Construction" "KwaZulu-Natal" "Upgrade of N2"
           "Ask First.Person@Sanral.co.za, or  Tenders@NRA.co.za. Thanks"
           "2025/12/31 14:00" [])
    = (evs, Ret (Some t))
    /\ email t = "tenders@nra.co.za"
    /\ exists before m after,
        list_ascii_of_string
          "Ask First.Person@Sanral.co.za, or Tenders@NRA.co.za. Thanks"
        = before ++ m ++ after
        /\ (forall m', ~ occurs email_re m' after)
        /\ email t = lower m.
Proof.
  eexists _, _. split; [vm_compute; reflexivity|].
  split; [vm_compute; reflexivity|].
  edestruct (C4_email_is_last_match offline
               (row sample_title "Construction" "KwaZulu-Natal" "Upgrade of N2"
                  "Ask First.Person@Sanral.co.za, or  Tenders@NRA.co.za. Thanks"
                  "2025/12/31 14:00" []))
    as (text & _ & Hsrc & _ & Hm); [vm_compute; reflexivity|].
  assert (Ht : text = list_ascii_of_string
            "Ask First.Person@Sanral.co.za, or Tenders@NRA.co.za. Thanks").
  { destruct Hsrc as [(items & f4 & Hi & Hf & ->)
                     |(items & f0 & m & resp & Hi & _ & _ & Hg & _)].
    - inversion Hi; subst items. cbn in Hf. inversion Hf; subst f4.
      vm_compute. reflexivity.
    - discriminate Hg. }
  subst text.
  destruct Hm as (ms & before & m & after & _ & Hs & _ & Ha & _ & He & _).
  { eexists. apply findall_sound. vm_compute. left. reflexivity. }
  exists before, m, after. auto.
Defined.

(** C5.  For a row of six text fields: when the title carries no
    hyperlink the tender has the number N/A, no request is made (nothing is
    fetched or logged), there is no supporting document and no published
    date; when it carries one, the detail page is requested and the
    supporting documents are exactly one entry named Tender Details whose
    URL is the portal origin followed by the path of the link. *)
Theorem C5_link_decides_enrichment
  (E : externals) (f0 f1 f2 f3 f4 f5 : str) (more : list pyval) :
  (link_of E f0 = None ->
   exists t,
     from_api_response E (row f0 f1 f2 f3 f4 f5 more) = ([], Ret (Some t))
     /\ tender_number t = "N/A"
     /\ supporting_docs t = []
     /\ published_date t = None)
  /\ (forall m, link_of E f0 = Some m ->
      exists evs t,
        from_api_response E (row f0 f1 f2 f3 f4 f5 more)
        = (HttpGet (portal_origin ++ group m "1") :: evs, Ret (Some t))
        /\ supporting_docs t
           = [mkSupportingDoc "Tender Details"
                (portal_origin ++ group m "1")]).
Proof.
  destruct (row_outcome E f0 f1 f2 f3 f4 (PStr f5) more)
    as [evs [v [cd [t [Hr [_ [Hv [_ [_ [_ [Hp [_ [Hs [_ [Hn _]]]]]]]]]]]]]]].
  split.
  - intros Hm. rewrite Hm in *. simpl in *.
    inversion Hv; subst evs v. simpl in *.
    exists t. unfold row. rewrite Hr. repeat split; assumption.
  - intros m Hm. destruct (link_found E f0 m Hm) as [Hl _].
    rewrite Hl in *. cbn [fst snd] in *.
    destruct (enrich_requests E _ _ _ _ _ (nonempty_portal_url _) Hv) as [evs' He].
    subst evs.
    exists evs', t. unfold row. rewrite Hr. split; [reflexivity|].
    rewrite Hs. unfold doc_list_of. now rewrite nonempty_portal_url.
Qed.

Lemma C5_witness :
  (exists t,
      from_api_response offline
        (row "RFP9/2025" "Maintenance" "Western Cape" "Resurfacing"
             "Full text" "2025/12/31 14:00" [])
      = ([], Ret (Some t))
      /\ tender_number t = "N/A")
  /\ (exists evs t,
         snd (from_api_response offline sample_row) = Ret (Some t)
         /\ fst (from_api_response offline sample_row)
            = HttpGet "https://www.nra.co.za/tender/123" :: evs
         /\ length (supporting_docs t) = 1).
Proof.
  split.
  - destruct (proj1 (C5_link_decides_enrichment offline "RFP9/2025"
                       "Maintenance" "Western Cape" "Resurfacing"
                       "Full text" "2025/12/31 14:00" []))
      as [t [Hr [Hn _]]]; [vm_compute; reflexivity|].
    exists t. auto.
  - edestruct (proj2 (C5_link_decides_enrichment offline sample_title
                       "Construction" "KwaZulu-Natal"
                       "Tender Notice: Upgrade of N2"
                       "Full text info@sanral.co.za" "2025/12/31 14:00" []))
      as [evs [t [Hr Hs]]]; [vm_compute; reflexivity|].
    exists evs, t. unfold sample_row. rewrite Hr, Hs. repeat split.
Defined.




(** C7.  [to_dict] gives the twelve entries below, in this order and under
    these names; a date that is present is written by [isoformat], which
    has the ISO-8601 shape, and one that is absent is [None]; the tags and
    the supporting documents are lists, also when the constructor was given
    none. *)
Theorem C7_to_dict_shape (t : SanralTender) :
  to_dict t
  = [(key "title", PStr (title t));
     (key "description", PStr (description t));
     (key "source", PStr (source t));
     (key "publishedDate",
       match published_date t with
       | Some d => PStr (isoformat d)
       | None => PNone
       end);
     (key "closingDate",
       match closing_date t with
       | Some d => PStr (isoformat d)
       | None => PNone
       end);
     (key "supporting_docs",
       PList (map (fun doc => PDict [(key "name", PStr (name doc));
                                     (key "url", PStr (url doc))])
                  (supporting_docs t)));
     (key "tags", PList (map PStr (tags t)));
     (key "tenderNumber", PStr (tender_number t));
     (key "category", PStr (category t));
     (key "region", PStr (region t));
     (key "email", PStr (email t));
     (key "fullNoticeText", PStr (full_notice_text t))]
  /\ (forall d, iso_8601 (isoformat d) = true)
  /\ (forall title description source published_date closing_date
             tender_number category region email full_notice_text,
         let t0 := SanralTender_init title description source published_date
                     closing_date None None tender_number category region
                     email full_notice_text in
         dict_get (to_dict t0) "supporting_docs" = Some (PList [])
         /\ dict_get (to_dict t0) "tags" = Some (PList [])).
Proof.
  split; [reflexivity|]. split; [apply isoformat_iso_8601|].
  intros. split; reflexivity.
Qed.

(** C8, as the code has it.  The provisional description of a row is its
    fourth field decoded and collapsed, without the occurrences of the
    literal Tender Notice:, wherever they are, and then trimmed: there is
    one text [r] that is the collapsed text with every occurrence cut out,
    found from the left, and the description is [r] trimmed.  When the
    literal does not occur the collapsed text is kept as it is; when it
    occurs as the leading prefix and nowhere in what follows, what follows
    is kept, trimmed. *)
Theorem C8_description_cleanup (E : externals) (f3 : str) :
  (exists r,
      cut_out "Tender Notice:" (collapsed_text E f3) r
      /\ (forall r', cut_out "Tender Notice:" (collapsed_text E f3) r' ->
                     r' = r)
      /\ initial_description_of E (PStr f3) = Ret (strip r))
  /\ (~ occurs_in "Tender Notice:" (collapsed_text E f3) ->
      initial_description_of E (PStr f3) = Ret (collapsed_text E f3))
  /\ (forall rest,
         collapsed_text E f3 = "Tender Notice:" ++ rest ->
         ~ occurs_in "Tender Notice:" rest ->
         initial_description_of E (PStr f3) = Ret (strip rest)).
Proof.
  assert (Hne : list_ascii_of_string "Tender Notice:" <> []) by discriminate.
  assert (Hno : forall s, ~ occurs_in "Tender Notice:" s ->
                          replace "Tender Notice:" "" s = s).
  { intros s Hs. symmetry. apply cut_out_replace; [exact Hne|].
    now apply cut_none. }
  rewrite initial_description_str. split; [|split].
  - exists (replace "Tender Notice:" "" (collapsed_text E f3)).
    split; [now apply replace_cut_out|]. split; [|reflexivity].
    intros r' Hr'. now apply cut_out_replace.
  - intros H. now rewrite Hno, collapsed_text_trimmed.
  - intros rest Hc Hr. rewrite Hc, replace_prefix by exact Hne.
    now rewrite Hno.
Qed.

Lemma C8_witness :
  initial_description_of offline (PStr "Tender Notice: Upgrade of N2")
  = Ret (list_ascii_of_string "Upgrade of N2")
  /\ initial_description_of offline
       (PStr (list_ascii_of_string "  Upgrade " ++ [ascii_of_nat 160]
              ++ list_ascii_of_string "  of N2 "))
     = Ret (list_ascii_of_string "Upgrade of N2")
  /\ initial_description_of offline
       (PStr "Tender Notice: Lot 1 Tender Notice: Lot 2")
     = Ret (list_ascii_of_string "Lot 1  Lot 2").
Proof.
  split; [|split].
  - apply (proj2 (proj2 (C8_description_cleanup offline
                           "Tender Notice: Upgrade of N2"))
             " Upgrade of N2"); [reflexivity|].
    apply not_occurs_in. reflexivity.
  - apply (proj1 (proj2 (C8_description_cleanup offline
                           (list_ascii_of_string "  Upgrade "
                            ++ [ascii_of_nat 160]
                            ++ list_ascii_of_string "  of N2 ")))).
    apply not_occurs_in. reflexivity.
  - destruct (proj1 (C8_description_cleanup offline
                       "Tender Notice: Lot 1 Tender Notice: Lot 2"))
      as (r & Hcut & _ & Hd).
    rewrite Hd. apply cut_out_replace in Hcut; [|discriminate].
    rewrite Hcut. vm_compute. reflexivity.
Defined.

(** C8, as claimed, fails: an occurrence of the literal that is not the
    leading prefix is removed too, and the blanks around it stay. *)
Lemma C8_counterexample :
  initial_description_of offline (PStr "Re: Tender Notice: N2 upgrade")
  = Ret (list_ascii_of_string "Re:  N2 upgrade")
  /\ description_by_prefix offline "Re: Tender Notice: N2 upgrade"
     = "Re: Tender Notice: N2 upgrade"
  /\ ~ (forall E f3,
           initial_description_of E (PStr f3)
           = Ret (description_by_prefix E f3)).
Proof.
  split; [vm_compute; reflexivity|]. split; [vm_compute; reflexivity|].
  intros H. specialize (H offline "Re: Tender Notice: N2 upgrade").
  vm_compute in H. discriminate.
Qed.

(** C9.  [parse_sanral_date] returns on every input and raises on none; on
    the empty string and on a value that is not a string it returns
    [None].  On a string that none of the formats matches it need not
    return [None]: the first format is tried on the text without its full
    stops and capital letters H, so such a string gives the date that the
    shortened text denotes in the first format when it denotes one, and
    [None] otherwise.  The text H2025/12/31 14:00 is matched by no format
    and gives a date. *)
Theorem C9_parse_sanral_date_total_but_lenient :
  (forall date_str, exists r, parse_sanral_date date_str = Ret r)
  /\ parse_sanral_date (PStr "") = Ret None
  /\ (forall date_str, isinstance_str date_str = false ->
                       parse_sanral_date date_str = Ret None)
  /\ (forall s,
         (forall fmt, In fmt formats_to_try ->
                      strptime (strip s) fmt = Raise ValueError) ->
         parse_sanral_date (PStr s)
         = match strptime (replace "H" "" (replace "." "" (strip s)))
                   "%Y/%m/%d %H:%M" with
           | Ret d => Ret (Some d)
           | Raise _ => Ret None
           end)
  /\ ((forall fmt, In fmt formats_to_try ->
                    strptime "H2025/12/31 14:00" fmt = Raise ValueError)
      /\ parse_sanral_date (PStr "H2025/12/31 14:00")
         = Ret (Some (mkDatetime 2025 12 31 14 0 0 0))).
Proof.
  split; [apply parse_sanral_date_total|].
  split; [reflexivity|].
  split.
  { intros date_str H. unfold parse_sanral_date. now rewrite H, orb_true_r. }
  split; [apply parse_unmatched|].
  split; [|vm_compute; reflexivity].
  intros fmt [<-|[<-|[<-|[]]]]; vm_compute; reflexivity.
Qed.

Lemma C9_witness :
  parse_sanral_date (PStr "to be announced") = Ret None
  /\ parse_sanral_date (PStr "2025/12/31 14:00.")
     = Ret (Some (mkDatetime 2025 12 31 14 0 0 0))
  /\ parse_sanral_date (PInt 20251231) = Ret None.
Proof.
  destruct C9_parse_sanral_date_total_but_lenient
    as (_ & _ & Hother & Hunmatched & _).
  split; [|split].
  - rewrite (Hunmatched "to be announced"); [vm_compute; reflexivity|].
    intros fmt [<-|[<-|[<-|[]]]]; vm_compute; reflexivity.
  - rewrite (Hunmatched "2025/12/31 14:00."); [vm_compute; reflexivity|].
    intros fmt [<-|[<-|[<-|[]]]]; vm_compute; reflexivity.
  - apply Hother. reflexivity.
Defined.

(** C10.  A list of six elements whose category is [None] makes
    [from_api_response] raise; the loop of the handler counts a row that
    raised as skipped, logs it, keeps the tenders it has, and goes on with
    the rows that follow. *)
Theorem C10_raising_row_is_skipped_by_the_loop :
  (exists items,
      6 <= length items /\ nth 1 items PNone = PNone
      /\ forall E, from_api_response E (PList items) = ([], Raise AttributeError))
  /\ (forall E item evs e log processed_tenders skipped_count,
         from_api_response E item = (evs, Raise e) ->
         process_item E (log, (processed_tenders, skipped_count)) item
         = (log ++ evs ++ [LogWarning (SkippingTender e item)],
            (processed_tenders, S skipped_count)))
  /\ (forall E before item after,
         process_items E (before ++ item :: after)
         = fold_left (process_item E) after
             (process_item E (process_items E before) item)).
Proof.
  split; [|split].
  - exists [PStr "RFP9/2025"; PNone; PStr "Western Cape"; PStr "Resurfacing";
            PStr "Full text"; PStr "2025/12/31 14:00"].
    split; [simpl; lia|]. split; [reflexivity|].
    intros E. vm_compute. reflexivity.
  - intros E item evs e log processed_tenders skipped_count H.
    unfold process_item. now rewrite H.
  - intros E before item after. unfold process_items.
    now rewrite fold_left_app.
Qed.

Lemma C10_witness :
  process_item offline ([], ([], 0)) row_without_category
  = ([LogWarning (SkippingTender AttributeError row_without_category)],
     ([], 1)).
Proof.
  apply (proj1 (proj2 C10_raising_row_is_skipped_by_the_loop)
           offline row_without_category [] AttributeError [] [] 0).
  vm_compute. reflexivity.
Defined.

(* ================================================================== *)
(** * More properties: the handler, the loop and the scraper *)

Import Handler Spec2.

(* ------------------------------------------------------------------ *)
(** ** Batches *)

Lemma message_batches_nil {X} : message_batches (@nil X) = [].
Proof. reflexivity. Qed.

Lemma message_batches_cons {X} (l : list X) :
  l <> [] ->
  message_batches l = firstn batch_size l :: message_batches (skipn batch_size l).
Proof.
  intros Hne. unfold message_batches, py_range, slice, batch_size.
  rewrite length_skipn.
  assert (Hn : 0 < length l) by (destruct l; [congruence | simpl; lia]).
  assert (Hd : (length l - 0 + 10 - 1) / 10
               = S ((length l - 10 - 0 + 10 - 1) / 10)).
  { destruct (le_lt_dec 10 (length l)) as [Hle|Hlt].
    - replace (length l - 0 + 10 - 1)
        with ((length l - 10 - 0 + 10 - 1) + 1 * 10) by lia.
      rewrite Nat.div_add by discriminate. lia.
    - replace (length l - 0 + 10 - 1) with ((length l - 1) + 1 * 10) by lia.
      rewrite Nat.div_add by discriminate.
      replace (length l - 10 - 0 + 10 - 1) with 9 by lia.
      rewrite Nat.div_small by lia. reflexivity. }
  rewrite Hd. cbn [seq map]. f_equal.
  rewrite <- seq_shift, !map_map.
  apply map_ext. intros k.
  replace (0 + S k * 10 + 10 - (0 + S k * 10)) with 10 by lia.
  replace (0 + k * 10 + 10 - (0 + k * 10)) with 10 by lia.
  rewrite skipn_skipn. f_equal. f_equal. lia.
Qed.

(** An induction principle that follows the batches. *)
Lemma batches_ind {X} (P : list X -> Prop) :
  P [] ->
  (forall l, l <> [] -> P (skipn batch_size l) -> P l) ->
  forall l, P l.
Proof.
  intros H0 Hstep l.
  assert (H : forall n l, length l <= n -> P l).
  { induction n as [|n IH]; intros l' Hl.
    - destruct l'; [exact H0 | simpl in Hl; lia].
    - destruct l' as [|x l'']; [exact H0|].
      apply Hstep; [discriminate|]. apply IH.
      rewrite length_skipn. unfold batch_size. cbn [length] in *. lia. }
  apply (H (length l)). lia.
Qed.

Lemma message_batches_concat {X} (l : list X) :
  concat (message_batches l) = l.
Proof.
  induction l as [|l Hne IH] using batches_ind; [reflexivity|].
  rewrite message_batches_cons by assumption. cbn [concat].
  rewrite IH. apply firstn_skipn.
Qed.

Lemma message_batches_sizes {X} (l : list X) :
  Forall (fun b => 1 <= length b <= batch_size) (message_batches l).
Proof.
  induction l as [|l Hne IH] using batches_ind; [constructor|].
  rewrite message_batches_cons by assumption. constructor; [|exact IH].
  rewrite length_firstn. unfold batch_size.
  destruct l; [congruence | cbn [length]; lia].
Qed.

Lemma message_batches_count {X} (l : list X) :
  length (message_batches l) = (length l + 9) / 10.
Proof.
  unfold message_batches, py_range, batch_size.
  rewrite !length_map, length_seq. f_equal. lia.
Qed.

Lemma message_batches_full {X} (l : list X) (before after : list (list X))
  (b : list X) :
  message_batches l = before ++ b :: after -> after <> [] ->
  length b = batch_size.
Proof.
  revert before. induction l as [|l Hne IH] using batches_ind;
    intros before Hb Ha.
  - destruct before; discriminate.
  - rewrite message_batches_cons in Hb by assumption.
    remember (firstn batch_size l) as c eqn:Hc.
    remember (message_batches (skipn batch_size l)) as r eqn:Hr.
    destruct before as [|b0 before]; cbn [app] in Hb;
      injection Hb as Hb1 Hb2.
    + subst c b after. rewrite length_firstn. apply Nat.min_l.
      destruct (le_lt_dec batch_size (length l)) as [Hle|Hlt]; [exact Hle|].
      exfalso. apply Ha. rewrite Hr, skipn_all2 by lia. reflexivity.
    + subst r. now apply (IH before).
Qed.
(* ------------------------------------------------------------------ *)
(** ** Message identifiers *)

Lemma str_of_nat_inj (a b : nat) : str_of_nat a = str_of_nat b -> a = b.
Proof.
  unfold str_of_nat. intros H.
  apply (f_equal string_of_list_ascii) in H.
  rewrite !string_of_list_ascii_of_string in H.
  apply (f_equal NilEmpty.uint_of_string) in H.
  rewrite !NilEmpty.usu in H. injection H as H.
  apply (f_equal Nat.of_uint) in H.
  now rewrite !DecimalNat.Unsigned.of_to in H.
Qed.

Lemma uint_no_underscore (d : Decimal.uint) :
  ~ In "_"%char (list_ascii_of_string (NilEmpty.string_of_uint d)).
Proof.
  induction d; simpl; try tauto; intros [H|H]; try discriminate; auto.
Qed.

Lemma str_of_nat_no_underscore (n : nat) : ~ In "_"%char (str_of_nat n).
Proof. apply uint_no_underscore. Qed.

Lemma split_at_mark (x : ascii) (s1 s2 t1 t2 : str) :
  ~ In x s1 -> ~ In x s2 ->
  s1 ++ x :: t1 = s2 ++ x :: t2 -> s1 = s2 /\ t1 = t2.
Proof.
  revert s2. induction s1 as [|c s1 IH]; intros [|c' s2] H1 H2 H;
    simpl in *.
  - inversion H. auto.
  - inversion H; subst. tauto.
  - inversion H; subst. tauto.
  - inversion H; subst.
    destruct (IH s2) as [-> ->]; auto.
Qed.

Lemma message_id_inj (b i b' i' : nat) :
  message_id b i = message_id b' i' -> b = b' /\ i = i'.
Proof.
  unfold message_id. intros H. apply app_inv_head in H.
  apply split_at_mark in H; try apply str_of_nat_no_underscore.
  destruct H as [Hb Hi]. split; now apply str_of_nat_inj.
Qed.

Lemma enumerate_fst {X} (l : list X) (a : nat) :
  map fst (combine (seq a (length l)) l) = seq a (length l).
Proof.
  revert a; induction l as [|x l IH]; intros a; [reflexivity|].
  simpl. now rewrite IH.
Qed.

Lemma enumerate_snd {X} (l : list X) (a : nat) :
  map snd (combine (seq a (length l)) l) = l.
Proof.
  revert a; induction l as [|x l IH]; intros a; [reflexivity|].
  simpl. now rewrite IH.
Qed.

Lemma entries_of_ids (Sv : services) (b : nat) (batch : list pydict) :
  map Id (entries_of Sv b batch) = map (message_id b) (seq 0 (length batch)).
Proof.
  unfold entries_of, enumerate. rewrite map_map. cbn [Id].
  rewrite <- (map_map fst (message_id b)). now rewrite enumerate_fst.
Qed.

Lemma entries_of_bodies (Sv : services) (b : nat) (batch : list pydict) :
  map MessageBody (entries_of Sv b batch)
  = map (fun d => json_dumps Sv (PDict d)) batch.
Proof.
  unfold entries_of, enumerate. rewrite map_map. cbn [MessageBody].
  rewrite <- (map_map snd (fun d => json_dumps Sv (PDict d))).
  now rewrite enumerate_snd.
Qed.

Lemma entries_of_length (Sv : services) (b : nat) (batch : list pydict) :
  length (entries_of Sv b batch) = length batch.
Proof.
  rewrite <- (length_map Id), entries_of_ids, length_map. apply length_seq.
Qed.

Lemma ids_from (Sv : services) (batches : list (list pydict)) (a : nat) (x : str) :
  In x (map Id (flat_map (fun ib => entries_of Sv (fst ib) (snd ib))
                         (combine (seq a (length batches)) batches))) ->
  exists b i, a <= b /\ x = message_id b i.
Proof.
  revert a; induction batches as [|batch batches IH]; intros a; simpl;
    [tauto|].
  rewrite map_app, in_app_iff, entries_of_ids. intros [H|H].
  - apply in_map_iff in H. destruct H as [i [<- _]]. exists a, i. auto.
  - destruct (IH (S a) H) as [b [i [Hb ->]]]. exists b, i. split; [lia | auto].
Qed.

Lemma NoDup_map_injective {X Y} (f : X -> Y) (l : list X) :
  (forall a b, f a = f b -> a = b) -> NoDup l -> NoDup (map f l).
Proof.
  intros Hf. induction 1 as [|x l Hx Hl IH]; simpl; constructor; auto.
  intros H. apply in_map_iff in H. destruct H as [y [Hy Hin]].
  apply Hf in Hy. now subst y.
Qed.

Lemma ids_nodup (Sv : services) (batches : list (list pydict)) (a : nat) :
  NoDup (map Id (flat_map (fun ib => entries_of Sv (fst ib) (snd ib))
                          (combine (seq a (length batches)) batches))).
Proof.
  revert a; induction batches as [|batch batches IH]; intros a; simpl;
    [constructor|].
  rewrite map_app, entries_of_ids. apply NoDup_app.
  - apply NoDup_map_injective; [|apply seq_NoDup].
    intros i j H. now apply message_id_inj in H.
  - apply IH.
  - intros x H1 H2. apply in_map_iff in H1. destruct H1 as [i [<- _]].
    apply ids_from in H2. destruct H2 as [b [j [Hb H]]].
    apply message_id_inj in H. lia.
Qed.

(* ------------------------------------------------------------------ *)
(** ** The sending loop *)

Lemma sends_app (l1 l2 : list hevent) : sends (l1 ++ l2) = sends l1 ++ sends l2.
Proof.
  induction l1 as [|ev l1 IH]; [reflexivity|].
  destruct ev; simpl; now rewrite IH.
Qed.

Lemma item_events_app (l1 l2 : list hevent) :
  item_events (l1 ++ l2) = item_events l1 ++ item_events l2.
Proof.
  induction l1 as [|ev l1 IH]; [reflexivity|].
  destruct ev; simpl; now rewrite IH.
Qed.

Lemma sends_map_Item (evs : list event) : sends (map Item evs) = [].
Proof. induction evs; [reflexivity | assumption]. Qed.

Lemma item_events_map_Item (evs : list event) :
  item_events (map Item evs) = evs.
Proof. induction evs as [|ev evs IH]; [reflexivity | simpl; now rewrite IH]. Qed.

Lemma entries_of_nonempty (Sv : services) (b : nat) (batch : list pydict) :
  batch <> [] -> entries_of Sv b batch <> [].
Proof.
  intros Hb He. apply (f_equal (@length entry)) in He.
  rewrite entries_of_length in He. destruct batch; [congruence | discriminate].
Qed.

(** Whatever the queue answers, a batch that is not empty is offered to
    it exactly once. *)
Lemma send_batch_sends (Sv : services) (log : list hevent) (n : nat)
  (ib : nat * list pydict) :
  snd ib <> [] ->
  sends (fst (send_batch Sv (log, n) ib))
  = sends log ++ [entries_of Sv (fst ib) (snd ib)].
Proof.
  intros Hb. unfold send_batch.
  pose proof (entries_of_nonempty Sv (fst ib) (snd ib) Hb) as He.
  destruct (entries_of Sv (fst ib) (snd ib)) as [|e es] eqn:Hes; [congruence|].
  destruct (send_message_batch Sv (e :: es)) as [response|x];
    [|cbn [fst]; now rewrite sends_app].
  destruct (py_len _) as [k|x]; cbn [fst]; rewrite sends_app; [|reflexivity].
  rewrite sends_app. cbn [sends].
  destruct (dict_get response "Failed") as [failed|]; [|reflexivity].
  destruct (truthy failed); reflexivity.
Qed.

Lemma send_batch_state (Sv : services) (st : list hevent * nat)
  (ib : nat * list pydict) :
  send_batch Sv st ib
  = send_batch Sv (fst st, snd st) ib.
Proof. now destruct st. Qed.

Lemma fold_send_sends (Sv : services) (L : list (nat * list pydict)) :
  Forall (fun ib => snd ib <> []) L ->
  forall st,
    sends (fst (fold_left (send_batch Sv) L st))
    = sends (fst st) ++ map (fun ib => entries_of Sv (fst ib) (snd ib)) L.
Proof.
  induction 1 as [|ib L Hib HL IH]; intros st; simpl.
  - now rewrite app_nil_r.
  - rewrite IH, send_batch_state, send_batch_sends by assumption.
    now rewrite <- app_assoc.
Qed.

Lemma enumerate_Forall_snd {X} (P : X -> Prop) (l : list X) (a : nat) :
  Forall P l -> Forall (fun ib => P (snd ib)) (combine (seq a (length l)) l).
Proof.
  intros H. revert a. induction H as [|x l Hx Hl IH]; intros a; simpl;
    constructor; auto.
Qed.

Lemma batches_nonempty {X} (l : list X) :
  Forall (fun b => b <> []) (message_batches l).
Proof.
  eapply Forall_impl; [|apply message_batches_sizes].
  intros b [Hb _] ->. simpl in Hb. lia.
Qed.

Lemma send_all_sends (Sv : services) (dicts : list pydict) :
  sends (fst (send_all Sv dicts))
  = map (fun ib => entries_of Sv (fst ib) (snd ib))
        (enumerate (message_batches dicts)).
Proof.
  unfold send_all. rewrite fold_send_sends; [reflexivity|].
  apply (enumerate_Forall_snd (fun b => b <> [])), batches_nonempty.
Qed.

Lemma concat_sends_all_entries (Sv : services) (dicts : list pydict) :
  concat (sends (fst (send_all Sv dicts))) = all_entries Sv dicts.
Proof.
  rewrite send_all_sends. unfold all_entries. now rewrite flat_map_concat_map.
Qed.

Lemma all_entries_bodies (Sv : services) (dicts : list pydict) :
  map MessageBody (all_entries Sv dicts)
  = map (fun d => json_dumps Sv (PDict d)) dicts.
Proof.
  unfold all_entries, enumerate.
  rewrite <- (message_batches_concat dicts) at 3.
  generalize 0. induction (message_batches dicts) as [|b bs IH]; intros a;
    [reflexivity|].
  simpl. rewrite !map_app, entries_of_bodies, IH. reflexivity.
Qed.

Lemma all_entries_group (Sv : services) (dicts : list pydict) :
  Forall (fun e => MessageGroupId e = "SanralTenderScrape")
         (all_entries Sv dicts).
Proof.
  unfold all_entries. apply Forall_flat_map, Forall_forall.
  intros ib _. unfold entries_of. apply Forall_map, Forall_forall.
  intros it _. reflexivity.
Qed.

Lemma fold_send_count (Sv : services) (L : list (nat * list pydict)) :
  accepts_all Sv ->
  forall st,
    snd (fold_left (send_batch Sv) L st)
    = snd st + length (concat (map snd L)).
Proof.
  intros Ha. induction L as [|ib L IH]; intros st; simpl; [lia|].
  rewrite IH, length_app. destruct st as [log n]. unfold send_batch.
  destruct (entries_of Sv (fst ib) (snd ib)) as [|e es] eqn:Hes.
  - apply (f_equal (@length entry)) in Hes. rewrite entries_of_length in Hes.
    simpl in *. lia.
  - destruct (Ha (e :: es)) as [response [ok [Hs [Hg Hl]]]].
    rewrite Hs, Hg. cbn [py_len snd]. rewrite Hl, <- Hes, entries_of_length.
    lia.
Qed.

Lemma send_all_count (Sv : services) (dicts : list pydict) :
  accepts_all Sv -> snd (send_all Sv dicts) = length dicts.
Proof.
  intros Ha. unfold send_all, enumerate.
  rewrite fold_send_count by assumption.
  now rewrite enumerate_snd, message_batches_concat.
Qed.

(* ------------------------------------------------------------------ *)
(** ** The loop over the rows *)

Lemma process_item_spec (E : externals) (log : list event)
  (processed : list SanralTender) (skipped : nat) (item : pyval) :
  exists evs,
    process_item E (log, (processed, skipped)) item
    = (log ++ evs,
       (processed ++ tender_of E item,
        skipped + (1 - length (tender_of E item)))).
Proof.
  unfold process_item, tender_of.
  destruct (from_api_response E item) as [evs [[t|]|e]]; cbn [snd length].
  - exists evs. now rewrite Nat.add_0_r.
  - exists evs. now rewrite app_nil_r, Nat.add_1_r.
  - exists (evs ++ [LogWarning (SkippingTender e item)]).
    now rewrite app_nil_r, Nat.add_1_r.
Qed.

Lemma fold_process_spec (E : externals) (rows : list pyval) :
  forall log processed skipped,
  exists evs,
    fold_left (process_item E) rows (log, (processed, skipped))
    = (log ++ evs,
       (processed ++ flat_map (tender_of E) rows,
        skipped + (length rows - length (flat_map (tender_of E) rows)))).
Proof.
  induction rows as [|item rows IH]; intros log processed skipped.
  - exists []. simpl. now rewrite !app_nil_r, Nat.add_0_r.
  - cbn [fold_left].
    destruct (process_item_spec E log processed skipped item) as [evs ->].
    destruct (IH (log ++ evs) (processed ++ tender_of E item)
                (skipped + (1 - length (tender_of E item)))) as [evs' ->].
    exists (evs ++ evs'). rewrite <- !app_assoc. cbn [flat_map].
    f_equal. f_equal. rewrite length_app. cbn [length].
    assert (H1 : length (tender_of E item) <= 1).
    { unfold tender_of. destruct (snd _) as [[t|]|e]; simpl; lia. }
    assert (H2 : length (flat_map (tender_of E) rows) <= length rows).
    { clear. induction rows as [|r rows IH]; simpl; [lia|].
      rewrite length_app.
      assert (length (tender_of E r) <= 1).
      { unfold tender_of. destruct (snd _) as [[t|]|e]; simpl; lia. }
      lia. }
    lia.
Qed.

Lemma process_items_spec (E : externals) (rows : list pyval) :
  exists evs,
    process_items E rows
    = (evs,
       (flat_map (tender_of E) rows,
        length rows - length (flat_map (tender_of E) rows))).
Proof.
  unfold process_items.
  destruct (fold_process_spec E rows [] [] 0) as [evs H].
  exists evs. exact H.
Qed.

(* ------------------------------------------------------------------ *)
(** ** The handler *)

Lemma fetch_rows_unavailable (Sv : services) :
  feed_unavailable Sv ->
  exists log message,
    fetch_rows Sv = (log, Ret (Return (bad_gateway Sv message)))
    /\ sends log = [] /\ item_events log = [].
Proof.
  unfold fetch_rows, fetch_failed.
  intros [[e [-> He]]|[r [-> [Hs|[b Hj]]]]].
  - rewrite He. eexists _, _. repeat split.
  - rewrite Hs. eexists _, _. repeat split.
  - destruct (feed_status_error r); [eexists _, _; repeat split|].
    rewrite Hj. destruct b; eexists _, _; repeat split.
Qed.

Lemma py_int_lt_number (n : nat) (v : pyval) :
  is_number v = true -> exists b, py_int_lt n v = Ret b.
Proof. destruct v; try discriminate; simpl; eauto. Qed.

Lemma fetch_rows_gives (Sv : services) (d : pydict) (rows : list pyval) :
  feed_gives Sv d rows ->
  exists log,
    fetch_rows Sv = (log, Ret (Rows (PList rows)))
    /\ sends log = [] /\ item_events log = [].
Proof.
  intros [r [Hg [Hs [Hj [Ht Hn]]]]].
  unfold fetch_rows. rewrite Hg, Hs, Hj. cbn [py_get].
  assert (Hrows : match dict_get d "tenders" with
                  | Some x => x
                  | None => PList []
                  end = PList rows).
  { destruct (dict_get d "tenders"); [exact Ht | now subst rows]. }
  rewrite Hrows. cbn [py_len].
  destruct (py_int_lt_number (length rows)
              match dict_get d "total_filtered" with
              | Some x => x
              | None => PInt 0
              end) as [b Hb].
  { destruct (dict_get d "total_filtered"); [exact Hn | reflexivity]. }
  rewrite Hb. destruct b; eexists; repeat split.
Qed.

Lemma send_batch_no_items (Sv : services) (st : list hevent * nat)
  (ib : nat * list pydict) :
  item_events (fst (send_batch Sv st ib)) = item_events (fst st).
Proof.
  destruct st as [log n]. unfold send_batch.
  destruct (entries_of Sv (fst ib) (snd ib)) as [|e es]; [reflexivity|].
  destruct (send_message_batch Sv (e :: es)) as [response|x]; cbn [fst];
    [|rewrite item_events_app; simpl; apply app_nil_r].
  destruct (py_len _) as [k|x]; cbn [fst]; rewrite item_events_app;
    [|simpl; apply app_nil_r].
  rewrite item_events_app.
  destruct (dict_get response "Failed") as [failed|];
    [destruct (truthy failed)|]; simpl; apply app_nil_r.
Qed.

Lemma send_all_no_items (Sv : services) (dicts : list pydict) :
  item_events (fst (send_all Sv dicts)) = [].
Proof.
  unfold send_all.
  assert (H : forall L st,
             item_events (fst (fold_left (send_batch Sv) L st))
             = item_events (fst st)).
  { induction L as [|ib L IH]; intros st; [reflexivity|].
    simpl. now rewrite IH, send_batch_no_items. }
  now rewrite H.
Qed.

Lemma lambda_handler_rows (E : externals) (Sv : services)
  (log : list hevent) (rows : list pyval) :
  fetch_rows Sv = (log, Ret (Rows (PList rows))) ->
  exists log',
    lambda_handler E Sv
    = (log ++ log',
       Ret (mkReply 200
              (json_dumps Sv
                 (PDict [(key "message",
                          PStr "Tender data processed and sent to SQS queue.")]))))
    /\ item_events log' = fst (process_items E rows)
    /\ sends log'
       = map (fun ib => entries_of Sv (fst ib) (snd ib))
             (enumerate (message_batches
                           (map to_dict (flat_map (tender_of E) rows)))).
Proof.
  intros Hf. unfold lambda_handler. rewrite Hf. cbn [py_iter].
  destruct (process_items_spec E rows) as [evs Hp]. rewrite Hp.
  cbn [fst].
  pose proof (send_all_sends Sv (map to_dict (flat_map (tender_of E) rows)))
    as Hs.
  pose proof (send_all_no_items Sv
                (map to_dict (flat_map (tender_of E) rows))) as Hi.
  destruct (send_all Sv (map to_dict (flat_map (tender_of E) rows)))
    as [send_events sent_count].
  cbn [fst] in Hs, Hi.
  eexists. split; [reflexivity|].
  rewrite !item_events_app, !sends_app, item_events_map_Item, sends_map_Item.
  rewrite Hi, Hs.
  split.
  - destruct (0 <? _); simpl; now rewrite !app_nil_r.
  - destruct (0 <? _); simpl; now rewrite !app_nil_r.
Qed.

(* ------------------------------------------------------------------ *)
(** ** Dates that come out of [strptime] *)

Lemma strptime_valid (data_string format : str) (d : datetime) :
  strptime data_string format = Ret d ->
  valid_datetime d = true /\ second d = 0%Z /\ microsecond d = 0%Z.
Proof.
  unfold strptime, new_datetime.
  destruct (pattern format); [|discriminate].
  destruct (re_match _ _) as [found|]; [|discriminate].
  destruct (rest found); [|discriminate].
  destruct (fold_left _ _ _) as [y m dd H M].
  destruct (valid_datetime _) eqn:Hv; [|discriminate].
  inversion 1; subst. auto.
Qed.

Lemma try_formats_valid (cleaned_str : str) (fmts : list str) (d : datetime) :
  try_formats cleaned_str fmts = Ret (Some d) ->
  valid_datetime d = true /\ second d = 0%Z /\ microsecond d = 0%Z.
Proof.
  induction fmts as [|fmt fmts IH]; simpl; [discriminate|].
  destruct (try_format cleaned_str fmt) as [d'|e] eqn:Ht.
  - inversion 1; subst d'. unfold try_format in Ht.
    destruct (contains _ _); now apply strptime_valid in Ht.
  - apply try_format_raises_ValueError in Ht. subst e. exact IH.
Qed.

Lemma parse_sanral_date_valid (v : pyval) (d : datetime) :
  parse_sanral_date v = Ret (Some d) ->
  valid_datetime d = true /\ second d = 0%Z /\ microsecond d = 0%Z.
Proof.
  unfold parse_sanral_date.
  destruct (negb (truthy v) || negb (isinstance_str v)); [discriminate|].
  destruct v; try discriminate. apply try_formats_valid.
Qed.

(* ------------------------------------------------------------------ *)
(** ** What the scraper can and cannot change *)

Lemma scrape_pub_date_cases (tender_number : str) (page : detail_page)
  (pub_date : option datetime) :
  (exists s d, create_date_cell page = Some s
               /\ strptime s "%B %d, %Y" = Ret d
               /\ scrape_pub_date tender_number page pub_date
                  = ([], Ret (Some d)))
  \/ (exists s, create_date_cell page = Some s
                /\ strptime s "%B %d, %Y" = Raise ValueError
                /\ scrape_pub_date tender_number page pub_date
                   = ([LogWarning
                         (CouldNotParsePublishedDate tender_number s)],
                      Ret pub_date))
  \/ (create_date_cell page = None
      /\ scrape_pub_date tender_number page pub_date = ([], Ret pub_date)).
Proof.
  unfold scrape_pub_date.
  destruct (create_date_cell page) as [s|]; [|right; right; auto].
  destruct (strptime s "%B %d, %Y") as [d|e] eqn:Hs.
  - left. exists s, d. auto.
  - right. left. apply strptime_raises_ValueError in Hs as He. subst e.
    exists s. auto.
Qed.

(** The three ways enrichment can go when there is a URL. *)
Lemma enrich_cases (E : externals) (u tender_number : str) (v : scraped) :
  nonempty u = true ->
  (exists e, fetch_fails E u
             /\ enrich E (Some u) tender_number v
                = ([HttpGet u; LogWarning (CouldNotScrape tender_number e)],
                   Ret v))
  \/ (exists resp evs pub_date,
         requests_get E u = Ret resp /\ raise_for_status resp = Ret tt
         /\ scrape_pub_date tender_number (soup resp) (s_pub_date v)
            = (evs, Ret pub_date)
         /\ enrich E (Some u) tender_number v
            = (HttpGet u :: evs,
               Ret (mkScraped
                      (or_keep (page_header_h2 (soup resp)) (s_title v))
                      (or_keep (first_h3 (soup resp)) (s_description v))
                      (or_keep (notice_cell (soup resp))
                               (s_full_notice_text v))
                      pub_date))).
Proof.
  intros Hu.
  destruct (requests_get E u) as [resp|e] eqn:Hr.
  - destruct (raise_for_status resp) as [[]|e] eqn:Hs.
    + right.
      destruct (scrape_pub_date_cases tender_number (soup resp) (s_pub_date v))
        as [[s [d [_ [_ Hp]]]]|[[s [_ [_ Hp]]]|[_ Hp]]];
        eexists resp, _, _; (split; [reflexivity|]); (split; [exact Hs|]);
        (split; [exact Hp|]);
        unfold enrich, scrape_detail_page, try_except, bind, emit, lift, ret;
        rewrite Hu, Hr, Hs, Hp; reflexivity.
    + left. assert (Hf : fetch_fails E u) by (right; eauto).
      destruct (enrich_fetch_fails E u tender_number v Hu Hf) as [e' He].
      eauto.
  - left. assert (Hf : fetch_fails E u) by (left; eauto).
    destruct (enrich_fetch_fails E u tender_number v Hu Hf) as [e' He].
    eauto.
Qed.

Lemma parse_title_link_cases (m : option match_object) :
  fst (parse_title_link m) = None
  \/ exists path, fst (parse_title_link m) = Some (portal_origin ++ path).
Proof.
  unfold parse_title_link. destruct m as [mt|]; [|now left].
  destruct (nonempty (group mt "1")); [right | now left].
  exists (group mt "1"). reflexivity.
Qed.

Lemma fst_bind_lift {X Y} (r : res X) (f : X -> M Y) :
  fst (bind (lift r) f)
  = match r with
    | Ret a => fst (f a)
    | Raise _ => []
    end.
Proof.
  unfold bind, lift. destruct r as [a|e]; [|reflexivity].
  now destruct (f a).
Qed.

(** A row makes [from_api_response] emit what its enrichment emits, and
    nothing else. *)
Lemma from_api_response_events (E : externals) (response_item : pyval) :
  fst (from_api_response E response_item) = []
  \/ exists m tender_number v,
       fst (from_api_response E response_item)
       = fst (enrich E (fst (parse_title_link m)) tender_number v).
Proof.
  unfold from_api_response.
  destruct response_item as [| | | | |items|]; try (now left).
  destruct (length items <? 6); [now left|].
  rewrite fst_bind_lift.
  destruct (py_html_unescape E (nth 0 items PNone)) as [title_html|];
    [|now left].
  rewrite fst_bind_lift.
  destruct (py_re_search href_re title_html) as [m|]; [|now left].
  destruct (parse_title_link m) as [url tender_number] eqn:Hl.
  rewrite fst_bind_lift.
  destruct (initial_description_of E (nth 3 items PNone)) as [d|]; [|now left].
  rewrite fst_bind_lift.
  destruct (collapsed E (nth 4 items PNone)) as [n|]; [|now left].
  rewrite fst_bind_lift.
  destruct (parse_sanral_date (nth 5 items PNone)) as [cd|]; [|now left].
  right. exists m, tender_number, (mkScraped tender_number d n None).
  rewrite Hl. cbn [fst].
  destruct (enrich_total E url tender_number
              (mkScraped tender_number d n None)) as [evs [v' Hv]].
  rewrite Hv. unfold bind at 1. cbn [fst].
  destruct (lift (py_strip (nth 1 items PNone))) as [evs1 r1] eqn:H1.
  unfold lift in H1. inversion H1; subst evs1 r1. clear H1.
  destruct (py_strip (nth 1 items PNone)) as [c|e];
    [|cbn; now rewrite app_nil_r].
  cbn [bind].
  destruct (py_strip (nth 2 items PNone)) as [r|e];
    cbn; now rewrite app_nil_r.
Qed.

Lemma enrich_events (E : externals) (url : option str) (tender_number : str)
  (v : scraped) :
  fst (enrich E url tender_number v) = []
  \/ exists u, url = Some u
               /\ (fst (enrich E url tender_number v) = [HttpGet u]
                   \/ exists w, fst (enrich E url tender_number v)
                                = [HttpGet u; LogWarning w]).
Proof.
  destruct url as [u|]; [|now left].
  destruct (nonempty u) eqn:Hu; [|left; unfold enrich; now rewrite Hu].
  right. exists u. split; [reflexivity|].
  destruct (enrich_cases E u tender_number v Hu)
    as [[e [_ ->]]|[resp [evs [pd [_ [_ [Hp ->]]]]]]].
  - right. eexists. reflexivity.
  - destruct (scrape_pub_date_cases tender_number (soup resp) (s_pub_date v))
      as [[s [d [_ [_ Hq]]]]|[[s [_ [_ Hq]]]|[_ Hq]]];
      rewrite Hq in Hp; inversion Hp; subst; cbn [fst];
      first [now left | right; eexists; reflexivity].
Qed.

(* ------------------------------------------------------------------ *)
(** ** Whitespace around a date, and in a tender number *)

Lemma parse_sanral_date_strip (s : str) :
  parse_sanral_date (PStr s) = parse_sanral_date (PStr (strip s)).
Proof.
  unfold parse_sanral_date. cbn [truthy isinstance_str negb].
  rewrite !orb_false_r.
  destruct s as [|c s]; [reflexivity|].
  cbn [length Nat.eqb negb].
  destruct (strip (c :: s)) as [|c' s'] eqn:Hs.
  - vm_compute. reflexivity.
  - cbn [length Nat.eqb negb]. rewrite <- Hs. now rewrite strip_idempotent.
Qed.

Lemma split_word_then (w s : str) :
  word w ->
  split (w ++ s)
  = match s with
    | [] => [w]
    | c :: _ =>
        if isspace c then w :: split s
        else match split s with
             | w' :: ws => (w ++ w') :: ws
             | [] => [w]
             end
    end.
Proof.
  intros [Hne Hw]. induction w as [|x w IH]; [congruence|].
  simpl in Hw. apply andb_true_iff in Hw. destruct Hw as [Hx Hw].
  apply negb_true_iff in Hx.
  destruct w as [|y w].
  - cbn [app]. cbn [split]. rewrite Hx. destruct s as [|c s']; [reflexivity|].
    destruct (isspace c); [reflexivity|].
    destruct (split (c :: s')); reflexivity.
  - specialize (IH ltac:(discriminate) Hw).
    change ((x :: y :: w) ++ s) with (x :: ((y :: w) ++ s)).
    cbn [split]. rewrite Hx.
    change ((y :: w) ++ s) with (y :: (w ++ s)) at 1.
    cbv iota. simpl in Hw. apply andb_true_iff in Hw.
    destruct Hw as [Hy _]. apply negb_true_iff in Hy. rewrite Hy.
    change (y :: w ++ s) with ((y :: w) ++ s). rewrite IH.
    destruct s as [|c s']; [reflexivity|].
    destruct (isspace c); [reflexivity|].
    destruct (split (c :: s')); reflexivity.
Qed.

(** Splitting what [join] made of words gives the words back. *)
Lemma split_join (ws : list str) :
  Forall word ws -> split (join space ws) = ws.
Proof.
  induction 1 as [|w ws Hw Hws IH]; [reflexivity|].
  destruct ws as [|w' ws'].
  - cbn [join]. rewrite <- (app_nil_r w) at 1. now rewrite split_word_then.
  - change (join space (w :: w' :: ws'))
      with (w ++ " "%char :: join space (w' :: ws')).
    rewrite split_word_then by assumption.
    change (isspace " ") with true. cbv iota.
    cbn [split]. change (isspace " ") with true. cbv iota.
    now rewrite IH.
Qed.

Lemma upper_app (a b : str) : upper (a ++ b) = upper a ++ upper b.
Proof. apply flat_map_app. Qed.

Lemma join_upper (ws : list str) :
  join space (map upper ws) = upper (join space ws).
Proof.
  induction ws as [|w ws IH]; [reflexivity|].
  destruct ws as [|w' ws']; [reflexivity|].
  change (join space (map upper (w :: w' :: ws')))
    with (upper w ++ space ++ join space (map upper (w' :: ws'))).
  rewrite IH.
  change (join space (w :: w' :: ws'))
    with (w ++ space ++ join space (w' :: ws')).
  now rewrite !upper_app.
Qed.

(** [upper] writes no white space of its own and removes none. *)
Lemma upper_of_no_space (c : ascii) :
  forallb (fun x => negb (isspace x)) (upper_of c) = negb (isspace c).
Proof. by_char_cases c. Qed.

Lemma upper_words (ws : list str) : Forall word ws -> Forall word (map upper ws).
Proof.
  induction 1 as [|w ws [Hne Hw] _ IH]; constructor; [|exact IH].
  split.
  - destruct w as [|c w]; [congruence|].
    change (upper (c :: w)) with (upper_of c ++ upper w).
    unfold upper_of. destruct (sharp_s c); discriminate.
  - rewrite <- Hw. clear.
    induction w as [|c w IHw]; [reflexivity|].
    change (upper (c :: w)) with (upper_of c ++ upper w).
    rewrite forallb_app, upper_of_no_space, IHw. reflexivity.
Qed.

(** An upper-cased collapsed text is its own collapsed form. *)
Lemma collapse_upper_collapse (s : str) :
  join space (split (upper (join space (split s))))
  = upper (join space (split s)).
Proof.
  rewrite <- join_upper, split_join; [reflexivity|].
  apply upper_words, split_words.
Qed.

(* ------------------------------------------------------------------ *)
(** ** [isoformat] and [to_dict] lose nothing *)

Lemma int_of_digits_pad6 (n : Z) :
  (0 <= n < 1000000)%Z -> int_of_digits (pad6 n) = n.
Proof.
  intros H. unfold int_of_digits, pad6, pad4, pad2. cbn [fold_left app].
  rewrite !isdigit_digit_char, !digit_value_digit_char.
  Z.div_mod_to_equations. lia.
Qed.

Lemma valid_datetime_all_ranges (d : datetime) :
  valid_datetime d = true ->
  (0 <= year d < 10000 /\ 0 <= month d < 100 /\ 0 <= day d < 100
   /\ 0 <= hour d < 100 /\ 0 <= minute d < 100 /\ 0 <= second d < 100
   /\ 0 <= microsecond d < 1000000)%Z.
Proof.
  intros Hv. pose proof (valid_datetime_ranges d Hv).
  unfold valid_datetime, within in Hv.
  rewrite !andb_true_iff, !Z.leb_le in Hv. lia.
Qed.

Lemma isoformat_inj (d1 d2 : datetime) :
  valid_datetime d1 = true -> valid_datetime d2 = true ->
  isoformat d1 = isoformat d2 -> d1 = d2.
Proof.
  intros H1 H2 H.
  apply valid_datetime_all_ranges in H1, H2.
  destruct d1 as [y1 m1 a1 h1 n1 s1 u1], d2 as [y2 m2 a2 h2 n2 s2 u2].
  unfold isoformat in H. cbn [year month day hour minute second microsecond] in *.
  assert (Hy : pad4 y1 = pad4 y2) by exact (f_equal (firstn 4) H).
  assert (Hm : pad2 m1 = pad2 m2)
    by exact (f_equal (fun s => firstn 2 (skipn 5 s)) H).
  assert (Ha : pad2 a1 = pad2 a2)
    by exact (f_equal (fun s => firstn 2 (skipn 8 s)) H).
  assert (Hh : pad2 h1 = pad2 h2)
    by exact (f_equal (fun s => firstn 2 (skipn 11 s)) H).
  assert (Hn : pad2 n1 = pad2 n2)
    by exact (f_equal (fun s => firstn 2 (skipn 14 s)) H).
  assert (Hs : pad2 s1 = pad2 s2)
    by exact (f_equal (fun s => firstn 2 (skipn 17 s)) H).
  assert (Hu : (if (u1 =? 0)%Z then [] else "." ++ pad6 u1)
               = (if (u2 =? 0)%Z then [] else "." ++ pad6 u2))
    by exact (f_equal (skipn 19) H).
  apply (f_equal int_of_digits) in Hy, Hm, Ha, Hh, Hn, Hs.
  rewrite !int_of_digits_pad4 in Hy by lia.
  rewrite !int_of_digits_pad2 in Hm, Ha, Hh, Hn, Hs by lia.
  subst.
  assert (u1 = u2); [|now subst].
  destruct (Z.eqb_spec u1 0), (Z.eqb_spec u2 0); try discriminate;
    [congruence|].
  apply (f_equal (fun s => int_of_digits (skipn 1 s))) in Hu.
  cbn [skipn app list_ascii_of_string] in Hu.
  now rewrite !int_of_digits_pad6 in Hu by lia.
Qed.

Lemma map_injective {X Y} (f : X -> Y) (l1 l2 : list X) :
  (forall a b, f a = f b -> a = b) -> map f l1 = map f l2 -> l1 = l2.
Proof.
  intros Hf. revert l2. induction l1 as [|x l1 IH]; intros [|y l2] H;
    try discriminate; [reflexivity|].
  simpl in H. injection H as Hx Hl. f_equal; auto.
Qed.

Lemma to_dict_explicit (t : SanralTender) :
  to_dict t
  = [(key "title", PStr (title t));
     (key "description", PStr (description t));
     (key "source", PStr (source t));
     (key "publishedDate", isoformat_or_none (published_date t));
     (key "closingDate", isoformat_or_none (closing_date t));
     (key "supporting_docs",
       PList (map (fun doc => PDict (SupportingDoc_to_dict doc))
                  (supporting_docs t)));
     (key "tags", PList (map PStr (tags t)));
     (key "tenderNumber", PStr (tender_number t));
     (key "category", PStr (category t));
     (key "region", PStr (region t));
     (key "email", PStr (email t));
     (key "fullNoticeText", PStr (full_notice_text t))].
Proof. reflexivity. Qed.

Lemma isoformat_or_none_inj (d1 d2 : option datetime) :
  valid_or_absent d1 -> valid_or_absent d2 ->
  isoformat_or_none d1 = isoformat_or_none d2 -> d1 = d2.
Proof.
  destruct d1 as [a|], d2 as [b|];
    cbn [valid_or_absent isoformat_or_none]; intros H1 H2 H;
    try discriminate; [|reflexivity].
  apply (f_equal (fun v => match v with PStr s => s | _ => [] end)) in H.
  f_equal. now apply isoformat_inj.
Qed.

Lemma to_dict_inj (t1 t2 : SanralTender) :
  dates_valid t1 -> dates_valid t2 -> to_dict t1 = to_dict t2 -> t1 = t2.
Proof.
  intros [Hp1 Hc1] [Hp2 Hc2] H. rewrite !to_dict_explicit in H.
  injection H as Ht Hd Hs Hp Hc Hdocs Htags Hn Hcat Hr He Hf.
  apply isoformat_or_none_inj in Hp, Hc; try assumption.
  apply map_injective in Hdocs.
  2:{ intros [n1 u1] [n2 u2] Hx. unfold SupportingDoc_to_dict in Hx.
      cbn in Hx. now injection Hx as -> ->. }
  apply map_injective in Htags.
  2:{ intros a b Hx. now injection Hx. }
  destruct t1, t2. cbn in *. congruence.
Qed.

(* ------------------------------------------------------------------ *)
(** ** The create date of the detail page *)

Lemma long_date_pattern : pattern "%B %d, %Y" = Some long_date_re.
Proof. reflexivity. Qed.

Lemma body_B {A} (j : nat) (s : str) (g : groups)
  (k : str -> groups -> option A) (x : A) :
  j < 12 ->
  k s g = Some x ->
  rmatch (Alts (map (Lit true) (sorted_by_length f_month)))
    (nth j month_names [] ++ s) g k = Some x.
Proof.
  intros Hj Hk.
  do 12 (destruct j as [|j];
         [vm_compute (nth _ month_names []); cbn; rewrite ?Hk; reflexivity|]).
  lia.
Qed.

Lemma month_of_month_name (j : nat) :
  j < 12 -> month_of_name (nth j month_names []) = Z.of_nat (S j).
Proof.
  intros Hj.
  do 12 (destruct j as [|j]; [vm_compute; reflexivity|]). lia.
Qed.

Lemma long_date_matched (d : datetime) :
  valid_datetime d = true ->
  exists found,
    re_match long_date_re (long_date d) = Some found
    /\ rest found = []
    /\ captured found
       = [("Y"%string, pad4 (year d)); ("d"%string, pad2 (day d));
          ("B"%string, nth (Z.to_nat (month d) - 1) month_names [])].
Proof.
  intros Hv. apply valid_datetime_ranges in Hv.
  destruct Hv as [Hy [Hm [Hd _]]].
  eexists. split.
  - unfold re_match, long_date_re, long_date.
    rewrite <- (app_nil_r (pad4 (year d))).
    cbn [app list_ascii_of_string].
    unfold re_B. apply rmatch_directive; [intros; apply body_B; [lia|assumption]|].
    rewrite rmatch_blank_digits.
    unfold re_d. apply rmatch_directive; [intros; now apply body_d|].
    rewrite rmatch_literal.
    unfold pad4 at 1. cbn [app]. rewrite rmatch_one_blank.
    change (digit_char (year d / 1000) :: digit_char (year d / 100)
            :: pad2 (year d) ++ [])
      with (pad4 (year d) ++ []).
    unfold re_Y. apply rmatch_directive; [intros; now apply body_Y|].
    cbn [rmatch]. reflexivity.
  - split; reflexivity.
Qed.

(** The format of the create date gives back the date that was written. *)
Lemma strptime_long_date (d : datetime) :
  valid_datetime d = true ->
  hour d = 0%Z -> minute d = 0%Z -> second d = 0%Z -> microsecond d = 0%Z ->
  strptime (long_date d) "%B %d, %Y" = Ret d.
Proof.
  intros Hv HH HM Hs Hu.
  destruct (long_date_matched d Hv) as [found [Hf [Hr Hc]]].
  pose proof (valid_datetime_ranges d Hv) as [Hy [Hm [Hd _]]].
  unfold strptime. rewrite long_date_pattern, Hf, Hr, Hc.
  cbn [rev app fold_left set_field default_fields String.eqb Ascii.eqb
       Bool.eqb].
  rewrite !int_of_digits_pad2, int_of_digits_pad4 by lia.
  rewrite month_of_month_name by lia.
  replace (Z.of_nat (S (Z.to_nat (month d) - 1))) with (month d) by lia.
  unfold new_datetime. destruct d; simpl in *; subst. now rewrite Hv.
Qed.

(* ------------------------------------------------------------------ *)
(** ** The e-mail pattern does not look at the case *)

Section CaseBlind.
Context {X Y : Type} (Q : X -> Y -> Prop).

Lemma agree_star_greedy (p : ascii -> bool) (s s' : str)
  (k : str -> option X) (k' : str -> option Y) :
  case_blind_class p -> case_variant s s' ->
  (forall t t', case_variant t t' -> agree Q (k t) (k' t')) ->
  agree Q (star_greedy p s k) (star_greedy p s' k').
Proof.
  intros Hp Hs Hk. induction Hs as [|c c' s s' Hc Hs IH]; simpl.
  - apply Hk. constructor.
  - rewrite <- (Hp c c' Hc).
    assert (Hh : agree Q (k (c :: s)) (k' (c' :: s')))
      by (apply Hk; now constructor).
    destruct (p c); [|exact Hh].
    destruct (star_greedy p s k), (star_greedy p s' k'); simpl in *;
      tauto.
Qed.

Lemma agree_star_lazy (p : ascii -> bool) (s s' : str)
  (k : str -> option X) (k' : str -> option Y) :
  case_blind_class p -> case_variant s s' ->
  (forall t t', case_variant t t' -> agree Q (k t) (k' t')) ->
  agree Q (star_lazy p s k) (star_lazy p s' k').
Proof.
  intros Hp Hs Hk. induction Hs as [|c c' s s' Hc Hs IH]; simpl.
  - assert (Hh : agree Q (k []) (k' [])) by (apply Hk; constructor).
    destruct (k []), (k' []); simpl in *; tauto.
  - rewrite <- (Hp c c' Hc).
    assert (Hh : agree Q (k (c :: s)) (k' (c' :: s')))
      by (apply Hk; now constructor).
    destruct (k (c :: s)), (k' (c' :: s')); simpl in *; try tauto.
    destruct (p c); [exact IH | exact I].
Qed.

Lemma agree_rmatch (r : regex) :
  case_blind r ->
  forall (s s' : str) (g g' : groups)
         (k : str -> groups -> option X) (k' : str -> groups -> option Y),
    case_variant s s' ->
    (forall t t' h h', case_variant t t' -> agree Q (k t h) (k' t' h')) ->
    agree Q (rmatch r s g k) (rmatch r s' g' k').
Proof.
  induction r as [|p|r1 IH1 r2 IH2|r1 IH1 r2 IH2|greedy p|name r IH];
    intros Hr s s' g g' k k' Hs Hk; simpl in *.
  - now apply Hk.
  - destruct Hs as [|c c' s s' Hc Hs]; [exact I|].
    rewrite <- (Hr c c' Hc). destruct (p c); [now apply Hk | exact I].
  - destruct Hr as [Hr1 Hr2]. apply IH1; [assumption..|].
    intros t t' h h' Ht. now apply IH2.
  - destruct Hr as [Hr1 Hr2].
    pose proof (IH1 Hr1 s s' g g' k k' Hs Hk) as H1.
    pose proof (IH2 Hr2 s s' g g' k k' Hs Hk) as H2.
    destruct (rmatch r1 s g k), (rmatch r1 s' g' k'); simpl in *; tauto.
  - destruct greedy; [apply agree_star_greedy | apply agree_star_lazy];
      auto.
  - apply IH; [assumption..|]. intros t t' h h' Ht. now apply Hk.
Qed.

End CaseBlind.

Lemma case_variant_length (s s' : str) :
  case_variant s s' -> length s = length s'.
Proof. induction 1; simpl; congruence. Qed.

Lemma case_variant_firstn (n : nat) (s s' : str) :
  case_variant s s' -> case_variant (firstn n s) (firstn n s').
Proof.
  intros H. revert n. induction H as [|c c' s s' Hc Hs IH]; intros [|n];
    simpl; constructor; [exact Hc | apply IH].
Qed.

Lemma agree_re_match (r : regex) (s s' : str) :
  case_blind r -> case_variant s s' ->
  agree (fun m m' => case_variant (matched m) (matched m'))
        (re_match r s) (re_match r s').
Proof.
  intros Hr Hs. unfold re_match. apply agree_rmatch; [assumption..|].
  intros t t' h h' Ht. simpl.
  rewrite (case_variant_length s s' Hs), (case_variant_length t t' Ht).
  now apply case_variant_firstn.
Qed.

Lemma findall_from_case (r : regex) (s s' : str) :
  case_blind r -> case_variant s s' ->
  forall skip,
    Forall2 case_variant (findall_from r skip s) (findall_from r skip s').
Proof.
  intros Hr Hs. induction Hs as [|c c' s s' Hc Hs IH]; intros skip; simpl.
  - destruct skip; [|constructor].
    pose proof (agree_re_match r [] [] Hr (Forall2_nil _)) as H.
    destruct (re_match r []); constructor; [exact H | constructor].
  - destruct skip; [|apply IH].
    pose proof (agree_re_match r (c :: s) (c' :: s') Hr
                  (Forall2_cons _ _ Hc Hs)) as H.
    destruct (re_match r (c :: s)) as [m|], (re_match r (c' :: s')) as [m'|];
      simpl in H; try tauto; [|apply IH].
    constructor; [exact H|].
    rewrite (case_variant_length _ _ H). apply IH.
Qed.

Lemma case_variant_lower (s s' : str) :
  case_variant s s' -> lower s = lower s'.
Proof. induction 1 as [|c c' s s' Hc Hs IH]; simpl; congruence. Qed.

Lemma extract_email_case (s s' : str) :
  case_variant s s' -> extract_email s = extract_email s'.
Proof.
  intros Hs. unfold extract_email, findall.
  pose proof (findall_from_case email_re s s') as H.
  assert (Hb : case_blind email_re).
  { unfold email_re, Plus, Chr. simpl.
    assert (Hl : forall p, (forall c, p (to_lower c) = p c) ->
                           case_blind_class p).
    { intros p Hp a b Hab. unfold same_letter in Hab.
      now rewrite <- (Hp a), <- (Hp b), Hab. }
    repeat split; apply Hl; intros c;
      first [ apply local_char_to_lower | apply domain_char_to_lower
            | apply isalpha_to_lower | by_char_cases c ]. }
  specialize (H Hb Hs 0).
  destruct H as [|m m' ms ms' Hm Hms]; [reflexivity|].
  apply case_variant_lower.
  revert m m' Hm. induction Hms as [|a a' l l' Ha Hl IH]; intros m m' Hm;
    [exact Hm|].
  simpl. destruct l, l'; try (inversion Hl; fail); [exact Ha|].
  now apply IH.
Qed.

Lemma title_of_ascii (c : ascii) :
  (code c <? 128) = true -> title_of c = [to_upper c].
Proof.
  destruct c as [[] [] [] [] [] [] [] []]; vm_compute;
    intros H; (reflexivity || discriminate H).
Qed.

(** On ASCII text [title] changes the case of letters and nothing else. *)
Lemma title_from_case (b : bool) (s : str) :
  ascii_text s = true -> case_variant (title_from b s) s.
Proof.
  revert b; induction s as [|c s IH]; intros b H; [constructor|].
  cbn [ascii_text forallb] in H. apply andb_true_iff in H.
  destruct H as [Hc Hs]. cbn [title_from].
  assert (Hchunk : (if b then [to_lower c] else title_of c)
                   = [if b then to_lower c else to_upper c]).
  { destruct b; [reflexivity | now apply title_of_ascii]. }
  rewrite Hchunk. cbn [app]. constructor; [|now apply IH].
  unfold same_letter. destruct b; [apply to_lower_idem|].
  clear. by_char_cases c.
Qed.

(** The e-mail can be read again off the title-cased notice text when the
    text is ASCII. *)
Lemma extract_email_title (s : str) :
  ascii_text s = true -> extract_email (Text.title s) = extract_email s.
Proof. intros H. now apply extract_email_case, title_from_case. Qed.

Lemma fold_send_down (Sv : services) (L : list (nat * list pydict)) :
  queue_down Sv ->
  forall st, snd (fold_left (send_batch Sv) L st) = snd st.
Proof.
  intros Hd. induction L as [|ib L IH]; intros st; [reflexivity|].
  simpl. rewrite IH. destruct st as [log n]. unfold send_batch.
  destruct (entries_of Sv (fst ib) (snd ib)) as [|e es]; [reflexivity|].
  destruct (Hd (e :: es)) as [x ->]. reflexivity.
Qed.

Lemma enrich_pub_date (E : externals) (url : option str)
  (tender_number : str) (v v' : scraped) (evs : list event) (d : datetime) :
  enrich E url tender_number v = (evs, Ret v') ->
  s_pub_date v = None -> s_pub_date v' = Some d ->
  exists u resp s,
    url = Some u /\ requests_get E u = Ret resp
    /\ raise_for_status resp = Ret tt
    /\ create_date_cell (soup resp) = Some s
    /\ strptime s "%B %d, %Y" = Ret d.
Proof.
  intros He Hv Hd.
  destruct url as [u|]; [|inversion He; subst; congruence].
  destruct (nonempty u) eqn:Hu.
  2:{ unfold enrich in He. rewrite Hu in He. inversion He; subst. congruence. }
  destruct (enrich_cases E u tender_number v Hu)
    as [[e [_ H]]|[resp [evs' [pd [Hr [Hs [Hp H]]]]]]];
    rewrite H in He; inversion He; subst; [congruence|].
  cbn [s_pub_date] in Hd. subst pd.
  destruct (scrape_pub_date_cases tender_number (soup resp) (s_pub_date v))
    as [[s [d' [Hc [Hst Hq]]]]|[[s [_ [_ Hq]]]|[_ Hq]]];
    rewrite Hq in Hp; inversion Hp; subst; try congruence.
  exists u, resp, s. auto.
Qed.

Lemma html_unescape_same (E1 E2 : externals) :
  (forall s, replace_charrefs E1 s = replace_charrefs E2 s) ->
  forall s, html_unescape E1 s = html_unescape E2 s.
Proof. intros H s. unfold html_unescape. now rewrite H. Qed.

(* ------------------------------------------------------------------ *)
(** ** Where the dates of a tender come from *)

Lemma matches_captures (r : regex) (s : str) (g g' : groups) :
  matches r s g g' ->
  exists new, g' = new ++ g /\ incl (map fst new) (group_names r).
Proof.
  induction 1 as [g|p c g Hp|r1 r2 s1 s2 g g1 g2 _ [n1 [-> I1]] _ [n2 [-> I2]]
                 |r1 r2 s g g' _ [n [-> I]]|r1 r2 s g g' _ [n [-> I]]
                 |greedy p s g Hp|name r s g g' _ [n [-> I]]];
    cbn [group_names].
  - exists []. split; [reflexivity | apply incl_nil_l].
  - exists []. split; [reflexivity | apply incl_nil_l].
  - exists (n2 ++ n1). split; [now rewrite app_assoc|].
    rewrite map_app. apply incl_app; [apply incl_appr | apply incl_appl];
      assumption.
  - exists n. split; [reflexivity | now apply incl_appl].
  - exists n. split; [reflexivity | now apply incl_appr].
  - exists []. split; [reflexivity | apply incl_nil_l].
  - exists ((name, s) :: n). split; [reflexivity|].
    cbn [map fst]. apply incl_cons; [now left | now apply incl_tl].
Qed.

Lemma set_field_no_time (acc : found_fields) (kv : string * str) :
  In (fst kv) ["B"; "d"; "Y"]%string ->
  f_hour (set_field acc kv) = f_hour acc
  /\ f_min (set_field acc kv) = f_min acc.
Proof.
  destruct kv as [k text], acc as [y m d H M]. cbn [fst].
  intros [<-|[<-|[<-|[]]]]; split; reflexivity.
Qed.

Lemma fold_set_field_no_time (l : list (string * str)) :
  incl (map fst l) ["B"; "d"; "Y"]%string ->
  forall acc,
    f_hour (fold_left set_field l acc) = f_hour acc
    /\ f_min (fold_left set_field l acc) = f_min acc.
Proof.
  induction l as [|kv l IH]; intros Hi acc; [split; reflexivity|].
  cbn [fold_left].
  destruct (IH (fun x Hx => Hi x (or_intror Hx)) (set_field acc kv))
    as [-> ->].
  apply set_field_no_time, Hi. now left.
Qed.

Lemma strptime_long_no_time (s : str) (d : datetime) :
  strptime s "%B %d, %Y" = Ret d -> hour d = 0%Z /\ minute d = 0%Z.
Proof.
  unfold strptime. rewrite long_date_pattern.
  destruct (re_match long_date_re s) as [found|] eqn:Hm; [|discriminate].
  destruct (rest found); [|discriminate].
  apply re_match_sound in Hm. destruct Hm as [_ Hm].
  apply matches_captures in Hm. destruct Hm as [new [Hc Hi]].
  rewrite app_nil_r in Hc. rewrite Hc.
  assert (Hn : incl (map fst (rev new)) ["B"; "d"; "Y"]%string).
  { rewrite map_rev. intros x Hx. apply in_rev in Hx. apply Hi in Hx.
    revert Hx. clear. intros Hx.
    assert (Hg : incl (group_names long_date_re) ["B"; "d"; "Y"]%string).
    { vm_compute. intros a [<-|[<-|[<-|[]]]]; cbn; auto. }
    exact (Hg x Hx). }
  pose proof (fold_set_field_no_time (rev new) Hn default_fields) as [HH HM].
  destruct (fold_left set_field (rev new) default_fields) as [y m dd H M].
  cbn [f_hour f_min default_fields] in HH, HM. subst H M.
  unfold new_datetime. destruct (valid_datetime _); [|discriminate].
  inversion 1; subst. split; reflexivity.
Qed.

Lemma published_date_read (E : externals) (response_item : pyval)
  (evs : list event) (t : SanralTender) (d : datetime) :
  from_api_response E response_item = (evs, Ret (Some t)) ->
  published_date t = Some d ->
  exists s, strptime s "%B %d, %Y" = Ret d.
Proof.
  intros H Hd.
  destruct (returns_tender_inv E response_item evs t H)
    as [f0 [f1 [f2 [f3 [f4 [x5 [more ->]]]]]]].
  destruct (row_outcome E f0 f1 f2 f3 f4 x5 more)
    as (evs' & v & cd & t' & Hr & _ & Hv & _ & _ & _ & Hp & _).
  rewrite Hr in H. inversion H; subst evs' t'. clear H.
  rewrite Hp in Hd.
  destruct (enrich_pub_date E _ _ _ _ _ d Hv eq_refl Hd)
    as [u [resp [s [_ [_ [_ [_ Hst]]]]]]].
  now exists s.
Qed.

Lemma closing_date_read (E : externals) (response_item : pyval)
  (evs : list event) (t : SanralTender) (d : datetime) :
  from_api_response E response_item = (evs, Ret (Some t)) ->
  closing_date t = Some d ->
  exists v, parse_sanral_date v = Ret (Some d).
Proof.
  intros H Hd.
  destruct (returns_tender_inv E response_item evs t H)
    as (f0 & f1 & f2 & f3 & f4 & x5 & more & ->).
  destruct (row_outcome E f0 f1 f2 f3 f4 x5 more)
    as (evs' & v & cd & t' & Hr & Hpd & _ & _ & _ & _ & _ & Hcl & _).
  rewrite Hr in H. inversion H; subst evs' t'.
  rewrite Hcl in Hd. subst cd. eauto.
Qed.

(** A row whose detail page is served. *)
Lemma row_on_answered_page
  (E : externals) (f0 f1 f2 f3 f4 f5 : str) (more : list pyval)
  (m : match_object) (resp : response) :
  link_of E f0 = Some m ->
  requests_get E (portal_origin ++ group m "1") = Ret resp ->
  raise_for_status resp = Ret tt ->
  exists evs t,
    from_api_response E (row f0 f1 f2 f3 f4 f5 more) = (evs, Ret (Some t))
    /\ title t
       = Text.title (match page_header_h2 (soup resp) with
                     | Some text => text
                     | None => join space (split (group m "2"))
                     end)
    /\ description t
       = Text.title (match first_h3 (soup resp) with
                     | Some text => text
                     | None => strip (replace "Tender Notice:" ""
                                        (collapsed_text E f3))
                     end)
    /\ full_notice_text t
       = Text.title (match notice_cell (soup resp) with
                     | Some text => text
                     | None => collapsed_text E f4
                     end)
    /\ email t
       = extract_email (match notice_cell (soup resp) with
                        | Some text => text
                        | None => collapsed_text E f4
                        end)
    /\ published_date t
       = match create_date_cell (soup resp) with
         | Some s =>
             match strptime s "%B %d, %Y" with
             | Ret d => Some d
             | Raise _ => None
             end
         | None => None
         end.
Proof.
  intros Hm Hg Hs.
  destruct (row_outcome E f0 f1 f2 f3 f4 (PStr f5) more)
    as (evs & v & cd & t & Hr & _ & Hv & Ht & Hd & _ & Hp & _ & _ & _ & _
        & _ & _ & He & Hx).
  destruct (link_found E f0 m Hm) as [Hl _]. rewrite Hl in Hv.
  cbn [fst snd] in Hv.
  exists evs, t. split; [exact Hr|].
  destruct (enrich_cases E (portal_origin ++ group m "1")
              (join space (split (group m "2")))
              (mkScraped (join space (split (group m "2")))
                 (strip (replace "Tender Notice:" "" (collapsed_text E f3)))
                 (collapsed_text E f4) None)
              (nonempty_portal_url _))
    as [[e [[[e' Hf]|[r [e' [Hf1 Hf2]]]] _]]
       |(resp' & evs' & pd & Hg' & Hs' & Hq & Hen)];
    try congruence.
  assert (resp' = resp) by congruence. subst resp'.
  pose proof (eq_trans (eq_sym Hv) Hen) as Heq.
  inversion Heq; subst evs v. clear Heq.
  cbn [s_title s_description s_full_notice_text s_pub_date or_keep] in *.
  rewrite Ht, Hd, Hx, He, Hp. repeat split.
  cbn [s_pub_date] in Hq.
  destruct (scrape_pub_date_cases (join space (split (group m "2")))
              (soup resp) None)
    as [(s & d & Hc & Hst & Hq')|[(s & Hc & Hst & Hq')|[Hc Hq']]];
    rewrite Hq' in Hq; inversion Hq; subst; rewrite Hc; try rewrite Hst;
    reflexivity.
Qed.


(* ================================================================== *)
(** * Further properties of the handler *)

(** X1.  The batches cut the list of messages into consecutive pieces:
    put end to end they give the list back, each holds between one and
    ten messages, every batch but the last holds exactly ten, and there
    are as many as tens in the length, rounded up. *)
Theorem X1_batches_partition {X : Type} (l : list X) :
  concat (message_batches l) = l
  /\ Forall (fun b => 1 <= length b <= 10) (message_batches l)
  /\ length (message_batches l) = (length l + 9) / 10
  /\ (forall before b after,
         message_batches l = before ++ b :: after -> after <> [] ->
         length b = 10).
Proof.
  split; [apply message_batches_concat|].
  split; [apply message_batches_sizes|].
  split; [apply message_batches_count|].
  intros before b after. apply message_batches_full.
Qed.

Lemma X1_witness :
  length (firstn 10 (seq 0 25)) = 10
  /\ message_batches (seq 0 25)
     = [seq 0 10; seq 10 10; seq 20 5].
Proof.
  split; [|reflexivity].
  apply (proj2 (proj2 (proj2 (X1_batches_partition (seq 0 25))))
           [] (firstn 10 (seq 0 25)) [seq 10 10; seq 20 5]);
    [reflexivity | discriminate].
Defined.

(** X2.  Within a run no two entries built for the queue have the same
    [Id], across all the batches, and every entry carries the one message
    group of the scraper. *)
Theorem X2_message_ids_distinct (Sv : services) (dicts : list pydict) :
  NoDup (map Id (all_entries Sv dicts))
  /\ Forall (fun e => MessageGroupId e = "SanralTenderScrape")
            (all_entries Sv dicts).
Proof.
  split; [apply ids_nodup | apply all_entries_group].
Qed.

(** X3.  Whatever the queue answers (a send may raise, or report
    failures), every batch is offered to it exactly once and in order, and
    the bodies offered are the serialised mappings, one for one and in the
    order of the list. *)
Theorem X3_every_batch_is_offered_once (Sv : services) (dicts : list pydict) :
  sends (fst (send_all Sv dicts))
  = map (fun ib => entries_of Sv (fst ib) (snd ib))
        (enumerate (message_batches dicts))
  /\ map MessageBody (concat (sends (fst (send_all Sv dicts))))
     = map (fun d => json_dumps Sv (PDict d)) dicts
  /\ Forall (fun entries => 1 <= length entries <= 10)
            (sends (fst (send_all Sv dicts))).
Proof.
  split; [apply send_all_sends|].
  split; [rewrite concat_sends_all_entries; apply all_entries_bodies|].
  rewrite send_all_sends. unfold enumerate.
  apply Forall_map.
  eapply Forall_impl;
    [|apply (enumerate_Forall_snd (fun b => 1 <= length b <= 10)),
        message_batches_sizes].
  intros ib H. now rewrite entries_of_length.
Qed.

(** X4.  The count of sent messages: when the queue reports every entry
    of every batch as successful it is the number of messages; when every
    send raises it is zero. *)
Theorem X4_sent_count (Sv : services) (dicts : list pydict) :
  (accepts_all Sv -> snd (send_all Sv dicts) = length dicts)
  /\ (queue_down Sv -> snd (send_all Sv dicts) = 0).
Proof.
  split; [apply send_all_count|].
  intros Hd. unfold send_all. now rewrite fold_send_down.
Qed.

Lemma X4_witness :
  snd (send_all (listing 200 (Decoded (PDict [])) accept)
                (repeat [] 23)) = 23
  /\ snd (send_all (listing 200 (Decoded (PDict [])) refuse)
                   (repeat [] 23)) = 0.
Proof.
  split.
  - apply (proj1 (X4_sent_count (listing 200 (Decoded (PDict [])) accept)
                    (repeat [] 23))).
    intros entries. eexists _, _. split; [reflexivity|].
    split; [reflexivity | apply length_map].
  - apply (proj2 (X4_sent_count (listing 200 (Decoded (PDict [])) refuse)
                    (repeat [] 23))).
    intros entries. exists RequestException. reflexivity.
Defined.

(** X5.  When the listing cannot be had (the request raises a request
    exception, the status is an error, or the body is not JSON) the
    handler replies 502 at once: no row is processed and nothing is sent
    to the queue. *)
Theorem X5_feed_failure_is_502 (E : externals) (Sv : services) :
  feed_unavailable Sv ->
  exists log message,
    lambda_handler E Sv
    = (log,
       Ret (mkReply 502
              (json_dumps Sv (PDict [(key "error", PStr message)]))))
    /\ sends log = [] /\ item_events log = [].
Proof.
  intros H. destruct (fetch_rows_unavailable Sv H) as [log [msg [Hf [Hs Hi]]]].
  exists log, msg. unfold lambda_handler. rewrite Hf. auto.
Qed.

Lemma X5_witness :
  (exists log message,
      lambda_handler offline (listing 503 (Decoded (PDict sample_feed)) accept)
      = (log, Ret (mkReply 502 message)) /\ sends log = [])
  /\ (exists log message,
         lambda_handler offline (listing 200 (NotJson false) accept)
         = (log, Ret (mkReply 502 message)) /\ sends log = []).
Proof.
  split.
  - destruct (X5_feed_failure_is_502 offline
                (listing 503 (Decoded (PDict sample_feed)) accept))
      as [log [msg [H [Hs _]]]].
    + right. eexists. split; [reflexivity|]. left. reflexivity.
    + eauto.
  - destruct (X5_feed_failure_is_502 offline
                (listing 200 (NotJson false) accept))
      as [log [msg [H [Hs _]]]].
    + right. eexists. split; [reflexivity|]. right. eexists. reflexivity.
    + eauto.
Defined.

(** X6.  When the listing decodes to an object whose tenders are a list
    (or are missing) and whose total is a number (or is missing), the
    handler replies 200 whatever the rows and the queue do.  The rows are
    handled by the loop, in order, and the bodies offered to the queue are
    the serialised tenders of the rows that gave one, in the order of the
    rows. *)
Theorem X6_handler_replies_200 (E : externals) (Sv : services)
  (d : pydict) (rows : list pyval) :
  feed_gives Sv d rows ->
  exists log,
    lambda_handler E Sv
    = (log,
       Ret (mkReply 200
              (json_dumps Sv
                 (PDict [(key "message",
                          PStr "Tender data processed and sent to SQS queue.")]))))
    /\ item_events log = fst (process_items E rows)
    /\ map MessageBody (concat (sends log))
       = map (fun t => json_dumps Sv (PDict (to_dict t)))
             (flat_map (tender_of E) rows).
Proof.
  intros H. destruct (fetch_rows_gives Sv d rows H) as [log [Hf [Hs Hi]]].
  destruct (lambda_handler_rows E Sv log rows Hf) as [log' [Hh [Hi' Hs']]].
  exists (log ++ log'). split; [exact Hh|].
  rewrite item_events_app, sends_app, Hs, Hi, Hs'. cbn [app].
  split; [exact Hi'|].
  rewrite <- send_all_sends, concat_sends_all_entries, all_entries_bodies.
  apply map_map.
Qed.

Lemma X6_witness :
  exists log body,
    lambda_handler offline (listing 200 (Decoded (PDict sample_feed)) refuse)
    = (log, Ret (mkReply 200 body))
    /\ length (concat (sends log)) = 2.
Proof.
  destruct (X6_handler_replies_200 offline
              (listing 200 (Decoded (PDict sample_feed)) refuse)
              sample_feed [sample_row; row_without_category; sample_row])
    as [log [H [_ Hb]]].
  - eexists. repeat split.
  - eexists log, _. split; [exact H|].
    rewrite <- (length_map MessageBody), Hb, length_map. vm_compute.
    reflexivity.
Defined.

(** X7.  A listing that decodes, but not to what the handler expects, is
    not turned into a reply: when the decoded value is not an object the
    handler raises an [AttributeError], and when the tenders of the object
    are [null] or a number it raises a [TypeError]; in both cases before
    any row is processed or anything is sent. *)
Theorem X7_unexpected_listing_raises (E : externals) (Sv : services)
  (r : feed_response) (v : pyval) :
  api_get Sv = Ret r -> feed_status_error r = false ->
  feed_json r = Decoded v ->
  (match v with PDict _ => False | _ => True end ->
   exists log, lambda_handler E Sv = (log, Raise AttributeError)
               /\ sends log = [] /\ item_events log = [])
  /\ (forall d x, v = PDict d -> dict_get d "tenders" = Some x ->
                  match x with
                  | PNone | PBool _ | PInt _ | PFloat _ _ => True
                  | _ => False
                  end ->
      exists log, lambda_handler E Sv = (log, Raise TypeError)
                  /\ sends log = [] /\ item_events log = []).
Proof.
  intros Hg Hs Hj. split.
  - intros Hv. unfold lambda_handler, fetch_rows. rewrite Hg, Hs, Hj.
    destruct v; try contradiction; eexists; repeat split.
  - intros d x -> Hd Hx. unfold lambda_handler, fetch_rows.
    rewrite Hg, Hs, Hj. cbn [py_get]. rewrite Hd.
    destruct x; try contradiction; eexists; repeat split.
Qed.

Lemma X7_witness :
  (exists log,
      lambda_handler offline (listing 200 (Decoded (PList [sample_row])) accept)
      = (log, Raise AttributeError))
  /\ (exists log,
         lambda_handler offline
           (listing 200 (Decoded (PDict [(key "tenders", PNone)])) accept)
         = (log, Raise TypeError)).
Proof.
  split.
  - destruct (proj1 (X7_unexpected_listing_raises offline
                       (listing 200 (Decoded (PList [sample_row])) accept)
                       _ _ eq_refl eq_refl eq_refl) I) as [log [H _]].
    eauto.
  - destruct (proj2 (X7_unexpected_listing_raises offline
                       (listing 200 (Decoded (PDict [(key "tenders", PNone)]))
                                accept)
                       _ _ eq_refl eq_refl eq_refl)
                _ PNone eq_refl eq_refl I) as [log [H _]].
    eauto.
Defined.

(** X8.  The loop loses no row and keeps their order: the tenders it
    collects are those of the rows that gave one, in the order of the
    rows, and the tenders collected and the rows skipped add up to the
    number of rows. *)
Theorem X8_rows_processed_or_skipped (E : externals) (rows : list pyval) :
  fst (snd (process_items E rows)) = flat_map (tender_of E) rows
  /\ length (fst (snd (process_items E rows)))
     + snd (snd (process_items E rows)) = length rows.
Proof.
  destruct (process_items_spec E rows) as [evs ->]. cbn [fst snd].
  split; [reflexivity|].
  assert (H : length (flat_map (tender_of E) rows) <= length rows).
  { induction rows as [|r rows IH]; simpl; [lia|].
    rewrite length_app.
    assert (length (tender_of E r) <= 1).
    { unfold tender_of. destruct (snd _) as [[t|]|e]; simpl; lia. }
    lia. }
  lia.
Qed.

(* ================================================================== *)
(** * Further properties of the model class *)

(** X9.  The detail page cannot change what comes from the row: two
    worlds that decode character references alike, whatever their portals
    answer, give tenders with the same number, category, region, closing
    date, supporting documents, source and tags; and when one gives a
    tender so does the other. *)
Theorem X9_row_fields_do_not_depend_on_the_page
  (E1 E2 : externals) (response_item : pyval) (evs1 : list event)
  (t1 : SanralTender) :
  (forall s, replace_charrefs E1 s = replace_charrefs E2 s) ->
  from_api_response E1 response_item = (evs1, Ret (Some t1)) ->
  exists evs2 t2,
    from_api_response E2 response_item = (evs2, Ret (Some t2))
    /\ tender_number t2 = tender_number t1
    /\ category t2 = category t1
    /\ region t2 = region t1
    /\ closing_date t2 = closing_date t1
    /\ supporting_docs t2 = supporting_docs t1
    /\ source t2 = source t1
    /\ tags t2 = tags t1.
Proof.
  intros Hc H.
  destruct (returns_tender_inv E1 response_item evs1 t1 H)
    as [f0 [f1 [f2 [f3 [f4 [x5 [more ->]]]]]]].
  destruct (row_outcome E1 f0 f1 f2 f3 f4 x5 more)
    as (e1 & v1 & cd1 & t & Hr & Hd1 & _ & _ & _ & Hs1 & _ & Hc1 & Hdoc1
        & Hg1 & Hn1 & Hcat1 & Hre1 & _).
  rewrite Hr in H. inversion H; subst e1 t. clear H.
  destruct (row_outcome E2 f0 f1 f2 f3 f4 x5 more)
    as (e2 & v2 & cd2 & t2 & Hr2 & Hd2 & _ & _ & _ & Hs2 & _ & Hc2 & Hdoc2
        & Hg2 & Hn2 & Hcat2 & Hre2 & _).
  exists e2, t2. split; [exact Hr2|].
  assert (Hl : link_of E2 f0 = link_of E1 f0).
  { unfold link_of. now rewrite (html_unescape_same E1 E2 Hc). }
  rewrite Hl in *.
  assert (cd2 = cd1) by congruence.
  repeat split; congruence.
Qed.

Lemma X9_witness :
  exists evs t,
    from_api_response (serving sample_page) sample_row = (evs, Ret (Some t))
    /\ tender_number t = "RFP123/2025"
    /\ closing_date t = Some (mkDatetime 2025 12 31 14 0 0 0).
Proof.
  edestruct (X9_row_fields_do_not_depend_on_the_page offline
               (serving sample_page) sample_row)
    as [evs [t [H [Hn [_ [_ [Hc _]]]]]]];
    [reflexivity | vm_compute; reflexivity |].
  exists evs, t. split; [exact H|]. rewrite Hn, Hc. split; reflexivity.
Defined.

(** X10.  A published date can only come from a fetched detail page: when
    a returned tender has one, the title of the row carried a link, the
    request for it was answered without an error status, and the date is
    what the create-date cell of that page reads in the format of the
    page. *)
Theorem X10_published_date_comes_from_the_page
  (E : externals) (response_item : pyval) (evs : list event)
  (t : SanralTender) (d : datetime) :
  from_api_response E response_item = (evs, Ret (Some t)) ->
  published_date t = Some d ->
  exists items f0 m resp s,
    response_item = PList items /\ nth 0 items PNone = PStr f0
    /\ link_of E f0 = Some m
    /\ requests_get E (portal_origin ++ group m "1") = Ret resp
    /\ raise_for_status resp = Ret tt
    /\ create_date_cell (soup resp) = Some s
    /\ strptime s "%B %d, %Y" = Ret d.
Proof.
  intros H Hd.
  destruct (returns_tender_inv E response_item evs t H)
    as [f0 [f1 [f2 [f3 [f4 [x5 [more ->]]]]]]].
  destruct (row_outcome E f0 f1 f2 f3 f4 x5 more)
    as (evs' & v & cd & t' & Hr & _ & Hv & _ & _ & _ & Hp & _).
  rewrite Hr in H. inversion H; subst evs' t'. clear H.
  rewrite Hp in Hd.
  destruct (enrich_pub_date E _ _ _ _ _ d Hv eq_refl Hd)
    as [u [resp [s [Hu [Hg [Hs [Hc Hst]]]]]]].
  destruct (link_of E f0) as [m|] eqn:Hm; [|discriminate].
  assert (Hl : u = portal_origin ++ group m "1").
  { destruct (link_found E f0 m Hm) as [Hl _].
    rewrite Hm in Hl. rewrite Hl in Hu. now inversion Hu. }
  subst u. eexists _, f0, m, resp, s. repeat split; eauto.
Qed.

Lemma X10_witness :
  exists s,
    create_date_cell sample_page = Some s
    /\ strptime s "%B %d, %Y" = Ret (mkDatetime 2025 10 10 0 0 0 0).
Proof.
  edestruct (X10_published_date_comes_from_the_page (serving sample_page)
               sample_row)
    as (items & f0 & m & resp & s & _ & _ & _ & Hg & _ & Hc & Hs);
    [vm_compute; reflexivity | reflexivity |].
  cbn in Hg. inversion Hg; subst resp. exists s. split; [exact Hc | exact Hs].
Defined.

(** X11.  For one row [from_api_response] makes at most one request, to a
    URL under the origin of the portal, and logs at most one warning; this
    holds whatever the row is and however the call ends. *)
Theorem X11_at_most_one_request (E : externals) (response_item : pyval) :
  fst (from_api_response E response_item) = []
  \/ exists path,
       fst (from_api_response E response_item)
       = [HttpGet (portal_origin ++ path)]
       \/ exists w,
            fst (from_api_response E response_item)
            = [HttpGet (portal_origin ++ path); LogWarning w].
Proof.
  destruct (from_api_response_events E response_item)
    as [H|[m [tn [v ->]]]]; [now left|].
  destruct (enrich_events E (fst (parse_title_link m)) tn v)
    as [H|[u [Hu H]]]; [now left|].
  right. destruct (parse_title_link_cases m) as [Hn|[path Hp]];
    [congruence|].
  exists path. rewrite Hp in Hu. inversion Hu; subst u. exact H.
Qed.

(** X12.  When the request for the detail page is answered without an
    error status, each of the four values of the page is taken on its
    own: a heading, a subheading or a notice cell that the page has
    replaces the provisional title, description or notice text (also when
    it is empty), one that it lacks leaves the provisional value; the
    e-mail is read from the notice text that results; and the published
    date is what the create date reads in its format, or absent. *)
Theorem X12_page_values_override_one_by_one
  (E : externals) (f0 f1 f2 f3 f4 f5 : str) (more : list pyval)
  (m : match_object) (resp : response) :
  link_of E f0 = Some m ->
  requests_get E (portal_origin ++ group m "1") = Ret resp ->
  raise_for_status resp = Ret tt ->
  exists evs t,
    from_api_response E (row f0 f1 f2 f3 f4 f5 more) = (evs, Ret (Some t))
    /\ title t
       = Text.title (match page_header_h2 (soup resp) with
                     | Some text => text
                     | None => join space (split (group m "2"))
                     end)
    /\ description t
       = Text.title (match first_h3 (soup resp) with
                     | Some text => text
                     | None => strip (replace "Tender Notice:" ""
                                        (collapsed_text E f3))
                     end)
    /\ full_notice_text t
       = Text.title (match notice_cell (soup resp) with
                     | Some text => text
                     | None => collapsed_text E f4
                     end)
    /\ email t
       = extract_email (match notice_cell (soup resp) with
                        | Some text => text
                        | None => collapsed_text E f4
                        end)
    /\ published_date t
       = match create_date_cell (soup resp) with
         | Some s =>
             match strptime s "%B %d, %Y" with
             | Ret d => Some d
             | Raise _ => None
             end
         | None => None
         end.
Proof. apply row_on_answered_page. Qed.

Lemma X12_witness :
  exists evs t,
    from_api_response (serving (mkPage None (Some []) None None)) sample_row
    = (evs, Ret (Some t))
    /\ title t = "Rfp123/2025"
    /\ description t = []
    /\ published_date t = None.
Proof.
  edestruct (X12_page_values_override_one_by_one
               (serving (mkPage None (Some []) None None)) sample_title
               "Construction" "KwaZulu-Natal" "Tender Notice: Upgrade of N2"
               "Full text info@sanral.co.za" "2025/12/31 14:00" [])
    as (evs & t & Hr & Ht & Hd & _ & _ & Hp);
    [vm_compute; reflexivity | reflexivity | reflexivity |].
  exists evs, t. split; [exact Hr|]. rewrite Ht, Hd, Hp.
  repeat split; vm_compute; reflexivity.
Defined.

(** X13.  The dates of a returned tender are calendar dates (the month,
    the day of that month in that year, the hour and the minute are in
    range) with no seconds and no microseconds; the published date has no
    time of day at all. *)
Theorem X13_dates_are_calendar_dates (E : externals) (response_item : pyval)
  (evs : list event) (t : SanralTender) :
  from_api_response E response_item = (evs, Ret (Some t)) ->
  dates_valid t
  /\ (forall d, closing_date t = Some d ->
                second d = 0%Z /\ microsecond d = 0%Z)
  /\ (forall d, published_date t = Some d ->
                hour d = 0%Z /\ minute d = 0%Z
                /\ second d = 0%Z /\ microsecond d = 0%Z).
Proof.
  intros H.
  assert (Hc : forall d, closing_date t = Some d ->
                 valid_datetime d = true /\ second d = 0%Z
                 /\ microsecond d = 0%Z).
  { intros d Hd. destruct (closing_date_read E _ _ _ d H Hd) as [v Hv].
    now apply parse_sanral_date_valid in Hv. }
  assert (Hp : forall d, published_date t = Some d ->
                 valid_datetime d = true /\ hour d = 0%Z /\ minute d = 0%Z
                 /\ second d = 0%Z /\ microsecond d = 0%Z).
  { intros d Hd. destruct (published_date_read E _ _ _ d H Hd) as [s Hs].
    destruct (strptime_valid _ _ _ Hs) as (Hv & Hsec & Hus).
    destruct (strptime_long_no_time _ _ Hs) as [HH HM]. auto. }
  split; [|split].
  - split.
    + destruct (published_date t) as [d|]; [|exact I]. now apply Hp.
    + destruct (closing_date t) as [d|]; [|exact I]. now apply Hc.
  - intros d Hd. now apply Hc.
  - intros d Hd. now apply Hp.
Qed.

Lemma X13_witness :
  exists evs t,
    from_api_response (serving sample_page) sample_row = (evs, Ret (Some t))
    /\ dates_valid t.
Proof.
  edestruct (X13_dates_are_calendar_dates (serving sample_page) sample_row)
    as (Hv & _ & _); [vm_compute; reflexivity|].
  eexists _, _. split; [vm_compute; reflexivity | exact Hv].
Defined.

(** X14.  White space around the closing date does not matter:
    parse_sanral_date reads a text as it reads the stripped text. *)
Theorem X14_parse_sanral_date_ignores_outer_space (s : str) :
  parse_sanral_date (PStr s) = parse_sanral_date (PStr (strip s)).
Proof. apply parse_sanral_date_strip. Qed.

(** X15.  The first format is tried on the text without its full stops
    and capital letters H: a closing date that, stripped and with every
    full stop and every H removed, is a date and time written
    YYYY/MM/DD HH:MM is read as that date and time. *)
Theorem X15_stops_and_H_are_dropped_for_the_first_format
  (s : str) (d : datetime) :
  valid_datetime d = true -> second d = 0%Z -> microsecond d = 0%Z ->
  replace "H" "" (replace "." "" (strip s)) = numeric_date_time d ->
  parse_sanral_date (PStr s) = Ret (Some d).
Proof.
  intros Hv Hs Hu H. unfold parse_sanral_date.
  destruct s as [|c s]; [discriminate H|].
  cbn [truthy isinstance_str negb length Nat.eqb orb].
  unfold formats_to_try. cbn [map try_formats]. unfold try_format at 1.
  change (contains "H" "%Y/%m/%d %H:%M") with true. cbv iota.
  now rewrite H, strptime_numeric_date_time.
Qed.

Lemma X15_witness :
  parse_sanral_date (PStr " 2025/12/31. 14H:00 ")
  = Ret (Some (mkDatetime 2025 12 31 14 0 0 0)).
Proof.
  apply X15_stops_and_H_are_dropped_for_the_first_format;
    vm_compute; reflexivity.
Defined.

(** X16.  to_dict loses nothing: two tenders whose dates are calendar
    dates and whose dictionaries are equal are the same tender. *)
Theorem X16_to_dict_is_injective (t1 t2 : SanralTender) :
  dates_valid t1 -> dates_valid t2 -> to_dict t1 = to_dict t2 -> t1 = t2.
Proof. apply to_dict_inj. Qed.

Lemma X16_witness :
  exists t1 t2,
    tender_of offline sample_row = [t1]
    /\ tender_of (serving sample_page) sample_row = [t2]
    /\ to_dict t1 <> to_dict t2.
Proof.
  eexists _, _. split; [vm_compute; reflexivity|].
  split; [vm_compute; reflexivity|].
  intros H.
  apply X16_to_dict_is_injective in H;
    [discriminate H | vm_compute; auto | vm_compute; auto].
Defined.

(** X17.  The tender number of a returned tender has no white space at
    its ends and single spaces between its words: collapsing its white
    space again changes nothing. *)
Theorem X17_tender_number_is_collapsed (E : externals)
  (response_item : pyval) (evs : list event) (t : SanralTender) :
  from_api_response E response_item = (evs, Ret (Some t)) ->
  join space (split (tender_number t)) = tender_number t.
Proof.
  intros H.
  destruct (returns_tender_inv E response_item evs t H)
    as (f0 & f1 & f2 & f3 & f4 & x5 & more & ->).
  destruct (row_outcome E f0 f1 f2 f3 f4 x5 more)
    as (evs' & v & cd & t' & Hr & _ & _ & _ & _ & _ & _ & _ & _ & _ & Hn & _).
  rewrite Hr in H. inversion H; subst evs' t'. rewrite Hn.
  destruct (link_of E f0) as [m|]; cbn [parse_title_link snd].
  - apply collapse_upper_collapse.
  - vm_compute. reflexivity.
Qed.

Lemma X17_witness :
  exists evs t,
    from_api_response offline sample_row = (evs, Ret (Some t))
    /\ join space (split (tender_number t)) = tender_number t.
Proof.
  eexists _, _. split; [vm_compute; reflexivity|].
  eapply (X17_tender_number_is_collapsed offline sample_row).
  vm_compute. reflexivity.
Defined.

(** X18.  The create date of the detail page is read back: when the page
    is served and its create date is a calendar day written as strftime
    writes it in the format of the page (month name, day, comma, year),
    that day is the published date of the tender. *)
Theorem X18_create_date_is_read_back
  (E : externals) (f0 f1 f2 f3 f4 f5 : str) (more : list pyval)
  (m : match_object) (resp : response) (d : datetime) :
  link_of E f0 = Some m ->
  requests_get E (portal_origin ++ group m "1") = Ret resp ->
  raise_for_status resp = Ret tt ->
  valid_datetime d = true ->
  hour d = 0%Z -> minute d = 0%Z -> second d = 0%Z -> microsecond d = 0%Z ->
  create_date_cell (soup resp) = Some (long_date d) ->
  exists evs t,
    from_api_response E (row f0 f1 f2 f3 f4 f5 more) = (evs, Ret (Some t))
    /\ published_date t = Some d.
Proof.
  intros Hm Hg Hs Hv HH HM HS HU Hc.
  destruct (row_on_answered_page E f0 f1 f2 f3 f4 f5 more m resp Hm Hg Hs)
    as (evs & t & Hr & _ & _ & _ & _ & Hp).
  exists evs, t. split; [exact Hr|].
  now rewrite Hp, Hc, strptime_long_date.
Qed.

Lemma X18_witness :
  exists evs t,
    from_api_response
      (serving (mkPage None None None (Some ("February 29, 2028" : str))))
      sample_row
    = (evs, Ret (Some t))
    /\ published_date t = Some (mkDatetime 2028 2 29 0 0 0 0).
Proof.
  eapply (X18_create_date_is_read_back
            (serving (mkPage None None None
                        (Some ("February 29, 2028" : str))))
            sample_title "Construction" "KwaZulu-Natal"
            "Tender Notice: Upgrade of N2" "Full text info@sanral.co.za"
            "2025/12/31 14:00" []);
    [vm_compute; reflexivity | reflexivity | reflexivity
    | vm_compute; reflexivity | reflexivity | reflexivity | reflexivity
    | reflexivity | vm_compute; reflexivity].
Defined.

(** X19.  When the final notice text is ASCII text, the e-mail of the
    tender can be recomputed from the notice text the tender keeps: it is
    the last address in the kept text, in lower case, or empty when the
    text has none, although the address was looked for before the text was
    title-cased. *)
Theorem X19_email_agrees_with_the_kept_text (E : externals)
  (response_item : pyval) (evs : list event) (t : SanralTender) :
  from_api_response E response_item = (evs, Ret (Some t)) ->
  exists text,
    notice_text_source E response_item text
    /\ full_notice_text t = Text.title text
    /\ email t = extract_email text
    /\ (ascii_text text = true ->
        email t = extract_email (full_notice_text t)).
Proof.
  intros H.
  destruct (final_notice_text E response_item evs t H)
    as (text & Hsrc & Hx & He).
  exists text. split; [exact Hsrc|]. split; [exact Hx|].
  split; [exact He|].
  intros Ha. now rewrite He, Hx, extract_email_title.
Qed.

Lemma X19_witness :
  exists evs t,
    from_api_response (serving sample_page) sample_row = (evs, Ret (Some t))
    /\ full_notice_text t
       = "Full Tender Details Including Contact Info: Info@Sanral.Co.Za"
    /\ email t = "info@sanral.co.za"
    /\ email t = extract_email (full_notice_text t).
Proof.
  eexists _, _. split; [vm_compute; reflexivity|].
  split; [vm_compute; reflexivity|]. split; [vm_compute; reflexivity|].
  edestruct (X19_email_agrees_with_the_kept_text (serving sample_page)
               sample_row) as (text & Hsrc & _ & _ & Hk);
    [vm_compute; reflexivity|].
  apply Hk.
  destruct Hsrc as [(items & f4 & Hi & Hf & ->)
                   |(items & f0 & m & resp & _ & _ & _ & Hg & _ & Hn)].
  - inversion Hi; subst items. cbn in Hf. inversion Hf; subst f4.
    vm_compute. reflexivity.
  - cbn in Hg. inversion Hg; subst resp. cbn in Hn. inversion Hn; subst text.
    vm_compute. reflexivity.
Defined.

(** Without the condition the two may differ: the title of a sharp s is
    Ss, which joins the address that follows it. *)
Example email_after_sharp_s :
  exists evs t,
    from_api_response offline
      (row sample_title "Construction" "KwaZulu-Natal" "Upgrade of N2"
           ("mail " ++ [ascii_of_nat 223] ++ "en@x.org")
           "2025/12/31 14:00" [])
    = (evs, Ret (Some t))
    /\ full_notice_text t = "Mail Ssen@X.Org"
    /\ email t = "en@x.org"
    /\ extract_email (full_notice_text t) = "ssen@x.org".
Proof.
  eexists _, _. split; [vm_compute; reflexivity|].
  repeat split; vm_compute; reflexivity.
Qed.
